(** * social-engager: discovery scoring, engagement pacing, ledger and orchestrator

    A shallow embedding of [adapters/base.py], [core/discovery.py],
    [core/engagement.py], [core/analytics.py] and [core/engine.py].

    Conventions of the embedding.
    - A Python [int] is a [Z].  A Python [str] is a [string] holding its UTF-8
      encoding, so a literal of the source is the same literal here; its
      characters are the code points ([Py.chars]), which is what [len] and
      [strip] work on.  [str(n)] is the decimal numeral of [n] whatever its
      length: the interpreter's limit on the digits of a conversion
      ([sys.set_int_max_str_digits]) is taken to be switched off.
    - A Python [float] is an IEEE 754 double.  It only occurs as an engagement
      score and as an age in hours, which are finite: a finite double is kept
      as the rational number it denotes ([Q]), and every operation is the exact
      operation followed by [Py.round64], rounding to the nearest double, ties
      to even.  The true division of integers raises [OverflowError] beyond
      the doubles.
    - [print] is not modelled, except where evaluating its argument can raise.
    - Code that talks to the outside (adapters, the completion capability, the
      clock, the random generator, the SQLite file) runs in the monad [M]: a
      state monad over [World] with exceptions. *)

From Stdlib Require Import ZArith QArith Qminmax Qround Qabs Qpower Lqa.
From Stdlib Require Import String Ascii List Bool Lia DecimalString.
From stdpp Require Import base gmap strings list sorting.

Open Scope Z_scope.
Set Warnings "-register-all".

(** ** The Python runtime the sources rely on *)

Module Py.

(** Exceptions, by class. *)
Inductive exn : Type :=
| ValueError (msg : string)
| TypeError (msg : string)
| OverflowError (msg : string)
| ZeroDivisionError (msg : string)
| JSONDecodeError (msg : string)
| RuntimeError (msg : string).

(** The outcome of evaluating an expression: a value or a raised exception. *)
Inductive result (A : Type) : Type :=
| Ok (a : A)
| Raise (e : exn).
Arguments Ok {A} a.
Arguments Raise {A} e.

(** [str(n)] for an integer. *)
Definition str_of_int (n : Z) : string := NilZero.string_of_int (Z.to_int n).

(** [sep.join(parts)] *)
Definition join (sep : string) (parts : list string) : string := String.concat sep parts.

(** [needle in hay] on strings: substring test. *)
Fixpoint str_in (needle hay : string) : bool :=
  String.prefix needle hay ||
  match hay with
  | EmptyString => false
  | String _ hay' => str_in needle hay'
  end.

(** The characters of a string: each is a byte of the encoding together with
    the continuation bytes (10xxxxxx) that follow it. *)
Definition is_continuation (c : ascii) : bool :=
  let n := nat_of_ascii c in ((128 <=? n) && (n <? 192))%nat.

Definition continues (s : string) : bool :=
  match s with
  | String c _ => is_continuation c
  | EmptyString => false
  end.

Fixpoint chars (s : string) : list string :=
  match s with
  | EmptyString => []
  | String c s' =>
      match chars s' with
      | ch :: rest =>
          if continues s' then String c ch :: rest
          else String c EmptyString :: ch :: rest
      | [] => [String c EmptyString]
      end
  end.

(** [len(s)] *)
Definition len (s : string) : nat := length (chars s).

(** [ord(ch)] for a character, read off its encoding. *)
Definition ord (ch : string) : N :=
  match ch with
  | EmptyString => 0%N
  | String c rest =>
      let lead := N_of_ascii c in
      let high :=
        if (lead <? 128)%N then lead
        else if (lead <? 224)%N then (lead - 192)%N
        else if (lead <? 240)%N then (lead - 224)%N
        else (lead - 240)%N in
      fold_left (fun acc b => (acc * 64 + (N_of_ascii b - 128))%N)
                (list_ascii_of_string rest) high
  end.

(** [ch.isspace()] for a character: the whitespace of Unicode. *)
Definition isspace (ch : string) : bool :=
  let n := ord ch in
  ((9 <=? n) && (n <=? 13) || (28 <=? n) && (n <=? 32) || (n =? 133) || (n =? 160)
   || (n =? 5760) || (8192 <=? n) && (n <=? 8202) || (n =? 8232) || (n =? 8233)
   || (n =? 8239) || (n =? 8287) || (n =? 12288))%N.

Fixpoint lstrip_chars (l : list string) : list string :=
  match l with
  | [] => []
  | ch :: l' => if isspace ch then lstrip_chars l' else l
  end.

(** [s.strip()]: the whitespace characters at both ends are removed. *)
Definition strip (s : string) : string :=
  String.concat "" (rev (lstrip_chars (rev (lstrip_chars (chars s))))).

(** [s.split(sep)] for a one-character separator. *)
Fixpoint split (sep : ascii) (s : string) : list string :=
  match s with
  | EmptyString => [EmptyString]
  | String c s' =>
      if Ascii.eqb c sep then EmptyString :: split sep s'
      else match split sep s' with
           | [] => [String c EmptyString]
           | l :: ls => String c l :: ls
           end
  end.

(** [bool(s)] for a string: non-empty. *)
Definition truthy (s : string) : bool :=
  match s with EmptyString => false | _ => true end.

(** [l[:n]] for a list: a negative bound counts from the end. *)
Definition slice_to {A : Type} (l : list A) (n : Z) : list A :=
  if 0 <=? n then take (Z.to_nat n) l
  else take (length l - Z.to_nat (- n)) l.

(** [l.sort(key=key, reverse=True)].  Python's sort is stable, and stays so
    under [reverse=True]: the result is in descending order of key and elements
    of equal key keep their order.  Written as an insertion sort: an element is
    placed in front of the first element whose key does not exceed its own. *)
Fixpoint insert_reverse {A : Type} (key : A -> Q) (x : A) (l : list A) : list A :=
  match l with
  | [] => [x]
  | y :: l' =>
      if Qle_bool (key y) (key x) then x :: l
      else y :: insert_reverse key x l'
  end.

Fixpoint sort_reverse {A : Type} (key : A -> Q) (l : list A) : list A :=
  match l with
  | [] => []
  | x :: l' => insert_reverse key x (sort_reverse key l')
  end.

(** JSON values, as [json.loads] returns them. *)
Inductive json : Type :=
| JNull
| JBool (b : bool)
| JNumber (q : Q)
| JString (s : string)
| JArray (items : list json)
| JObject (members : list (string * json)).

(** [x[:50]] is defined on strings and lists; on the other JSON values
    Python raises. *)
Definition sliceable (x : json) : bool :=
  match x with
  | JString _ | JArray _ => true
  | _ => false
  end.

(** [re.search(r'\[.*\]', s, re.DOTALL)]: with DOTALL the greedy [.*] spans
    newlines, so the match, when there is one, runs from the first opening
    bracket to the last closing bracket after it. *)
Fixpoint upto_last_close (s : string) : option string :=
  match s with
  | EmptyString => None
  | String c s' =>
      match upto_last_close s' with
      | Some r => Some (String c r)
      | None => if Ascii.eqb c "]" then Some (String c EmptyString) else None
      end
  end.

Fixpoint search_bracketed (s : string) : option string :=
  match s with
  | EmptyString => None
  | String c s' =>
      if Ascii.eqb c "[" then
        match upto_last_close s' with
        | Some r => Some (String c r)
        | None => None
        end
      else search_bracketed s'
  end.

(** Floats.  [pow2 e] is 2 to the power [e], [ilog2 q] the integer part of the
    binary logarithm of a positive [q], [rne q] the integer nearest to [q],
    ties to even. *)
Definition pow2 (e : Z) : Q := (2 ^ e)%Q.

Definition ilog2 (q : Q) : Z :=
  let k := Z.log2 (Qnum q) - Z.log2 (Zpos (Qden q)) in
  if Qle_bool (pow2 k) q then k else k - 1.

Definition rne (q : Q) : Z :=
  let f := Qfloor q in
  match Qcompare (q - inject_Z f) (1 # 2) with
  | Lt => f
  | Gt => f + 1
  | Eq => if Z.even f then f else f + 1
  end.

(** The exponent of the last place of the doubles around [q]: 53 bits of
    precision, and never below the exponent -1074 of the subnormals. *)
Definition fexp (q : Q) : Z := Z.max (ilog2 q - 52) (-1074).

Definition round_pos (q : Q) : Q :=
  let e := fexp q in
  (inject_Z (rne (q / pow2 e)) * pow2 e)%Q.

(** The double nearest to [q], ties to even, in lowest terms.  No sum or
    quotient of floats in the sources comes near the largest double (the
    scores stay below 16 plus two per hashtag and three per keyword, the ages
    below the span of a [timedelta]), so [round64] has no upper bound; the
    division of integers, which can exceed it, checks for it. *)
Definition round64 (q : Q) : Q :=
  Qred (if Qle_bool 0 q then round_pos q else - round_pos (- q)).

(** [a / b] on integers: the quotient correctly rounded. *)
Definition int_truediv (a b : Z) : result Q :=
  if b =? 0 then Raise (ZeroDivisionError "division by zero")
  else
    let q := round64 (inject_Z a / inject_Z b) in
    if Qle_bool (pow2 1024) (Qabs q)
    then Raise (OverflowError "integer division result too large for a float")
    else Ok q.

(** [x + y] and [x / y] on floats; an integer operand is converted first,
    which is exact for the constants of the sources. *)
Definition float_add (x y : Q) : Q := round64 (x + y).
Definition float_div (x y : Q) : Q := round64 (x / y).

(** [datetime.datetime].  [utcoffset] is [d.utcoffset()] in microseconds: a
    datetime for which it is [None] is naive, the others are aware. *)
Record datetime : Type := mk_datetime {
  year : Z; month : Z; day : Z;
  hour : Z; minute : Z; second : Z; microsecond : Z;
  utcoffset : option Z
}.

(** The same reading of the calendar and the clock, without time zone. *)
Definition naive (d : datetime) : datetime :=
  mk_datetime (year d) (month d) (day d) (hour d) (minute d) (second d)
              (microsecond d) None.

Definition _is_leap (y : Z) : bool :=
  (y mod 4 =? 0) && (negb (y mod 100 =? 0) || (y mod 400 =? 0)).

Definition _days_before_year (y : Z) : Z :=
  let y := y - 1 in y * 365 + y / 4 - y / 100 + y / 400.

Definition _DAYS_IN_MONTH : list Z := [31; 28; 31; 30; 31; 30; 31; 31; 30; 31; 30; 31].

Definition _days_before_month (y m : Z) : Z :=
  foldr Z.add 0 (take (Z.to_nat (m - 1)) _DAYS_IN_MONTH)
  + (if (2 <? m) && _is_leap y then 1 else 0).

Definition toordinal (d : datetime) : Z :=
  _days_before_year (year d) + _days_before_month (year d) (month d) + day d.

(** The microseconds between two readings of the calendar and the clock. *)
Definition wall_sub (a b : datetime) : Z :=
  let days := toordinal a - toordinal b in
  let secs := (second a + minute a * 60 + hour a * 3600)
              - (second b + minute b * 60 + hour b * 3600) in
  (days * 86400 + secs) * 1000000 + (microsecond a - microsecond b).

(** [a - b]: a [timedelta], kept as its total number of microseconds.  Naive
    datetimes are subtracted as they read, aware ones of different zones after
    moving both to UTC; a naive and an aware one cannot be subtracted. *)
Definition datetime_sub (a b : datetime) : result Z :=
  match utcoffset a, utcoffset b with
  | None, None => Ok (wall_sub a b)
  | Some offset_a, Some offset_b => Ok (wall_sub a b - offset_a + offset_b)
  | _, _ => Raise (TypeError "can't subtract offset-naive and offset-aware datetimes")
  end.

(** [td.total_seconds()]: the microseconds divided by [10**6], as integers. *)
Definition total_seconds (td : Z) : Q := round64 (inject_Z td / 1000000).

Definition pad2 (n : Z) : string :=
  if (0 <=? n) && (n <? 10) then String "0" (str_of_int n) else str_of_int n.

(** [d.strftime("%Y-%m-%d")] *)
Definition strftime_ymd (d : datetime) : string :=
  str_of_int (year d) +:+ "-" +:+ pad2 (month d) +:+ "-" +:+ pad2 (day d).

(** [x < y] on floats and integers: they compare by value. *)
Definition Qltb (x y : Q) : bool := negb (Qle_bool y x).

End Py.
Export Py.

(** Library functions whose results no property below depends on. *)
Class PyLib : Type := {
  (** [s.lower()] *)
  str_lower : string -> string;
  (** [json.loads(s)] *)
  json_loads : string -> result json;
  (** [json.dumps(d)] for a [Dict[str, str]] *)
  json_dumps : list (string * string) -> string
}.

(** ** adapters/base.py: the data the core exchanges with a platform *)

Inductive Platform : Type := INSTAGRAM | TWITTER | TIKTOK | LINKEDIN.

#[global] Instance Platform_eq_dec : EqDecision Platform.
Proof. solve_decision. Defined.

Module Platform_.
Definition value (p : Platform) : string :=
  match p with
  | INSTAGRAM => "instagram"
  | TWITTER => "twitter"
  | TIKTOK => "tiktok"
  | LINKEDIN => "linkedin"
  end.
End Platform_.

Module Post.
Record t : Type := mk {
  platform : Platform;
  post_id : string;
  url : string;
  author : string;
  author_id : string;
  content : string;
  image_url : option string;
  likes : Z;
  comments_count : Z;
  timestamp : option datetime;
  location : option string;
  hashtags : list string
}.

Definition with_likes (n : Z) (p : t) : t :=
  mk (platform p) (post_id p) (url p) (author p) (author_id p) (content p)
     (image_url p) n (comments_count p) (timestamp p) (location p) (hashtags p).
End Post.
Abbreviation Post := Post.t.

Module EngagementResult.
Record t : Type := mk {
  success : bool;
  platform : Platform;
  action : string;
  post_id : string;
  message : option string;
  error : option string;
  timestamp : datetime
}.
End EngagementResult.
Abbreviation EngagementResult := EngagementResult.t.

(** ** core/discovery.py: configuration and result of discovery *)

Module DiscoveryConfig.
Record t : Type := mk {
  platforms : list Platform;
  hashtags : list string;
  keywords : list string;
  location : option string;
  min_likes : Z;
  max_likes : Z;
  posts_age_hours : Z;
  limit : Z;
  exclude_users : list string;
  exclude_hashtags : list string
}.

Definition with_posts_age_hours (h : Z) (c : t) : t :=
  mk (platforms c) (hashtags c) (keywords c) (location c) (min_likes c)
     (max_likes c) h (limit c) (exclude_users c) (exclude_hashtags c).
End DiscoveryConfig.
Abbreviation DiscoveryConfig := DiscoveryConfig.t.

Module DiscoveredPost.
Record t : Type := mk {
  post : Post;
  engagement_score : Q;
  reason : string;
  filters_passed : list string
}.
End DiscoveredPost.
Abbreviation DiscoveredPost := DiscoveredPost.t.

(** ** core/engagement.py: configuration of the executor *)

Module TargetAudience.
Record t : Type := mk {
  interests : list string;
  demographics : list (string * string);
  pain_points : list string;
  desires : list string
}.
End TargetAudience.
Abbreviation TargetAudience := TargetAudience.t.

Module EngagementConfig.
Record t : Type := mk {
  audience : TargetAudience;
  tone : string;
  max_daily : Z;
  min_delay_seconds : Z;
  max_delay_seconds : Z;
  skip_already_engaged : bool
}.
End EngagementConfig.
Abbreviation EngagementConfig := EngagementConfig.t.

(** ** core/analytics.py: the two tables of the SQLite file *)

(** A row of [engagements].  The [timestamp] column is filled by SQLite
    ([DEFAULT CURRENT_TIMESTAMP]) and read by none of the queries below; it is
    left out. *)
Module EngagementRecord.
Record t : Type := mk {
  id : Z;
  platform : string;
  action : string;
  post_id : string;
  post_author : string;
  comment : string;
  success : Z;
  error : string
}.
End EngagementRecord.
Abbreviation EngagementRecord := EngagementRecord.t.

(** A row of [daily_stats], without its primary key [date]. *)
Module DailyStats.
Record t : Type := mk {
  comments_posted : Z;
  likes_posted : Z;
  follows_posted : Z;
  success_count : Z;
  failure_count : Z
}.

(** The columns' [DEFAULT 0]. *)
Definition default : t := mk 0 0 0 0 0.

(** Read and write a column by its SQL name. *)
Definition get (col : string) (r : t) : Z :=
  if String.eqb col "comments_posted" then comments_posted r
  else if String.eqb col "likes_posted" then likes_posted r
  else if String.eqb col "follows_posted" then follows_posted r
  else if String.eqb col "success_count" then success_count r
  else if String.eqb col "failure_count" then failure_count r
  else 0.

Definition set (col : string) (v : Z) (r : t) : t :=
  if String.eqb col "comments_posted" then
    mk v (likes_posted r) (follows_posted r) (success_count r) (failure_count r)
  else if String.eqb col "likes_posted" then
    mk (comments_posted r) v (follows_posted r) (success_count r) (failure_count r)
  else if String.eqb col "follows_posted" then
    mk (comments_posted r) (likes_posted r) v (success_count r) (failure_count r)
  else if String.eqb col "success_count" then
    mk (comments_posted r) (likes_posted r) (follows_posted r) v (failure_count r)
  else if String.eqb col "failure_count" then
    mk (comments_posted r) (likes_posted r) (follows_posted r) (success_count r) v
  else r.
End DailyStats.
Abbreviation DailyStats := DailyStats.t.

Module Database.
Record t : Type := mk {
  (** table [engagements], in insertion order *)
  engagements : list EngagementRecord;
  (** the AUTOINCREMENT counter of [engagements] *)
  engagements_seq : Z;
  (** table [daily_stats], keyed by [date] *)
  daily_stats : gmap string DailyStats
}.

(** A database file on which [_init_db] has just created the tables. *)
Definition empty : t := mk [] 0 ∅.
End Database.
Abbreviation Database := Database.t.

(** ** The world outside the core, and the monad of effectful code

    [E] is the state of everything behind the capability interfaces (the
    browser session of an adapter, the completion service).  The clock and the
    random generator are oracles: the n-th reading of the clock returns
    [clock n], the n-th draw of the generator is derived from [entropy n]. *)

(** What the core asks of the outside, in the order it happens. *)
Inductive Event : Type :=
| EvSearch (platform : Platform) (query : option string) (hashtags : list string)
           (location : option string) (limit : Z)
| EvEngage (platform : Platform) (posts : list Post)
| EvSleep (seconds : Z)
| EvComplete (prompt : string)
| EvComment (post_id : string) (comment : json) (outcome : result EngagementResult)
| EvCallback (post : Post) (outcome : EngagementResult).

Module World.
Record t (E : Type) : Type := mk {
  ext : E;
  clock : nat -> datetime;
  clock_reads : nat;
  entropy : nat -> Z;
  entropy_reads : nat;
  db : Database;
  trace : list Event
}.
Arguments mk {E}.
Arguments ext {E}.
Arguments clock {E}.
Arguments clock_reads {E}.
Arguments entropy {E}.
Arguments entropy_reads {E}.
Arguments db {E}.
Arguments trace {E}.
End World.
Abbreviation World := World.t.

Section Effects.
Context {E : Type}.

Definition M (A : Type) : Type := World E -> result A * World E.

Definition ret {A : Type} (a : A) : M A := fun w => (Ok a, w).

Definition bind {A B : Type} (c : M A) (k : A -> M B) : M B :=
  fun w =>
    match c w with
    | (Ok a, w') => k a w'
    | (Raise e, w') => (Raise e, w')
    end.

Definition raise {A : Type} (e : exn) : M A := fun w => (Raise e, w).

(** An expression that touches nothing: its value, or the exception it raises. *)
Definition of_result {A : Type} (r : result A) : M A := fun w => (r, w).

(** [try: c  except Exception as e: h e] *)
Definition try_except {A : Type} (c : M A) (h : exn -> M A) : M A :=
  fun w =>
    match c w with
    | (Ok a, w') => (Ok a, w')
    | (Raise e, w') => h e w'
    end.

(** Record an event at the end of the trace. *)
Definition emit (ev : Event) : M unit :=
  fun w =>
    (Ok tt, World.mk (World.ext w) (World.clock w) (World.clock_reads w)
                     (World.entropy w) (World.entropy_reads w) (World.db w)
                     (World.trace w ++ [ev])).

(** Run a capability of the outside on its own state. *)
Definition external {A : Type} (f : E -> result A * E) : M A :=
  fun w =>
    let '(r, x) := f (World.ext w) in
    (r, World.mk x (World.clock w) (World.clock_reads w)
                 (World.entropy w) (World.entropy_reads w) (World.db w)
                 (World.trace w)).

(** [datetime.now()]: the reading of the clock, as a naive datetime. *)
Definition datetime_now : M datetime :=
  fun w =>
    (Ok (naive (World.clock w (World.clock_reads w))),
     World.mk (World.ext w) (World.clock w) (S (World.clock_reads w))
              (World.entropy w) (World.entropy_reads w) (World.db w)
              (World.trace w)).

(** [random.Random._randbelow(n)] for [0 < n]: some integer of [0, n). *)
Definition _randbelow (n : Z) : M Z :=
  fun w =>
    (Ok (World.entropy w (World.entropy_reads w) mod n),
     World.mk (World.ext w) (World.clock w) (World.clock_reads w)
              (World.entropy w) (S (World.entropy_reads w)) (World.db w)
              (World.trace w)).

(** [random.randint(a, b)], which is [randrange(a, b + 1)]: the width of the
    range must be positive. *)
Definition randint (a b : Z) : M Z :=
  let width := b + 1 - a in
  if 0 <? width then bind (_randbelow width) (fun r => ret (a + r))
  else raise (ValueError "empty range for randrange()").

(** [await asyncio.sleep(delay)] *)
Definition sleep (delay : Z) : M unit := emit (EvSleep delay).

(** A read-only query on the database file. *)
Definition db_query {A : Type} (q : Database -> A) : M A :=
  fun w => (Ok (q (World.db w)), w).

(** A statement that changes the database file. *)
Definition db_execute (stmt : Database -> Database) : M unit :=
  fun w =>
    (Ok tt, World.mk (World.ext w) (World.clock w) (World.clock_reads w)
                     (World.entropy w) (World.entropy_reads w)
                     (stmt (World.db w)) (World.trace w)).

End Effects.

Declare Scope eff_scope.
Delimit Scope eff_scope with eff.
Notation "x <- c ;; k" := (bind c (fun x => k))
  (at level 100, c at next level, k at level 200, right associativity) : eff_scope.
Notation "c ;; k" := (bind c (fun _ => k))
  (at level 100, k at level 200, right associativity) : eff_scope.
Open Scope eff_scope.

(** The capability interface of a platform ([PlatformAdapter]), restricted to
    the operations the core calls.  Each may raise. *)
Module PlatformAdapter.
Record t (E : Type) : Type := mk {
  search_posts : option string -> list string -> option string -> Z ->
                 E -> result (list Post) * E;
  comment : string -> json -> E -> result EngagementResult * E
}.
Arguments mk {E}.
Arguments search_posts {E}.
Arguments comment {E}.
End PlatformAdapter.
Abbreviation PlatformAdapter := PlatformAdapter.t.

(** The completion capability: [llm.complete(prompt, temperature)]. *)
Definition LLM (E : Type) : Type := string -> Q -> E -> result string * E.

(** [for x in l: acc = body x acc], in the monad. *)
Fixpoint for_each {E A S : Type} (l : list A) (body : A -> S -> M (E := E) S) (acc : S)
  : M S :=
  match l with
  | [] => ret acc
  | x :: l' => acc' <- body x acc ;; for_each l' body acc'
  end.

(** The same loop inside a [try] whose handler goes on with [acc]: the
    accumulator is an object changed in place (a list that is appended to), so
    when an iteration raises, the handler finds it as the iterations before
    left it, and the loop is over. *)
Fixpoint for_each_try {E A S : Type} (l : list A) (body : A -> S -> M (E := E) S) (acc : S)
  : M S :=
  match l with
  | [] => ret acc
  | x :: l' =>
      fun w =>
        match body x acc w with
        | (Ok acc', w') => for_each_try l' body acc' w'
        | (Raise _, w') => (Ok acc, w')
        end
  end.

(** The registry [Dict[Platform, PlatformAdapter]], read through [.get]. *)
Definition Adapters (E : Type) : Type := Platform -> option (PlatformAdapter E).

(** ** core/discovery.py *)

Module Discovery.
Section Discovery.
Context {E : Type} `{PyLib}.
Variable adapters : Adapters E.

Definition _calculate_score (post : Post) (config : DiscoveryConfig) : M (E := E) Q :=
  let score := 0%Q in
  (* Like count scoring *)
  quotient <- of_result (int_truediv (Post.likes post) 100) ;;
  let like_score := Qmin quotient 10 in
  let score := float_add score like_score in
  (* Recency bonus *)
  score <-
    match Post.timestamp post with
    | Some ts =>
        now <- datetime_now ;;
        age <- of_result (datetime_sub now ts) ;;
        let hours_old := float_div (total_seconds age) 3600 in
        ret (if Qltb hours_old 1 then float_add score 5
             else if Qltb hours_old 6 then float_add score 3
             else if Qltb hours_old 24 then float_add score 1
             else score)
    | None => ret score
    end ;;
  (* Hashtag relevance *)
  let score :=
    fold_left
      (fun score hashtag =>
         if bool_decide (str_lower hashtag ∈ map str_lower (DiscoveryConfig.hashtags config))
         then float_add score 2 else score)
      (Post.hashtags post) score in
  (* Keyword relevance *)
  let score :=
    fold_left
      (fun score keyword =>
         if str_in (str_lower keyword) (str_lower (Post.content post))
         then float_add score 3 else score)
      (DiscoveryConfig.keywords config) score in
  ret score.

Definition _get_reason (post : Post) (config : DiscoveryConfig) : M (E := E) string :=
  let reasons := [] in
  let reasons :=
    match Post.hashtags post with
    | [] => reasons
    | _ =>
        let matching :=
          filter (fun h => str_lower h ∈ map str_lower (DiscoveryConfig.hashtags config))
                 (Post.hashtags post) in
        match matching with
        | [] => reasons
        | _ => reasons ++ ["Matching hashtags: " +:+ join ", " matching]
        end
    end in
  let reasons :=
    if 100 <? Post.likes post
    then reasons ++ ["Good engagement: " +:+ str_of_int (Post.likes post) +:+ " likes"]
    else reasons in
  reasons <-
    match Post.timestamp post with
    | Some ts =>
        now <- datetime_now ;;
        age <- of_result (datetime_sub now ts) ;;
        let hours_old := float_div (total_seconds age) 3600 in
        ret (if Qltb hours_old 6 then reasons ++ ["Recent post"] else reasons)
    | None => ret reasons
    end ;;
  ret (match reasons with [] => "Matches criteria" | _ => join "; " reasons end).

Definition _evaluate_post (post : Post) (config : DiscoveryConfig)
  : M (E := E) (option DiscoveredPost) :=
  let filters_passed := [] in
  (* Check user exclusions *)
  if bool_decide (Post.author post ∈ DiscoveryConfig.exclude_users config) then ret None
  (* Check hashtag exclusions *)
  else if existsb (fun hashtag =>
                     bool_decide (hashtag ∈ DiscoveryConfig.exclude_hashtags config))
                  (Post.hashtags post) then ret None
  (* Check likes range *)
  else if (Post.likes post <? DiscoveryConfig.min_likes config)
          || (DiscoveryConfig.max_likes config <? Post.likes post) then ret None
  else
    score <- _calculate_score post config ;;
    reason <- _get_reason post config ;;
    ret (Some (DiscoveredPost.mk post score reason filters_passed)).

(** The body of the loop over [config.platforms]: one platform's contribution
    appended to [results].  A failure of the source is caught here, and so is
    a failure of the evaluation of a post, which ends the platform's loop with
    the candidates appended so far. *)
Definition discover_platform (config : DiscoveryConfig) (platform : Platform)
    (results : list DiscoveredPost) : M (E := E) (list DiscoveredPost) :=
  match adapters platform with
  | None => ret results
  | Some adapter =>
      let query :=
        match DiscoveryConfig.keywords config with
        | [] => None
        | kws => Some (join " " kws)
        end in
      try_except
        (emit (EvSearch platform query (DiscoveryConfig.hashtags config)
                        (DiscoveryConfig.location config) (DiscoveryConfig.limit config)) ;;
         posts <- external (PlatformAdapter.search_posts adapter query
                              (DiscoveryConfig.hashtags config)
                              (DiscoveryConfig.location config)
                              (DiscoveryConfig.limit config)) ;;
         for_each_try posts
           (fun post results =>
              discovered <- _evaluate_post post config ;;
              ret (match discovered with
                   | Some d => results ++ [d]
                   | None => results
                   end))
           results)
        (fun e => ret results)
  end.

(** The candidates of all platforms, in the order the sources gave them. *)
Definition collect (config : DiscoveryConfig) : M (E := E) (list DiscoveredPost) :=
  for_each (DiscoveryConfig.platforms config) (discover_platform config) [].

Definition discover (config : DiscoveryConfig) : M (E := E) (list DiscoveredPost) :=
  results <- collect config ;;
  (* Sort by engagement score *)
  let results := sort_reverse DiscoveredPost.engagement_score results in
  ret (slice_to results (DiscoveryConfig.limit config)).

End Discovery.
End Discovery.

(** ** core/analytics.py *)

Module Analytics.

(** [INSERT INTO engagements (platform, action, post_id, post_author, comment,
    success, error) VALUES (?, ?, ?, ?, ?, ?, ?)] *)
Definition insert_engagement (platform action post_id post_author comment : string)
    (success : Z) (error : string) (d : Database) : Database :=
  let id := Database.engagements_seq d + 1 in
  Database.mk
    (Database.engagements d ++
       [EngagementRecord.mk id platform action post_id post_author comment success error])
    id
    (Database.daily_stats d).

(** [INSERT INTO daily_stats (date, {action_col}, success_count, failure_count)
    VALUES (?, 1, ?, ?)
    ON CONFLICT(date) DO UPDATE SET {action_col} = {action_col} + 1,
      success_count = success_count + ?, failure_count = failure_count + ?]

    The right-hand sides of [SET] read the row as it was before the update. *)
Definition upsert_daily_stats (action_col date : string)
    (ins_success ins_failure upd_success upd_failure : Z) (d : Database) : Database :=
  let row :=
    match Database.daily_stats d !! date with
    | None =>
        DailyStats.set "failure_count" ins_failure
          (DailyStats.set "success_count" ins_success
             (DailyStats.set action_col 1 DailyStats.default))
    | Some old =>
        DailyStats.set "failure_count" (DailyStats.get "failure_count" old + upd_failure)
          (DailyStats.set "success_count" (DailyStats.get "success_count" old + upd_success)
             (DailyStats.set action_col (DailyStats.get action_col old + 1) old))
    end in
  Database.mk (Database.engagements d) (Database.engagements_seq d)
              (<[date := row]> (Database.daily_stats d)).

(** [SELECT * FROM daily_stats ORDER BY date DESC LIMIT ?]; a negative
    [LIMIT] means no limit. *)
Definition date_desc (a b : string * DailyStats) : Prop :=
  String.leb (fst b) (fst a) = true.

#[global] Instance date_desc_dec : RelDecision date_desc.
Proof. intros a b. unfold date_desc. solve_decision. Defined.

Definition select_daily_stats (days : Z) (d : Database) : list (string * DailyStats) :=
  let rows := merge_sort date_desc (map_to_list (Database.daily_stats d)) in
  if days <? 0 then rows else take (Z.to_nat days) rows.

(** [SELECT COUNT( * ) FROM engagements WHERE post_id = ? AND action = 'comment'] *)
Definition count_comments (post_id : string) (d : Database) : Z :=
  Z.of_nat
    (length
       (filter (fun r => EngagementRecord.post_id r = post_id
                         ∧ EngagementRecord.action r = "comment")
               (Database.engagements d))).

(** [x or ""] for an [Optional[str]] *)
Definition or_empty (x : option string) : string :=
  match x with Some s => s | None => "" end.

Section Analytics.
Context {E : Type}.

Definition record (result : EngagementResult) (post_author comment : string)
  : M (E := E) unit :=
  let success := EngagementResult.success result in
  (* Insert engagement record *)
  db_execute
    (insert_engagement
       (Platform_.value (EngagementResult.platform result))
       (EngagementResult.action result)
       (EngagementResult.post_id result)
       post_author comment
       (if success then 1 else 0)
       (or_empty (EngagementResult.error result))) ;;
  (* Update daily stats *)
  now <- datetime_now ;;
  let date := strftime_ymd now in
  let action_col := EngagementResult.action result +:+ "s_posted" in
  if bool_decide (action_col ∈ ["comments_posted"; "likes_posted"; "follows_posted"])
  then
    db_execute
      (upsert_daily_stats action_col date
         (if success then 1 else 0) (if success then 0 else 1)
         (if success then 1 else 0) (if success then 0 else 1))
  else ret tt.

(** The dictionaries of [get_daily_stats] are kept as pairs of the date and
    the five counters. *)
Definition get_daily_stats (days : Z) : M (E := E) (list (string * DailyStats)) :=
  (* binding [days] to the [?] of the statement: an SQLite INTEGER has 64 bits *)
  if (days <? - 2 ^ 63) || (2 ^ 63 - 1 <? days)
  then raise (OverflowError "Python int too large to convert to SQLite INTEGER")
  else db_query (select_daily_stats days).

Definition is_engaged (post_id : string) : M (E := E) bool :=
  count <- db_query (count_comments post_id) ;;
  ret (0 <? count).

End Analytics.
End Analytics.

(** ** core/engagement.py *)

Module Engagement.

Definition nl : string := String (ascii_of_nat 10) EmptyString.
Definition dq : string := String (ascii_of_nat 34) EmptyString.

(** The pool of [_generate_template_comments]; [template.format(interest=...)]
    is the application of an entry to the interest. *)
Definition templates : list (string -> string) :=
  [ (fun interest => "This is exactly what I've been looking for! 👏");
    (fun interest => "Love this! What made you get into " +:+ interest +:+ "?");
    (fun interest => "This is inspiring! Any tips for beginners?");
    (fun interest => "Where is this? Looks amazing! 🧗");
    (fun interest => "This is goals! 🔥 How long have you been doing this?");
    (fun interest => "Just started getting into " +:+ interest
                     +:+ " - this gives me motivation!");
    (fun interest => "The community around here is so supportive 💪");
    (fun interest => "Absolutely incredible shot! What camera/filter did you use?") ].

Definition _generate_template_comments (post : Post) (config : EngagementConfig)
  : list json :=
  (* Personalize based on hashtags *)
  let interest :=
    match Post.hashtags post with
    | h :: _ => h
    | [] => "this"
    end in
  let comments :=
    fold_left (fun comments template => comments ++ [JString (template interest)])
              templates [] in
  slice_to comments 5.

Section Engagement.
Context {E : Type} `{PyLib}.

(** [self.llm] *)
Variable llm : option (LLM E).

Definition _build_comment_prompt (post : Post) (config : EngagementConfig) : string :=
  let audience := EngagementConfig.audience config in
  let audience_info :=
    nl +:+ "Target Audience:" +:+ nl
    +:+ "- Interests: " +:+ join ", " (TargetAudience.interests audience) +:+ nl
    +:+ "- Demographics: " +:+ json_dumps (TargetAudience.demographics audience) +:+ nl
    +:+ "- Pain points: " +:+ join ", " (TargetAudience.pain_points audience) +:+ nl
    +:+ "- Desires: " +:+ join ", " (TargetAudience.desires audience) +:+ nl in
  let post_info :=
    nl +:+ "Post Details:" +:+ nl
    +:+ "- Author: " +:+ Post.author post +:+ nl
    +:+ "- Content: " +:+ Post.content post +:+ nl
    +:+ "- Hashtags: "
    +:+ (match Post.hashtags post with
         | [] => "None"
         | hs => join ", " hs
         end) +:+ nl
    +:+ "- Likes: " +:+ str_of_int (Post.likes post) +:+ nl in
  "You are a social media engagement specialist. Generate 3-5 genuine, contextual comments for the following Instagram post."
  +:+ nl +:+ nl +:+ audience_info +:+ nl +:+ nl +:+ post_info +:+ nl +:+ nl
  +:+ "Requirements:" +:+ nl
  +:+ "- Tone: " +:+ EngagementConfig.tone config +:+ nl
  +:+ "- Length: 1-3 sentences max" +:+ nl
  +:+ "- Genuine and conversational" +:+ nl
  +:+ "- NO generic spam like " +:+ dq +:+ "great post!" +:+ dq +:+ ", "
  +:+ dq +:+ "🔥🔥🔥" +:+ dq +:+ ", " +:+ dq +:+ "nicee" +:+ dq +:+ nl
  +:+ "- Ask questions to start conversation" +:+ nl
  +:+ "- Show you actually read/understood the post" +:+ nl +:+ nl
  +:+ "Return ONLY a JSON array of strings, nothing else. Example:" +:+ nl
  +:+ "[" +:+ dq +:+ "Comment 1" +:+ dq +:+ ", " +:+ dq +:+ "Comment 2" +:+ dq
  +:+ ", " +:+ dq +:+ "Comment 3" +:+ dq +:+ "]" +:+ nl.

(** The fallback of [_parse_comments]: the stripped non-empty lines longer
    than 10 characters. *)
Definition long_lines (response : string) : list json :=
  let lines :=
    map strip (filter (fun l => truthy (strip l) = true) (split (ascii_of_nat 10) response)) in
  map JString (filter (fun l => (10 < len l)%nat) lines).

Definition _parse_comments (response : string) : list json :=
  let attempt : result (list json) :=
    (* Try to find JSON array *)
    match search_bracketed response with
    | Some group =>
        match json_loads group with
        | Raise e => Raise e
        | Ok (JArray comments) => Ok comments
        | Ok _ => Ok (long_lines response)
        end
    (* Fallback: split by newlines *)
    | None => Ok (long_lines response)
    end in
  match attempt with
  | Ok comments => comments
  | Raise _ => []
  end.

Definition generate_comment (post : Post) (config : EngagementConfig)
  : M (E := E) (list json) :=
  match llm with
  | None =>
      (* Fallback to template comments *)
      ret (_generate_template_comments post config)
  | Some complete =>
      let prompt := _build_comment_prompt post config in
      try_except
        (emit (EvComplete prompt) ;;
         response <- external (complete prompt (8 # 10)%Q) ;;
         let comments := _parse_comments response in
         ret comments)
        (fun e => ret (_generate_template_comments post config))
  end.

(** [await adapter.comment(post_id, comment)], with its outcome noted in the
    trace whether it returned or raised. *)
Definition call_comment (adapter : PlatformAdapter E) (post_id : string) (comment : json)
  : M (E := E) EngagementResult :=
  fun w =>
    let '(outcome, w') := external (PlatformAdapter.comment adapter post_id comment) w in
    (outcome, snd (emit (EvComment post_id comment outcome) w')).

(** The body of the loop of [engage] below the daily-limit check, for one
    post: it returns the list [results] as the iteration leaves it
    ([continue] leaves it as it was). *)
Definition engage_body (adapter : PlatformAdapter E) (config : EngagementConfig)
    (engagement_callback : option (Post -> EngagementResult -> M (E := E) unit))
    (post : Post) (results : list EngagementResult)
  : M (E := E) (list EngagementResult) :=
  (* Random delay between actions *)
  delay <- randint (EngagementConfig.min_delay_seconds config)
                   (EngagementConfig.max_delay_seconds config) ;;
  sleep delay ;;
  (* Generate comment *)
  comments <- generate_comment post config ;;
  match comments with
  | [] => ret results
  | comment :: _ =>
      (* Post comment *)
      result <- call_comment adapter (Post.post_id post) comment ;;
      let results := results ++ [result] in
      (* the message printed on success shows [comment[:50]] *)
      (if EngagementResult.success result && negb (sliceable comment)
       then raise (TypeError "object is not subscriptable")
       else ret tt) ;;
      (* Callback for tracking *)
      match engagement_callback with
      | Some callback => emit (EvCallback post result) ;; callback post result
      | None => ret tt
      end ;;
      ret results
  end.

(** The loop of [engage] from index [i] on, [results] being the list built
    so far. *)
Fixpoint engage_loop (adapter : PlatformAdapter E) (config : EngagementConfig)
    (engagement_callback : option (Post -> EngagementResult -> M (E := E) unit))
    (i : Z) (posts : list Post) (results : list EngagementResult)
  : M (E := E) (list EngagementResult) :=
  match posts with
  | [] => ret results
  | post :: posts' =>
      (* Check daily limit *)
      if EngagementConfig.max_daily config <=? i then ret results
      else
        results <- engage_body adapter config engagement_callback post results ;;
        engage_loop adapter config engagement_callback (i + 1) posts' results
  end.

Definition engage (posts : list Post) (adapter : PlatformAdapter E)
    (config : EngagementConfig)
    (engagement_callback : option (Post -> EngagementResult -> M (E := E) unit))
  : M (E := E) (list EngagementResult) :=
  engage_loop adapter config engagement_callback 0 posts [].

End Engagement.
End Engagement.

(** ** core/engine.py *)

Module SocialEngagementEngine.

(** The dictionary [discover_and_engage] returns. *)
Record Results : Type := mk_results {
  discovered : list DiscoveredPost;
  engaged : list EngagementResult;
  failed : list EngagementResult
}.

Section Engine.
Context {E : Type} `{PyLib}.

(** [self.adapters] *)
Variable adapters : Adapters E.
(** [self.engagement.llm]; [initialize] builds [Engagement()], whose [llm] is
    [None]. *)
Variable llm : option (LLM E).

Definition _on_engagement (post : Post) (result : EngagementResult) : M (E := E) unit :=
  Analytics.record result (Post.author post)
                   (Analytics.or_empty (EngagementResult.message result)).

(** Phase 2: [[d for d in discovered if not self.analytics.is_engaged(d.post.post_id)]] *)
Definition filter_engaged (discovered : list DiscoveredPost)
  : M (E := E) (list DiscoveredPost) :=
  for_each discovered
    (fun d to_engage =>
       already <- Analytics.is_engaged (Post.post_id (DiscoveredPost.post d)) ;;
       ret (if negb already then to_engage ++ [d] else to_engage))
    [].

(** Phase 3, the body of the loop over [discovery_config.platforms]. *)
Definition engage_platform (engagement_config : EngagementConfig)
    (to_engage : list DiscoveredPost) (platform : Platform) (results : Results)
  : M (E := E) Results :=
  match adapters platform with
  | None => ret results
  | Some adapter =>
      let posts_to_engage :=
        map DiscoveredPost.post
            (filter (fun d => Post.platform (DiscoveredPost.post d) = platform) to_engage) in
      emit (EvEngage platform posts_to_engage) ;;
      engagement_results <-
        Engagement.engage llm posts_to_engage adapter engagement_config
                          (Some _on_engagement) ;;
      ret (mk_results
             (discovered results)
             (engaged results
                ++ filter (fun r => EngagementResult.success r = true) engagement_results)
             (failed results
                ++ filter (fun r => EngagementResult.success r = false) engagement_results))
  end.

Definition discover_and_engage (target_audience : TargetAudience)
    (discovery_config : DiscoveryConfig) (engagement_config : EngagementConfig)
  : M (E := E) Results :=
  let results := mk_results [] [] [] in
  (* Phase 1: Discovery *)
  discovered <- Discovery.discover adapters discovery_config ;;
  let results := mk_results discovered (engaged results) (failed results) in
  (* Phase 2: Filter already engaged *)
  to_engage <-
    (if EngagementConfig.skip_already_engaged engagement_config
     then filter_engaged discovered
     else ret discovered) ;;
  (* Phase 3: Engage *)
  for_each (DiscoveryConfig.platforms discovery_config)
           (engage_platform engagement_config to_engage)
           results.

End Engine.
End SocialEngagementEngine.

(** * Vocabulary of the properties *)

(** ** Concrete collaborators, used to run the code on examples *)

Module Sample.

Definition lower_char (c : ascii) : ascii :=
  let n := nat_of_ascii c in
  if ((65 <=? n) && (n <=? 90))%nat then ascii_of_nat (n + 32) else c.

Fixpoint lower (s : string) : string :=
  match s with
  | EmptyString => EmptyString
  | String c s' => String (lower_char c) (lower s')
  end.

(** A runtime for ASCII text; its JSON decoder only knows the empty array. *)
Definition lib : PyLib := {|
  str_lower := lower;
  json_loads := fun s =>
    if String.eqb s "[]" then Ok (JArray [])
    else Raise (JSONDecodeError "Expecting value");
  json_dumps := fun _ => "{}"
|}.

Definition noon : datetime := mk_datetime 2026 11 3 12 0 0 0 None.

(** A world whose outside has no state, whose clock stands at [noon], whose
    generator always draws its lowest value, and whose database is new. *)
Definition world : World unit :=
  World.mk tt (fun _ => noon) 0 (fun _ => 0) 0 Database.empty [].

Definition post (id : string) (n_likes : Z) (tags : list string) : Post :=
  Post.mk INSTAGRAM id ("https://www.instagram.com/p/" +:+ id) "alice" "alice"
          "climbing day" None n_likes 0 None None tags.

(** The same post, published at [ts]. *)
Definition post_at (id : string) (n_likes : Z) (ts : datetime) : Post :=
  Post.mk INSTAGRAM id ("https://www.instagram.com/p/" +:+ id) "alice" "alice"
          "climbing day" None n_likes 0 (Some ts) None [].

Definition discovery_config (n_limit : Z) : DiscoveryConfig :=
  DiscoveryConfig.mk [INSTAGRAM] ["#climbing"] [] None 0 1000000 24 n_limit [] [].

Definition audience : TargetAudience :=
  TargetAudience.mk ["rock climbing"] [("location", "Unknown")] [] [].

Definition engagement_config (cap lo hi : Z) : EngagementConfig :=
  EngagementConfig.mk audience "friendly" cap lo hi true.

Definition outcome (ok : bool) (act id : string) (msg err : option string)
  : EngagementResult :=
  EngagementResult.mk ok INSTAGRAM act id msg err noon.

(** A source that answers every search with [posts], and an action capability
    that always succeeds. *)
Definition adapter (posts : list Post) : PlatformAdapter unit :=
  PlatformAdapter.mk
    (fun _ _ _ _ x => (Ok posts, x))
    (fun id text x =>
       (Ok (outcome true "comment" id
                    (Some match text with JString t => t | _ => "" end) None), x)).

Definition adapters (a : PlatformAdapter unit) : Adapters unit :=
  fun p => match p with INSTAGRAM => Some a | _ => None end.

Definition three_posts : list Post :=
  [post "p10" 10 []; post "p80" 80 ["#climbing"]; post "p200" 200 ["#climbing"]].

(** A completion capability that is out of service. *)
Definition failing_llm : LLM unit :=
  fun _ _ x => (Raise (RuntimeError "service unavailable"), x).

(** A completion capability that always answers [response]. *)
Definition fixed_llm (response : string) : LLM unit :=
  fun _ _ x => (Ok response, x).

(** The sample world over any outside state. *)
Definition world_of {E : Type} (x : E) : World E :=
  World.mk x (fun _ => noon) 0 (fun _ => 0) 0 Database.empty [].

(** An action capability that counts its calls: the first call reports a
    failure, the later ones succeed. *)
Definition flaky_adapter : PlatformAdapter nat :=
  PlatformAdapter.mk
    (fun _ _ _ _ n => (Ok [], n))
    (fun id text n =>
       (Ok (match n with
            | O => outcome false "comment" id None (Some "Comment box not found")
            | S _ => outcome true "comment" id
                             (Some match text with JString t => t | _ => "" end) None
            end), S n)).

(** An action capability that raises instead of reporting a failure. *)
Definition raising_adapter : PlatformAdapter unit :=
  PlatformAdapter.mk
    (fun _ _ _ _ x => (Ok [], x))
    (fun _ _ x => (Raise (RuntimeError "Page crashed"), x)).

(** A source that answers every search with [posts], and an action capability
    that reports a failure for every comment. *)
Definition refusing_adapter (posts : list Post) : PlatformAdapter unit :=
  PlatformAdapter.mk
    (fun _ _ _ _ x => (Ok posts, x))
    (fun id _ x => (Ok (outcome false "comment" id None (Some "Comment box not found")), x)).

(** The identifiers of the posts on which a comment was attempted. *)
Definition attempted (evs : list Event) : list string :=
  omap (fun ev => match ev with EvComment id _ _ => Some id | _ => None end) evs.

End Sample.

(** ** Notions the statements use *)

(** The operations a client of the engine can invoke. *)
Inductive ApiCall : Type :=
| CallRecord (result : EngagementResult) (post_author comment : string)
| CallIsEngaged (post_id : string)
| CallDailyStats (days : Z)
| CallDiscoverAndEngage (audience : TargetAudience) (discovery_config : DiscoveryConfig)
                        (engagement_config : EngagementConfig).

Section Vocabulary.
Context {E : Type} `{PyLib}.

(** The value the next reading of the clock returns. *)
Definition now_of (w : World E) : datetime := World.clock w (World.clock_reads w).

(** A rational that is a double: an integer of at most 53 bits times a power
    of two that is at least the smallest subnormal. *)
Definition is_float (q : Q) : Prop :=
  exists m e : Z, Z.abs m <= 2 ^ 53 /\ -1074 <= e /\ (q == inject_Z m * pow2 e)%Q.

(** The recency bonus, as [_calculate_score] adds it. *)
Definition with_recency (hours_old score : Q) : Q :=
  if Qltb hours_old 1 then float_add score 5
  else if Qltb hours_old 6 then float_add score 3
  else if Qltb hours_old 24 then float_add score 1
  else score.

(** The bonuses for hashtags and keywords, as [_calculate_score] adds them. *)
Definition with_relevance (post : Post) (config : DiscoveryConfig) (score : Q) : Q :=
  fold_left
    (fun score keyword =>
       if str_in (str_lower keyword) (str_lower (Post.content post))
       then float_add score 3 else score)
    (DiscoveryConfig.keywords config)
    (fold_left
       (fun score hashtag =>
          if bool_decide (str_lower hashtag ∈ map str_lower (DiscoveryConfig.hashtags config))
          then float_add score 2 else score)
       (Post.hashtags post) score).

(** The outcome of [_calculate_score] as a function of the post, the
    configuration and the reading [now] of the clock. *)
Definition score_at (now : datetime) (post : Post) (config : DiscoveryConfig) : result Q :=
  match int_truediv (Post.likes post) 100 with
  | Raise e => Raise e
  | Ok quotient =>
      let base := float_add 0 (Qmin quotient 10) in
      match Post.timestamp post with
      | None => Ok (with_relevance post config base)
      | Some ts =>
          match datetime_sub (naive now) ts with
          | Raise e => Raise e
          | Ok age =>
              Ok (with_relevance post config
                    (with_recency (float_div (total_seconds age) 3600) base))
          end
      end
  end.

(** A post for which [_calculate_score] computes a score: its like count
    divided by 100 is within the doubles, and its timestamp, when it has one,
    is naive like the reading of the clock. *)
Definition scorable (post : Post) : bool :=
  match int_truediv (Post.likes post) 100 with Ok _ => true | Raise _ => false end
  && match Post.timestamp post with
     | Some ts => bool_decide (utcoffset ts = None)
     | None => true
     end.

(** The candidates of [l] whose key equals [s], in the order of [l]. *)
Definition ties {A : Type} (key : A -> Q) (s : Q) (l : list A) : list A :=
  List.filter (fun a => Qeq_bool (key a) s) l.

(** Descending order of key. *)
Definition descending {A : Type} (key : A -> Q) (l : list A) : Prop :=
  StronglySorted (fun a b => (key b <= key a)%Q) l.

(** A sequence of calls [record(result, post_author, comment)]. *)
Definition record_all (calls : list (EngagementResult * string * string))
  : M (E := E) unit :=
  for_each calls (fun '(result, post_author, comment) _ =>
                    Analytics.record result post_author comment) tt.

(** The [daily_stats] row of a date; a date without a row counts as zeros. *)
Definition row_of (date : string) (d : Database) : DailyStats :=
  default DailyStats.default (Database.daily_stats d !! date).

Definition outcomes_total (r : DailyStats) : Z :=
  DailyStats.success_count r + DailyStats.failure_count r.

Definition actions_total (r : DailyStats) : Z :=
  DailyStats.comments_posted r + DailyStats.likes_posted r + DailyStats.follows_posted r.

(** The number of successful outcomes among the calls. *)
Definition successes (calls : list (EngagementResult * string * string)) : Z :=
  Z.of_nat (length (List.filter (fun c => EngagementResult.success (fst (fst c))) calls)).

(** The trace of an iteration of [engage] on [post]: its delay, then the
    events of the iteration. *)
Definition chunk_events (chunk : Post * Z * list Event) : list Event :=
  let '(_, delay, evs) := chunk in EvSleep delay :: evs.

Definition flatten (chunks : list (Post * Z * list Event)) : list Event :=
  concat (map chunk_events chunks).

(** The events an iteration on [post] can cause after its delay. *)
Definition about (config : EngagementConfig) (post : Post) (ev : Event) : Prop :=
  match ev with
  | EvComplete prompt => prompt = Engagement._build_comment_prompt post config
  | EvComment id _ _ => id = Post.post_id post
  | EvCallback p _ => p = post
  | _ => False
  end.

(** The outcomes [adapter.comment] returned, in order. *)
Definition comment_outcomes (evs : list Event) : list EngagementResult :=
  concat (map (fun ev => match ev with
                         | EvComment _ _ (Ok r) => [r]
                         | _ => []
                         end) evs).

(** A callback that leaves the trace alone. *)
Definition quiet (callback : option (Post -> EngagementResult -> M (E := E) unit)) : Prop :=
  forall cb, callback = Some cb ->
    forall post r w, World.trace (snd (cb post r w)) = World.trace w.



(** An event that does not concern the post [id]. *)
Definition avoids (id : string) (ev : Event) : Prop :=
  match ev with
  | EvEngage _ posts => Forall (fun p => Post.post_id p <> id) posts
  | EvComment id' _ _ => id' <> id
  | EvCallback p _ => Post.post_id p <> id
  | _ => True
  end.

(** The ledger holds a comment record for the post [id]. *)
Definition commented (id : string) (d : Database) : Prop :=
  0 < Analytics.count_comments id d.

(** The world after a call, and after a sequence of calls. *)
Definition run_call (adapters : Adapters E) (llm : option (LLM E)) (c : ApiCall)
    (w : World E) : World E :=
  match c with
  | CallRecord result post_author comment =>
      snd (Analytics.record result post_author comment w)
  | CallIsEngaged post_id => snd (Analytics.is_engaged post_id w)
  | CallDailyStats days => snd (Analytics.get_daily_stats days w)
  | CallDiscoverAndEngage audience discovery_config engagement_config =>
      snd (SocialEngagementEngine.discover_and_engage adapters llm audience
             discovery_config engagement_config w)
  end.

Definition run_calls (adapters : Adapters E) (llm : option (LLM E))
    (calls : list ApiCall) (w : World E) : World E :=
  fold_left (fun w c => run_call adapters llm c w) calls w.

(** A computation respects the relation [R] when every run of it takes a
    world to a world related to it, whether it returns or raises. *)
Definition respects (R : relation (World E)) {A : Type} (c : M (E := E) A) : Prop :=
  forall w, R w (snd (c w)).

(** The ledger is left as it is; the ledger only grows; the trace grows by
    events satisfying [P]. *)
Definition same_db (w w' : World E) : Prop := World.db w' = World.db w.

Definition ledger_grows (w w' : World E) : Prop :=
  Database.engagements (World.db w) `prefix_of` Database.engagements (World.db w').

Definition trace_grows (P : Event -> Prop) (w w' : World E) : Prop :=
  exists evs, World.trace w' = World.trace w ++ evs /\ Forall P evs.


(** ** Notions used by the further properties *)

(** The filter chain of [_evaluate_post], as a test on the post. *)
Definition admissible (config : DiscoveryConfig) (post : Post) : Prop :=
  (Post.author post ∉ DiscoveryConfig.exclude_users config)
  /\ Forall (fun h => h ∉ DiscoveryConfig.exclude_hashtags config) (Post.hashtags post)
  /\ DiscoveryConfig.min_likes config <= Post.likes post
     <= DiscoveryConfig.max_likes config.

#[global] Instance admissible_dec config post : Decision (admissible config post).
Proof. unfold admissible. apply _. Defined.

(** What the sources of the configured platforms answer, asked in turn from
    the outside state [x]: the list each of them returns, a source that raises
    counting for an empty list and a platform without adapter for nothing, and
    the outside state left. *)
Fixpoint search_all (adapters : Adapters E) (config : DiscoveryConfig)
    (platforms : list Platform) (x : E) : list (list Post) * E :=
  match platforms with
  | [] => ([], x)
  | platform :: platforms' =>
      match adapters platform with
      | None => search_all adapters config platforms' x
      | Some adapter =>
          let '(answer, x') :=
            PlatformAdapter.search_posts adapter
              (match DiscoveryConfig.keywords config with
               | [] => None
               | kws => Some (join " " kws)
               end)
              (DiscoveryConfig.hashtags config) (DiscoveryConfig.location config)
              (DiscoveryConfig.limit config) x in
          let '(rest, x'') := search_all adapters config platforms' x' in
          (match answer with Ok posts => posts | Raise _ => [] end :: rest, x'')
      end
  end.

(** The posts of one answer that become candidates: those that pass the
    filters, up to the first of them whose evaluation raises, where the
    handler of [discover] ends the platform's loop. *)
Fixpoint survivors (config : DiscoveryConfig) (posts : list Post) : list Post :=
  match posts with
  | [] => []
  | post :: posts' =>
      if decide (admissible config post)
      then if scorable post then post :: survivors config posts' else []
      else survivors config posts'
  end.

(** The first entry of the pool of templates, which is the comment posted
    when no completion capability is configured. *)
Definition first_template : json :=
  JString "This is exactly what I've been looking for! 👏".

(** The pairs [(post, outcome)] handed to the callback, in order. *)
Definition callback_reports (evs : list Event) : list (Post * EngagementResult) :=
  omap (fun ev => match ev with EvCallback post r => Some (post, r) | _ => None end) evs.

(** The comments attempted, in order: the post identifier and the text. *)
Definition comment_attempts (evs : list Event) : list (string * json) :=
  omap (fun ev => match ev with EvComment id text _ => Some (id, text) | _ => None end) evs.

(** An event that is not a comment, or is the comment [first_template]. *)
Definition posts_first_template (ev : Event) : Prop :=
  match ev with
  | EvComment _ text _ => text = first_template
  | _ => True
  end.

(** The columns of a ledger record that [record] takes from the outcome:
    platform, action, post, comment, success and error. *)
Definition row_entry (rec : EngagementRecord)
  : string * string * string * string * Z * string :=
  (EngagementRecord.platform rec, EngagementRecord.action rec,
   EngagementRecord.post_id rec, EngagementRecord.comment rec,
   EngagementRecord.success rec, EngagementRecord.error rec).

(** The same columns, as the engine's callback derives them from an outcome. *)
Definition outcome_entry (r : EngagementResult)
  : string * string * string * string * Z * string :=
  (Platform_.value (EngagementResult.platform r), EngagementResult.action r,
   EngagementResult.post_id r, Analytics.or_empty (EngagementResult.message r),
   (if EngagementResult.success r then 1 else 0),
   Analytics.or_empty (EngagementResult.error r)).

(** The configuration restricted to the platforms that have an adapter. *)
Definition on_registered (adapters : Adapters E) (c : DiscoveryConfig) : DiscoveryConfig :=
  DiscoveryConfig.mk
    (List.filter (fun platform => bool_decide (is_Some (adapters platform)))
                 (DiscoveryConfig.platforms c))
    (DiscoveryConfig.hashtags c) (DiscoveryConfig.keywords c)
    (DiscoveryConfig.location c) (DiscoveryConfig.min_likes c)
    (DiscoveryConfig.max_likes c) (DiscoveryConfig.posts_age_hours c)
    (DiscoveryConfig.limit c) (DiscoveryConfig.exclude_users c)
    (DiscoveryConfig.exclude_hashtags c).

(** Two worlds that differ at most in their database. *)
Definition same_but_db (w1 w2 : World E) : Prop :=
  World.ext w1 = World.ext w2
  /\ World.clock w1 = World.clock w2
  /\ World.clock_reads w1 = World.clock_reads w2
  /\ World.entropy w1 = World.entropy w2
  /\ World.entropy_reads w1 = World.entropy_reads w2
  /\ World.trace w1 = World.trace w2.

(** A computation that does not read the database: from worlds that differ
    at most in their database it has the same outcome, and leaves worlds that
    differ at most in their database. *)
Definition ledger_blind {A : Type} (c : M (E := E) A) : Prop :=
  forall w1 w2,
    same_but_db w1 w2 ->
    fst (c w1) = fst (c w2) /\ same_but_db (snd (c w1)) (snd (c w2)).

(** An event of the engagement phase that stays within the candidates
    [to_engage]: no search, an executor call on exactly the candidates of its
    platform, a comment or a callback on a candidate. *)
Definition handed_over (to_engage : list DiscoveredPost) (ev : Event) : Prop :=
  match ev with
  | EvSearch _ _ _ _ _ => False
  | EvEngage platform posts =>
      posts = map DiscoveredPost.post
                  (filter (fun d => Post.platform (DiscoveredPost.post d) = platform)
                          to_engage)
  | EvComment id _ _ =>
      id ∈ map (fun d => Post.post_id (DiscoveredPost.post d)) to_engage
  | EvCallback post _ => post ∈ map DiscoveredPost.post to_engage
  | _ => True
  end.

(** The candidates that pass phase 2 of [discover_and_engage] on the
    database [d]. *)
Definition unrecorded (skip : bool) (d : Database) (discovered : list DiscoveredPost)
  : list DiscoveredPost :=
  if skip
  then List.filter
         (fun c => negb (0 <? Analytics.count_comments
                                (Post.post_id (DiscoveredPost.post c)) d))
         discovered
  else discovered.

End Vocabulary.

(** * Properties *)

(** ** Facts about the runtime layer: rounding to a double *)

Section Pow2.

Lemma pow2_pos (e : Z) : (0 < pow2 e)%Q.
Proof. apply Qpower_0_lt. reflexivity. Qed.

Lemma pow2_add (a b : Z) : (pow2 (a + b) == pow2 a * pow2 b)%Q.
Proof. apply Qpower_plus. discriminate. Qed.

Lemma pow2_le (a b : Z) : a <= b -> (pow2 a <= pow2 b)%Q.
Proof. intros Hab. apply Qpower_le_compat_l; [exact Hab | discriminate]. Qed.

Lemma pow2_lt (a b : Z) : a < b -> (pow2 a < pow2 b)%Q.
Proof. intros Hab. apply Qpower_lt_compat_l; [exact Hab | reflexivity]. Qed.

Lemma pow2_Z (e : Z) : 0 <= e -> (pow2 e == inject_Z (2 ^ e))%Q.
Proof. intros He. unfold pow2. rewrite Zpower_Qpower by exact He. reflexivity. Qed.

Lemma pow2_le_inv (a b : Z) : (pow2 a <= pow2 b)%Q -> a <= b.
Proof. intros Hab. apply (Qpower_le_compat_l_inv 2); [exact Hab | reflexivity]. Qed.

Lemma pow2_lt_inv (a b : Z) : (pow2 a < pow2 b)%Q -> a < b.
Proof. intros Hab. apply (Qpower_lt_compat_l_inv 2); [exact Hab | reflexivity]. Qed.

Lemma pow2_div (q : Q) (e : Z) : (q / pow2 e * pow2 e == q)%Q.
Proof. pose proof (pow2_pos e). field. lra. Qed.

End Pow2.

Section Ilog2.

Lemma ilog2_spec (q : Q) :
  (0 < q)%Q -> (pow2 (ilog2 q) <= q)%Q /\ (q < pow2 (ilog2 q + 1))%Q.
Proof.
  intros Hq. destruct q as [n d]. unfold ilog2. cbn [Qnum Qden].
  assert (0 < n) as Hn by (unfold Qlt in Hq; cbn in Hq; lia).
  set (ln := Z.log2 n). set (ld := Z.log2 (Z.pos d)).
  destruct (Z.log2_spec n Hn) as [Hn1 Hn2]. fold ln in Hn1, Hn2.
  destruct (Z.log2_spec (Z.pos d) (Pos2Z.is_pos d)) as [Hd1 Hd2]. fold ld in Hd1, Hd2.
  unfold Z.succ in Hn2, Hd2.
  assert (0 <= ln) as Hln by apply Z.log2_nonneg.
  assert (0 <= ld) as Hld by apply Z.log2_nonneg.
  assert ((n # d) * inject_Z (Z.pos d) == inject_Z n)%Q as Hnd.
  { unfold Qeq, Qmult, inject_Z. cbn. lia. }
  assert (0 < inject_Z (Z.pos d))%Q as HD by (unfold Qlt; cbn; lia).
  rewrite Zle_Qle, <- pow2_Z in Hn1 by exact Hln.
  rewrite Zlt_Qlt, <- pow2_Z in Hn2 by lia.
  rewrite Zle_Qle, <- pow2_Z in Hd1 by exact Hld.
  rewrite Zlt_Qlt, <- pow2_Z in Hd2 by lia.
  assert (pow2 (ln - ld - 1) < n # d)%Q as Hlow.
  { assert (pow2 ln == pow2 (ln - ld - 1) * pow2 (ld + 1))%Q as Heq.
    { rewrite <- pow2_add. f_equiv. lia. }
    pose proof (pow2_pos (ln - ld - 1)) as HP.
    apply Qnot_le_lt. intros Hge.
    assert (pow2 (ln - ld - 1) * inject_Z (Z.pos d)
            < pow2 (ln - ld - 1) * pow2 (ld + 1))%Q as H1
      by (apply Qmult_lt_l; assumption).
    assert ((n # d) * inject_Z (Z.pos d)
            <= pow2 (ln - ld - 1) * inject_Z (Z.pos d))%Q as H2
      by (apply Qmult_le_r; assumption).
    lra. }
  assert (n # d < pow2 (ln - ld + 1))%Q as Hhigh.
  { assert (pow2 (ln + 1) == pow2 (ln - ld + 1) * pow2 ld)%Q as Heq.
    { rewrite <- pow2_add. f_equiv. lia. }
    pose proof (pow2_pos (ln - ld + 1)) as HP.
    apply Qnot_le_lt. intros Hge.
    assert (pow2 (ln - ld + 1) * pow2 ld
            <= pow2 (ln - ld + 1) * inject_Z (Z.pos d))%Q as H1
      by (apply Qmult_le_l; assumption).
    assert (pow2 (ln - ld + 1) * inject_Z (Z.pos d)
            <= (n # d) * inject_Z (Z.pos d))%Q as H2
      by (apply Qmult_le_r; assumption).
    lra. }
  destruct (Qle_bool (pow2 (ln - ld)) (n # d)) eqn:Hle.
  - apply Qle_bool_iff in Hle. split; [exact Hle | exact Hhigh].
  - split; [apply Qlt_le_weak, Hlow|].
    replace (ln - ld - 1 + 1) with (ln - ld) by lia.
    apply Qnot_le_lt. intros Hge. apply Qle_bool_iff in Hge. congruence.
Qed.

Lemma ilog2_unique (q : Q) (k : Z) :
  (pow2 k <= q)%Q -> (q < pow2 (k + 1))%Q -> ilog2 q = k.
Proof.
  intros Hlow Hhigh.
  assert (0 < q)%Q as Hq by (pose proof (pow2_pos k); lra).
  destruct (ilog2_spec q Hq) as [Hlow' Hhigh'].
  assert (k < ilog2 q + 1) by (apply pow2_lt_inv; lra).
  assert (ilog2 q < k + 1) by (apply pow2_lt_inv; lra).
  lia.
Qed.

Lemma ilog2_comp (x y : Q) : (0 < x)%Q -> (x == y)%Q -> ilog2 x = ilog2 y.
Proof.
  intros Hx Hxy. destruct (ilog2_spec x Hx) as [Hlow Hhigh].
  symmetry. apply ilog2_unique; lra.
Qed.

Lemma ilog2_mono (x y : Q) : (0 < x)%Q -> (x <= y)%Q -> ilog2 x <= ilog2 y.
Proof.
  intros Hx Hxy. destruct (ilog2_spec x Hx) as [Hlow _].
  destruct (ilog2_spec y) as [_ Hhigh]; [lra|].
  assert (ilog2 x < ilog2 y + 1) by (apply pow2_lt_inv; lra). lia.
Qed.

End Ilog2.

Section Rne.

Lemma rne_bounds (x : Q) :
  (inject_Z (rne x) - (1 # 2) <= x)%Q /\ (x <= inject_Z (rne x) + (1 # 2))%Q.
Proof.
  unfold rne. pose proof (Qfloor_le x) as Hlow. pose proof (Qlt_floor x) as Hhigh.
  rewrite inject_Z_plus in Hhigh. change (inject_Z 1) with 1%Q in Hhigh.
  destruct (Qcompare_spec (x - inject_Z (Qfloor x)) (1 # 2)) as [Heq|Hlt|Hgt].
  - destruct (Z.even (Qfloor x)).
    + lra.
    + rewrite inject_Z_plus. change (inject_Z 1) with 1%Q. lra.
  - lra.
  - rewrite inject_Z_plus. change (inject_Z 1) with 1%Q. lra.
Qed.

Lemma rne_comp (x y : Q) : (x == y)%Q -> rne x = rne y.
Proof.
  intros Hxy. unfold rne. rewrite (Qfloor_comp _ _ Hxy).
  assert (Qcompare (x - inject_Z (Qfloor y)) (1 # 2)
          = Qcompare (y - inject_Z (Qfloor y)) (1 # 2)) as ->.
  { apply Qcompare_comp; [rewrite Hxy; reflexivity | reflexivity]. }
  reflexivity.
Qed.

Lemma rne_Z (n : Z) : rne (inject_Z n) = n.
Proof.
  unfold rne. rewrite Qfloor_Z.
  assert (Qcompare (inject_Z n - inject_Z n) (1 # 2) = Lt) as ->.
  { assert (inject_Z n - inject_Z n == 0)%Q as -> by ring. reflexivity. }
  reflexivity.
Qed.

Lemma rne_mono (x y : Q) : (x <= y)%Q -> rne x <= rne y.
Proof.
  intros Hxy. destruct (Z_le_gt_dec (rne x) (rne y)) as [Hle|Hgt]; [exact Hle|].
  exfalso. destruct (rne_bounds x) as [Hx _]. destruct (rne_bounds y) as [_ Hy].
  assert (rne y + 1 <= rne x) as Hstep by lia.
  rewrite Zle_Qle, inject_Z_plus in Hstep. change (inject_Z 1) with 1%Q in Hstep.
  assert (x == y)%Q as Heq by lra.
  apply rne_comp in Heq. lia.
Qed.

Lemma rne_le_Z (x : Q) (n : Z) : (x <= inject_Z n)%Q -> rne x <= n.
Proof. intros Hx. rewrite <- (rne_Z n). apply rne_mono, Hx. Qed.

Lemma rne_ge_Z (x : Q) (n : Z) : (inject_Z n <= x)%Q -> n <= rne x.
Proof. intros Hx. rewrite <- (rne_Z n). apply rne_mono, Hx. Qed.

End Rne.

Section RoundPos.

Lemma div_pow2_le (x y : Q) (e : Z) : (x <= y)%Q -> (x / pow2 e <= y / pow2 e)%Q.
Proof.
  intros Hxy. pose proof (pow2_pos e) as He. unfold Qdiv.
  apply Qmult_le_r; [apply Qinv_lt_0_compat, He | exact Hxy].
Qed.

Lemma div_pow2_lt (x y : Q) (e : Z) : (x < y)%Q -> (x / pow2 e < y / pow2 e)%Q.
Proof.
  intros Hxy. pose proof (pow2_pos e) as He. unfold Qdiv.
  apply Qmult_lt_r; [apply Qinv_lt_0_compat, He | exact Hxy].
Qed.

Lemma div_pow2_nonneg (q : Q) (e : Z) : (0 <= q)%Q -> (inject_Z 0 <= q / pow2 e)%Q.
Proof.
  intros Hq. pose proof (pow2_pos e) as He. change (inject_Z 0) with 0%Q.
  apply Qmult_le_0_compat; [exact Hq|]. apply Qlt_le_weak, Qinv_lt_0_compat, He.
Qed.

Lemma pow2_quot (a e : Z) : (pow2 a / pow2 e == pow2 (a - e))%Q.
Proof. symmetry. apply Qpower_minus. discriminate. Qed.

Lemma fexp_ge (q : Q) : -1074 <= fexp q.
Proof. unfold fexp. lia. Qed.

Lemma fexp_ilog2 (q : Q) : ilog2 q - 52 <= fexp q.
Proof. unfold fexp. lia. Qed.

Lemma zero_div_pow2 (q : Q) (e : Z) : (q == 0)%Q -> (q / pow2 e == inject_Z 0)%Q.
Proof. intros ->. unfold Qdiv. change (inject_Z 0) with 0%Q. ring. Qed.

Lemma round_pos_zero (q : Q) : (q == 0)%Q -> (round_pos q == 0)%Q.
Proof.
  intros Hq. unfold round_pos.
  rewrite (rne_comp _ _ (zero_div_pow2 q (fexp q) Hq)), rne_Z.
  change (inject_Z 0) with 0%Q. ring.
Qed.

Lemma round_pos_nonneg (q : Q) : (0 <= q)%Q -> (0 <= round_pos q)%Q.
Proof.
  intros Hq. unfold round_pos. pose proof (pow2_pos (fexp q)) as He.
  apply Qmult_le_0_compat; [|lra].
  change 0%Q with (inject_Z 0). rewrite <- Zle_Qle. apply rne_ge_Z.
  apply div_pow2_nonneg, Hq.
Qed.

Lemma round_pos_upper (q : Q) :
  (0 < q)%Q -> (round_pos q <= pow2 (Z.max (ilog2 q + 1) (fexp q)))%Q.
Proof.
  intros Hq. destruct (ilog2_spec q Hq) as [_ Hhigh].
  apply (div_pow2_lt _ _ (fexp q)) in Hhigh. rewrite pow2_quot in Hhigh.
  unfold round_pos. pose proof (pow2_pos (fexp q)) as He.
  destruct (Z_le_gt_dec 0 (ilog2 q + 1 - fexp q)) as [Hpos|Hneg].
  - rewrite (pow2_Z (ilog2 q + 1 - fexp q)) in Hhigh by exact Hpos.
    apply Qlt_le_weak, rne_le_Z in Hhigh. rewrite Zle_Qle, <- pow2_Z in Hhigh by exact Hpos.
    apply Qle_trans with (pow2 (ilog2 q + 1 - fexp q) * pow2 (fexp q))%Q.
    + apply Qmult_le_r; assumption.
    + rewrite <- pow2_add. apply pow2_le. lia.
  - assert (q / pow2 (fexp q) <= inject_Z 1)%Q as Hone.
    { apply Qlt_le_weak. eapply Qlt_le_trans; [exact Hhigh|].
      change (inject_Z 1) with (pow2 0). apply pow2_le. lia. }
    apply rne_le_Z in Hone. rewrite Zle_Qle in Hone. change (inject_Z 1) with 1%Q in Hone.
    apply Qle_trans with (1 * pow2 (fexp q))%Q.
    + apply Qmult_le_r; assumption.
    + rewrite Qmult_1_l. apply pow2_le. lia.
Qed.

Lemma round_pos_lower (q : Q) :
  (0 < q)%Q -> fexp q <= ilog2 q -> (pow2 (ilog2 q) <= round_pos q)%Q.
Proof.
  intros Hq Hexp. destruct (ilog2_spec q Hq) as [Hlow _].
  apply (div_pow2_le _ _ (fexp q)) in Hlow. rewrite pow2_quot in Hlow.
  rewrite (pow2_Z (ilog2 q - fexp q)) in Hlow by lia. apply rne_ge_Z in Hlow.
  rewrite Zle_Qle, <- pow2_Z in Hlow by lia.
  unfold round_pos. pose proof (pow2_pos (fexp q)) as He.
  apply Qle_trans with (pow2 (ilog2 q - fexp q) * pow2 (fexp q))%Q.
  - rewrite <- pow2_add. apply pow2_le. lia.
  - apply Qmult_le_r; assumption.
Qed.

Lemma round_pos_mono (x y : Q) :
  (0 <= x)%Q -> (x <= y)%Q -> (round_pos x <= round_pos y)%Q.
Proof.
  intros Hx Hxy. destruct (Qlt_le_dec 0 x) as [Hpos|Hzero].
  2:{ rewrite (round_pos_zero x) by lra. apply round_pos_nonneg. lra. }
  assert (0 < y)%Q as Hy by lra.
  pose proof (ilog2_mono x y Hpos Hxy) as Hk.
  destruct (Z.eq_dec (fexp x) (fexp y)) as [Heq|Hne].
  - unfold round_pos. rewrite Heq. pose proof (pow2_pos (fexp y)) as He.
    apply Qmult_le_r; [exact He|]. rewrite <- Zle_Qle.
    apply rne_mono, div_pow2_le, Hxy.
  - assert (fexp x < fexp y) as Hlt by (unfold fexp in *; lia).
    assert (fexp y = ilog2 y - 52) as Hey by (unfold fexp in *; lia).
    apply Qle_trans with (pow2 (ilog2 y)).
    + eapply Qle_trans; [apply round_pos_upper, Hpos|].
      apply pow2_le. pose proof (fexp_ilog2 x). lia.
    + apply round_pos_lower; [exact Hy | lia].
Qed.

Lemma round_pos_comp (x y : Q) :
  (0 <= x)%Q -> (x == y)%Q -> (round_pos x == round_pos y)%Q.
Proof.
  intros Hx Hxy. apply Qle_antisym; apply round_pos_mono; lra.
Qed.

Lemma round_pos_integral (q : Q) (z : Z) :
  (q / pow2 (fexp q) == inject_Z z)%Q -> (round_pos q == q)%Q.
Proof.
  intros Hz. unfold round_pos. rewrite (rne_comp _ _ Hz), rne_Z, <- Hz.
  apply pow2_div.
Qed.

Lemma round_pos_fix (q : Q) (m e : Z) :
  0 < m <= 2 ^ 53 -> -1074 <= e -> (q == inject_Z m * pow2 e)%Q ->
  (round_pos q == q)%Q.
Proof.
  intros [Hm0 Hm] He Hq. pose proof (pow2_pos e) as Hpe.
  assert (0 < inject_Z m)%Q as Hm0' by (change 0%Q with (inject_Z 0); rewrite <- Zlt_Qlt; exact Hm0).
  assert (0 < q)%Q as Hpos.
  { rewrite Hq. apply Qmult_lt_0_compat; assumption. }
  destruct (ilog2_spec q Hpos) as [Hlow Hhigh].
  destruct (Z_le_gt_dec (fexp q) e) as [Hle|Hgt].
  - apply (round_pos_integral q (m * 2 ^ (e - fexp q))).
    generalize dependent (fexp q). intros e' Hle.
    rewrite Hq, inject_Z_mult, <- pow2_Z by lia.
    unfold Qdiv. rewrite <- Qmult_assoc. apply Qmult_comp; [reflexivity|].
    apply pow2_quot.
  - assert (fexp q = ilog2 q - 52) as Hexp by (unfold fexp in *; lia).
    assert (inject_Z m <= pow2 53)%Q as Hm'.
    { rewrite pow2_Z by lia. rewrite <- Zle_Qle. exact Hm. }
    assert (q <= pow2 (53 + e))%Q as Hup.
    { rewrite Hq, pow2_add. apply Qmult_le_r; assumption. }
    assert (ilog2 q < 53 + e + 1) as Hk1.
    { apply pow2_lt_inv. pose proof (pow2_lt (53 + e) (53 + e + 1) ltac:(lia)). lra. }
    assert (ilog2 q = e + 53) as Hk by lia.
    assert (q == pow2 (e + 53))%Q as Hq'.
    { apply Qle_antisym; [|rewrite <- Hk; exact Hlow].
      replace (e + 53) with (53 + e) by lia. exact Hup. }
    apply (round_pos_integral q (2 ^ 52)).
    rewrite <- pow2_Z by lia. rewrite Hexp, Hk. rewrite Hq'. rewrite pow2_quot.
    apply Qpower_comp; [reflexivity | lia].
Qed.

Lemma round_pos_mantissa (q : Q) :
  (0 <= q)%Q -> 0 <= rne (q / pow2 (fexp q)) <= 2 ^ 53.
Proof.
  intros Hq. split.
  - apply rne_ge_Z, div_pow2_nonneg, Hq.
  - destruct (Qlt_le_dec 0 q) as [Hpos|Hzero].
    + destruct (ilog2_spec q Hpos) as [_ Hhigh].
      apply (div_pow2_lt _ _ (fexp q)) in Hhigh. rewrite pow2_quot in Hhigh.
      apply rne_le_Z. rewrite <- pow2_Z by lia.
      apply Qlt_le_weak. eapply Qlt_le_trans; [exact Hhigh|].
      apply pow2_le. pose proof (fexp_ilog2 q). lia.
    + assert (q == 0)%Q as Hq0 by lra.
      rewrite (rne_comp _ _ (zero_div_pow2 q (fexp q) Hq0)), rne_Z. lia.
Qed.

End RoundPos.

Section Round64.

Lemma round64_eq (q : Q) :
  (round64 q == if Qle_bool 0 q then round_pos q else - round_pos (- q))%Q.
Proof. unfold round64. apply Qred_correct. Qed.

Lemma round64_pos (q : Q) : (0 <= q)%Q -> (round64 q == round_pos q)%Q.
Proof.
  intros Hq. rewrite round64_eq. apply Qle_bool_iff in Hq. rewrite Hq. reflexivity.
Qed.

Lemma round64_neg (q : Q) : (q < 0)%Q -> (round64 q == - round_pos (- q))%Q.
Proof.
  intros Hq. rewrite round64_eq.
  destruct (Qle_bool 0 q) eqn:Hle; [|reflexivity].
  apply Qle_bool_iff in Hle. lra.
Qed.

Lemma round64_mono (x y : Q) : (x <= y)%Q -> (round64 x <= round64 y)%Q.
Proof.
  intros Hxy. destruct (Qlt_le_dec x 0) as [Hx|Hx], (Qlt_le_dec y 0) as [Hy|Hy].
  - rewrite (round64_neg x Hx), (round64_neg y Hy).
    apply Qopp_le_compat. apply round_pos_mono; lra.
  - rewrite (round64_neg x Hx), (round64_pos y Hy).
    pose proof (round_pos_nonneg (- x)). pose proof (round_pos_nonneg y). lra.
  - lra.
  - rewrite (round64_pos x Hx), (round64_pos y Hy). apply round_pos_mono; assumption.
Qed.

Lemma round64_comp (x y : Q) : (x == y)%Q -> round64 x = round64 y.
Proof.
  intros Hxy. unfold round64. apply Qred_complete. rewrite <- !round64_eq.
  apply Qle_antisym; apply round64_mono; lra.
Qed.

Lemma round64_fix (q : Q) : is_float q -> (round64 q == q)%Q.
Proof.
  intros (m & e & Hm & He & Hq).
  destruct (Z.lt_trichotomy m 0) as [Hneg | [Hzero | Hpos]].
  - assert (q < 0)%Q as Hq0.
    { rewrite Hq. pose proof (pow2_pos e).
      assert (inject_Z m < 0)%Q by (change 0%Q with (inject_Z 0); rewrite <- Zlt_Qlt; exact Hneg).
      assert (0 < - inject_Z m * pow2 e)%Q as Hprod by (apply Qmult_lt_0_compat; lra).
      assert (- inject_Z m * pow2 e == - (inject_Z m * pow2 e))%Q as Hopp by ring.
      rewrite Hopp in Hprod. lra. }
    rewrite (round64_neg q Hq0).
    rewrite (round_pos_fix (- q) (- m) e); [ring | lia | exact He |].
    rewrite Hq, inject_Z_opp. ring.
  - subst m. assert (q == 0)%Q as Hq0 by (rewrite Hq; change (inject_Z 0) with 0%Q; ring).
    rewrite round64_pos by lra. rewrite round_pos_zero; lra.
  - assert (0 < q)%Q as Hq0.
    { rewrite Hq. pose proof (pow2_pos e).
      apply Qmult_lt_0_compat; [|assumption].
      change 0%Q with (inject_Z 0). rewrite <- Zlt_Qlt. exact Hpos. }
    rewrite round64_pos by lra. apply (round_pos_fix q m e); [lia | exact He | exact Hq].
Qed.

Lemma round64_is_float (q : Q) : is_float (round64 q).
Proof.
  destruct (Qlt_le_dec q 0) as [Hq|Hq].
  - exists (- rne (- q / pow2 (fexp (- q)))), (fexp (- q)).
    pose proof (round_pos_mantissa (- q) ltac:(lra)) as Hm.
    split; [|split]; [lia | apply fexp_ge |].
    rewrite (round64_neg q Hq). unfold round_pos. rewrite inject_Z_opp. ring.
  - exists (rne (q / pow2 (fexp q))), (fexp q).
    pose proof (round_pos_mantissa q Hq) as Hm.
    split; [|split]; [lia | apply fexp_ge |].
    rewrite (round64_pos q Hq). reflexivity.
Qed.

Lemma round64_canonical (x y : Q) : (round64 x == round64 y)%Q -> round64 x = round64 y.
Proof.
  unfold round64. intros Hxy. apply Qred_complete.
  rewrite !Qred_correct in Hxy. exact Hxy.
Qed.

Lemma round64_idem (q : Q) : (round64 (round64 q) == round64 q)%Q.
Proof. apply round64_fix, round64_is_float. Qed.

Lemma is_float_Z (n : Z) : Z.abs n <= 2 ^ 53 -> is_float (inject_Z n).
Proof.
  intros Hn. exists n, 0. split; [exact Hn|]. split; [lia|].
  change (pow2 0) with 1%Q. ring.
Qed.

Lemma round64_Z (n : Z) : Z.abs n <= 2 ^ 53 -> (round64 (inject_Z n) == inject_Z n)%Q.
Proof. intros Hn. apply round64_fix, is_float_Z, Hn. Qed.

Lemma round64_nonneg (q : Q) : (0 <= q)%Q -> (0 <= round64 q)%Q.
Proof.
  intros Hq. rewrite (round64_pos q Hq). apply round_pos_nonneg, Hq.
Qed.

End Round64.

Section FloatOps.

Lemma float_add_mono (s1 s2 c : Q) :
  (s1 <= s2)%Q -> (float_add s1 c <= float_add s2 c)%Q.
Proof. intros Hs. apply round64_mono. lra. Qed.

Lemma float_add_nonneg (s c : Q) : (0 <= s)%Q -> (0 <= c)%Q -> (0 <= float_add s c)%Q.
Proof. intros Hs Hc. apply round64_nonneg. lra. Qed.

Lemma float_add_ge (s c : Q) : is_float s -> (0 <= c)%Q -> (s <= float_add s c)%Q.
Proof.
  intros Hs Hc. rewrite <- (round64_fix s Hs) at 1. apply round64_mono. lra.
Qed.

Lemma float_add_le (s c : Q) (bound : Z) :
  (s + c <= inject_Z bound)%Q -> Z.abs bound <= 2 ^ 53 ->
  (float_add s c <= inject_Z bound)%Q.
Proof.
  intros Hs Hb. rewrite <- (round64_Z bound Hb). apply round64_mono, Hs.
Qed.

Lemma float_add_is_float (s c : Q) : is_float (float_add s c).
Proof. apply round64_is_float. Qed.

Lemma int_truediv_ok (a b : Z) (q : Q) :
  int_truediv a b = Ok q -> q = round64 (inject_Z a / inject_Z b).
Proof.
  unfold int_truediv. destruct (b =? 0); [discriminate|].
  destruct (Qle_bool _ _); [discriminate|]. intros [= <-]. reflexivity.
Qed.

Lemma int_truediv_mono (a1 a2 : Z) (q1 q2 : Q) :
  a1 <= a2 -> int_truediv a1 100 = Ok q1 -> int_truediv a2 100 = Ok q2 -> (q1 <= q2)%Q.
Proof.
  intros Ha H1 H2. apply int_truediv_ok in H1, H2. subst q1 q2.
  apply round64_mono. rewrite Zle_Qle in Ha.
  apply Qmult_le_compat_r; [exact Ha | discriminate].
Qed.

Lemma int_truediv_nonneg (a : Z) (q : Q) :
  0 <= a -> int_truediv a 100 = Ok q -> (0 <= q)%Q.
Proof.
  intros Ha Hq. apply int_truediv_ok in Hq. subst q. apply round64_nonneg.
  rewrite Zle_Qle in Ha. apply Qmult_le_0_compat; [exact Ha | discriminate].
Qed.

Lemma is_float_pow2 (e : Z) : -1074 <= e -> is_float (pow2 e).
Proof.
  intros He. exists 1, e. split; [lia|]. split; [exact He|].
  change (inject_Z 1) with 1%Q. ring.
Qed.

Lemma is_float_opp (q : Q) : is_float q -> is_float (- q).
Proof.
  intros (m & e & Hm & He & Hq). exists (- m), e.
  split; [lia|]. split; [exact He|]. rewrite Hq, inject_Z_opp. ring.
Qed.

(** Like counts of up to 1029 bits are within the range of the division. *)
Lemma int_truediv_range (a : Z) :
  Z.abs a <= 2 ^ 1029 -> int_truediv a 100 = Ok (round64 (inject_Z a / 100)).
Proof.
  intros Ha. unfold int_truediv. change (100 =? 0) with false. cbv iota.
  change (inject_Z 100) with 100%Q.
  destruct (Qle_bool (pow2 1024) (Qabs (round64 (inject_Z a / 100)))) eqn:Hover;
    [|reflexivity].
  exfalso. apply Qle_bool_iff in Hover.
  assert (- pow2 1029 <= inject_Z a <= pow2 1029)%Q as [Hlow Hhigh].
  { rewrite pow2_Z by lia. rewrite <- inject_Z_opp, <- !Zle_Qle. lia. }
  assert (pow2 1029 == 64 * pow2 1023)%Q as H64.
  { change 64%Q with (pow2 6). rewrite <- pow2_add. reflexivity. }
  pose proof (pow2_pos 1023) as Hpos.
  pose proof (pow2_lt 1023 1024 ltac:(lia)) as Hlt.
  assert (inject_Z a / 100 == inject_Z a * (1 # 100))%Q as Hdiv by reflexivity.
  assert (round64 (inject_Z a / 100) <= pow2 1023)%Q as Hup.
  { rewrite <- (round64_fix (pow2 1023)) by (apply is_float_pow2; lia).
    apply round64_mono. rewrite Hdiv.
    generalize dependent (pow2 1023). generalize dependent (pow2 1029).
    intros. lra. }
  assert (- pow2 1023 <= round64 (inject_Z a / 100))%Q as Hdown.
  { rewrite <- (round64_fix (- pow2 1023)) by (apply is_float_opp, is_float_pow2; lia).
    apply round64_mono. rewrite Hdiv.
    generalize dependent (pow2 1023). generalize dependent (pow2 1029).
    intros. lra. }
  assert (Qabs (round64 (inject_Z a / 100)) <= pow2 1023)%Q as Habs
    by (apply Qabs_Qle_condition; split; assumption).
  generalize dependent (pow2 1023). generalize dependent (pow2 1024). intros. lra.
Qed.

End FloatOps.

Section FoldBonus.
Context {A : Type} (hit : A -> bool) (bonus : Q).
Hypothesis bonus_nonneg : (0 <= bonus)%Q.

Let step (score : Q) (x : A) : Q := if hit x then float_add score bonus else score.

Lemma fold_bonus_nonneg (l : list A) (s : Q) : (0 <= s)%Q -> (0 <= fold_left step l s)%Q.
Proof.
  revert s. induction l as [|x l IH]; intros s Hs; simpl; [exact Hs|].
  apply IH. unfold step. destruct (hit x); [apply float_add_nonneg; assumption | exact Hs].
Qed.

Lemma fold_bonus_mono (l : list A) (s1 s2 : Q) :
  (s1 <= s2)%Q -> (fold_left step l s1 <= fold_left step l s2)%Q.
Proof.
  revert s1 s2. induction l as [|x l IH]; intros s1 s2 Hs; simpl; [exact Hs|].
  apply IH. unfold step. destruct (hit x); [apply float_add_mono, Hs | exact Hs].
Qed.

Lemma fold_bonus_is_float (l : list A) (s : Q) : is_float s -> is_float (fold_left step l s).
Proof.
  revert s. induction l as [|x l IH]; intros s Hs; simpl; [exact Hs|].
  apply IH. unfold step. destruct (hit x); [apply float_add_is_float | exact Hs].
Qed.

Lemma fold_bonus_ge (l : list A) (s : Q) : is_float s -> (s <= fold_left step l s)%Q.
Proof.
  revert s. induction l as [|x l IH]; intros s Hs; simpl; [apply Qle_refl|].
  unfold step at 2. destruct (hit x); [|apply IH, Hs].
  eapply Qle_trans; [apply (float_add_ge s bonus Hs bonus_nonneg)|].
  apply IH, float_add_is_float.
Qed.

End FoldBonus.

(** ** Discovery: the engagement score *)

Section ScoreProperties.
Context {E : Type} `{PyLib}.

Lemma with_recency_nonneg hours_old score :
  (0 <= score)%Q -> (0 <= with_recency hours_old score)%Q.
Proof.
  intros Hs. unfold with_recency.
  destruct (Qltb hours_old 1); [apply float_add_nonneg; [exact Hs | discriminate]|].
  destruct (Qltb hours_old 6); [apply float_add_nonneg; [exact Hs | discriminate]|].
  destruct (Qltb hours_old 24); [apply float_add_nonneg; [exact Hs | discriminate]|].
  exact Hs.
Qed.

Lemma with_recency_mono hours_old s1 s2 :
  (s1 <= s2)%Q -> (with_recency hours_old s1 <= with_recency hours_old s2)%Q.
Proof.
  intros Hs. unfold with_recency.
  destruct (Qltb hours_old 1), (Qltb hours_old 6), (Qltb hours_old 24);
    try apply float_add_mono; exact Hs.
Qed.

Lemma with_relevance_nonneg post config score :
  (0 <= score)%Q -> (0 <= with_relevance post config score)%Q.
Proof.
  intros Hs. unfold with_relevance.
  apply (fold_bonus_nonneg _ 3); [discriminate|].
  apply (fold_bonus_nonneg _ 2); [discriminate | exact Hs].
Qed.

Lemma with_relevance_mono post config s1 s2 :
  (s1 <= s2)%Q -> (with_relevance post config s1 <= with_relevance post config s2)%Q.
Proof.
  intros Hs. unfold with_relevance.
  apply (fold_bonus_mono _ 3), (fold_bonus_mono _ 2), Hs.
Qed.

Lemma calculate_score_run (post : Post) (config : DiscoveryConfig) (w : World E) :
  fst (Discovery._calculate_score post config w) = score_at (now_of w) post config.
Proof.
  unfold Discovery._calculate_score, score_at, now_of, with_relevance, with_recency,
    bind, ret, of_result, datetime_now.
  destruct (int_truediv (Post.likes post) 100) as [quotient|e]; [|reflexivity].
  destruct (Post.timestamp post) as [ts|]; [|reflexivity]. cbn [World.clock World.clock_reads].
  destruct (datetime_sub _ ts); reflexivity.
Qed.

Lemma calculate_score_frame (post : Post) (config : DiscoveryConfig) (w : World E) :
  let w' := snd (Discovery._calculate_score post config w) in
  World.ext w' = World.ext w /\ World.db w' = World.db w
  /\ World.trace w' = World.trace w /\ World.clock w' = World.clock w
  /\ World.entropy w' = World.entropy w
  /\ World.entropy_reads w' = World.entropy_reads w.
Proof.
  unfold Discovery._calculate_score, bind, ret, of_result, datetime_now.
  destruct (int_truediv (Post.likes post) 100) as [quotient|e];
    [|repeat split; reflexivity].
  destruct (Post.timestamp post) as [ts|]; [|repeat split; reflexivity].
  cbn [World.clock World.clock_reads]. destruct (datetime_sub _ ts);
    repeat split; reflexivity.
Qed.

(** What [scorable] decides: whether [score_at] is a score or an exception. *)
Lemma score_at_scorable now post config :
  scorable post = true -> exists s, score_at now post config = Ok s.
Proof.
  unfold scorable, score_at. intros Hs. apply andb_prop in Hs as [Hlikes Hts].
  destruct (int_truediv (Post.likes post) 100) as [quotient|e]; [|discriminate].
  destruct (Post.timestamp post) as [ts|]; [|eexists; reflexivity].
  apply bool_decide_eq_true in Hts. unfold datetime_sub. rewrite Hts. cbn [naive utcoffset].
  eexists. reflexivity.
Qed.

Lemma score_at_not_scorable now post config :
  scorable post = false -> exists e, score_at now post config = Raise e.
Proof.
  unfold scorable, score_at. intros Hs.
  destruct (int_truediv (Post.likes post) 100) as [quotient|e]; [|eexists; reflexivity].
  destruct (Post.timestamp post) as [ts|]; [|discriminate].
  cbn [andb] in Hs. apply bool_decide_eq_false in Hs.
  unfold datetime_sub. cbn [naive utcoffset].
  destruct (utcoffset ts) as [offset|]; [eexists; reflexivity | contradiction].
Qed.

Lemma score_at_nonneg now post config s :
  score_at now post config = Ok s -> 0 <= Post.likes post -> (0 <= s)%Q.
Proof.
  unfold score_at. intros Hs Hl.
  destruct (int_truediv (Post.likes post) 100) as [quotient|e] eqn:Hq; [|discriminate].
  assert (0 <= float_add 0 (Qmin quotient 10))%Q as Hbase.
  { apply float_add_nonneg; [apply Qle_refl|].
    apply Q.min_glb; [apply (int_truediv_nonneg _ _ Hl Hq) | discriminate]. }
  destruct (Post.timestamp post) as [ts|].
  - destruct (datetime_sub (naive now) ts) as [age|e]; [|discriminate].
    injection Hs as <-. apply with_relevance_nonneg, with_recency_nonneg, Hbase.
  - injection Hs as <-. apply with_relevance_nonneg, Hbase.
Qed.

Lemma score_at_mono now post config l1 l2 s1 s2 :
  l1 <= l2 ->
  score_at now (Post.with_likes l1 post) config = Ok s1 ->
  score_at now (Post.with_likes l2 post) config = Ok s2 ->
  (s1 <= s2)%Q.
Proof.
  unfold score_at. cbn [Post.with_likes Post.likes Post.timestamp]. intros Hl H1 H2.
  destruct (int_truediv l1 100) as [q1|e1] eqn:Hq1; [|discriminate].
  destruct (int_truediv l2 100) as [q2|e2] eqn:Hq2; [|discriminate].
  assert (float_add 0 (Qmin q1 10) <= float_add 0 (Qmin q2 10))%Q as Hbase.
  { apply round64_mono. pose proof (int_truediv_mono _ _ _ _ Hl Hq1 Hq2) as Hq.
    pose proof (Q.min_le_compat_r q1 q2 10 Hq). lra. }
  unfold with_relevance in *. cbn [Post.hashtags Post.content] in *.
  destruct (Post.timestamp post) as [ts|].
  - destruct (datetime_sub (naive now) ts) as [age|e]; [|discriminate].
    injection H1 as <-. injection H2 as <-.
    apply (fold_bonus_mono _ 3), (fold_bonus_mono _ 2), with_recency_mono, Hbase.
  - injection H1 as <-. injection H2 as <-.
    apply (fold_bonus_mono _ 3), (fold_bonus_mono _ 2), Hbase.
Qed.

Lemma scorable_range (post : Post) :
  match Post.timestamp post with Some ts => utcoffset ts = None | None => True end ->
  Z.abs (Post.likes post) <= 2 ^ 1029 ->
  scorable post = true.
Proof.
  intros Hts Hl. unfold scorable. rewrite (int_truediv_range _ Hl). cbn [andb].
  destruct (Post.timestamp post); [apply bool_decide_eq_true, Hts | reflexivity].
Qed.

End ScoreProperties.

Section ScoreTheorems.
Context {E : Type} `{PyLib}.

(** X16.  [_calculate_score] computes a score exactly for the posts that are
    [scorable]: the like count divided by 100 is within the doubles (as it is
    for every like count of up to 1029 bits) and the timestamp, if any, is
    naive; for the others it raises.  It touches nothing but the clock.  Where
    it is computed, the score is a function of the post, the configuration and
    the time read from the clock; it is non-negative when the like count is
    non-negative; and raising the like count, all else fixed, never lowers
    it. *)
Theorem calculate_score_pure_monotone (post : Post) (config : DiscoveryConfig)
    (w : World E) :
  (scorable post = true ->
   exists s,
      fst (Discovery._calculate_score post config w) = Ok s
      /\ (forall w2 : World E,
             now_of w2 = now_of w ->
             fst (Discovery._calculate_score post config w2) = Ok s)
      /\ (0 <= Post.likes post -> (0 <= s)%Q))
  /\ (scorable post = false ->
      exists e, fst (Discovery._calculate_score post config w) = Raise e)
  /\ (match Post.timestamp post with Some ts => utcoffset ts = None | None => True end ->
      Z.abs (Post.likes post) <= 2 ^ 1029 ->
      scorable post = true)
  /\ (let w' := snd (Discovery._calculate_score post config w) in
      World.ext w' = World.ext w /\ World.db w' = World.db w
      /\ World.trace w' = World.trace w)
  /\ (forall l1 l2 : Z,
         l1 <= l2 ->
         scorable (Post.with_likes l1 post) = true ->
         scorable (Post.with_likes l2 post) = true ->
         exists s1 s2,
           fst (Discovery._calculate_score (Post.with_likes l1 post) config w) = Ok s1
           /\ fst (Discovery._calculate_score (Post.with_likes l2 post) config w) = Ok s2
           /\ (s1 <= s2)%Q).
Proof.
  split; [|split; [|split; [|split]]].
  - intros Hscorable.
    destruct (score_at_scorable (now_of w) post config Hscorable) as [s Hs].
    exists s. split; [|split].
    + rewrite calculate_score_run. exact Hs.
    + intros w2 Hnow. rewrite calculate_score_run, Hnow. exact Hs.
    + apply (score_at_nonneg _ _ _ _ Hs).
  - intros Hnot. rewrite calculate_score_run. apply score_at_not_scorable, Hnot.
  - apply scorable_range.
  - pose proof (calculate_score_frame post config w) as Hf. cbv zeta in Hf |- *. tauto.
  - intros l1 l2 Hl Hs1 Hs2.
    destruct (score_at_scorable (now_of w) _ config Hs1) as [s1 H1].
    destruct (score_at_scorable (now_of w) _ config Hs2) as [s2 H2].
    exists s1, s2. rewrite !calculate_score_run.
    split; [exact H1|]. split; [exact H2|].
    apply (score_at_mono _ _ _ _ _ _ _ Hl H1 H2).
Qed.

End ScoreTheorems.

Lemma calculate_score_pure_monotone_witness :
  exists s,
    fst (Discovery._calculate_score (H := Sample.lib)
           (Sample.post "p250" 250 ["#Climbing"]) (Sample.discovery_config 20)
           Sample.world) = Ok s
    /\ (0 <= s)%Q.
Proof.
  destruct (calculate_score_pure_monotone (H := Sample.lib)
              (Sample.post "p250" 250 ["#Climbing"]) (Sample.discovery_config 20)
              Sample.world) as [Hscore _].
  destruct Hscore as [s [Hs [_ Hnonneg]]]; [vm_compute; reflexivity|].
  exists s. split; [exact Hs|]. apply Hnonneg. simpl. lia.
Defined.

(** Where no score is computed: a post whose timestamp is timezone-aware makes
    [_calculate_score] raise the [TypeError] of the subtraction from
    [datetime.now()], and a post with [10**400] likes makes it raise the
    [OverflowError] of the division. *)
Lemma calculate_score_raises :
  let aware := mk_datetime 2026 11 3 11 0 0 0 (Some 0) in
  fst (Discovery._calculate_score (H := Sample.lib)
         (Sample.post_at "p" 250 aware) (Sample.discovery_config 20) Sample.world)
  = Raise (TypeError "can't subtract offset-naive and offset-aware datetimes")
  /\ fst (Discovery._calculate_score (H := Sample.lib)
            (Sample.post "p" (10 ^ 400) []) (Sample.discovery_config 20) Sample.world)
     = Raise (OverflowError "integer division result too large for a float")
  /\ ~ (exists s,
          fst (Discovery._calculate_score (H := Sample.lib)
                 (Sample.post_at "p" 250 aware) (Sample.discovery_config 20)
                 Sample.world) = Ok s
          /\ (0 <= s)%Q).
Proof.
  intros aware.
  assert (fst (Discovery._calculate_score (H := Sample.lib)
                 (Sample.post_at "p" 250 aware) (Sample.discovery_config 20)
                 Sample.world)
          = Raise (TypeError "can't subtract offset-naive and offset-aware datetimes"))
    as Haware by (vm_compute; reflexivity).
  split; [exact Haware|]. split; [vm_compute; reflexivity|].
  intros (s & Hs & _). rewrite Haware in Hs. discriminate.
Qed.


(** ** The stable descending sort and the slice *)

Section SortReverse.
Context {A : Type} (key : A -> Q).

Lemma insert_reverse_Permutation (x : A) (l : list A) :
  insert_reverse key x l ≡ₚ x :: l.
Proof.
  induction l as [|y l IH]; simpl; [reflexivity|].
  destruct (Qle_bool (key y) (key x)); [reflexivity|].
  rewrite IH. apply Permutation_swap.
Qed.

Lemma sort_reverse_Permutation (l : list A) : sort_reverse key l ≡ₚ l.
Proof.
  induction l as [|x l IH]; simpl; [reflexivity|].
  rewrite insert_reverse_Permutation, IH. reflexivity.
Qed.

Lemma insert_reverse_descending (x : A) (l : list A) :
  descending key l -> descending key (insert_reverse key x l).
Proof.
  unfold descending. induction 1 as [|y l Hl IH Hy]; simpl.
  - repeat constructor.
  - destruct (Qle_bool (key y) (key x)) eqn:Hle.
    + apply Qle_bool_iff in Hle. constructor; [constructor; assumption|].
      constructor; [exact Hle|].
      eapply Forall_impl; [exact Hy|]. simpl. intros z Hz. lra.
    + constructor; [exact IH|].
      rewrite insert_reverse_Permutation. constructor; [|exact Hy].
      destruct (Qlt_le_dec (key x) (key y)) as [Hlt|Hge].
      * lra.
      * apply Qle_bool_iff in Hge. congruence.
Qed.

Lemma sort_reverse_descending (l : list A) : descending key (sort_reverse key l).
Proof.
  induction l as [|x l IH]; simpl.
  - constructor.
  - apply insert_reverse_descending, IH.
Qed.

(** Stability: an element is only moved past elements of a strictly greater
    key, so every class of equal keys keeps its order. *)
Lemma insert_reverse_ties (s : Q) (x : A) (l : list A) :
  ties key s (insert_reverse key x l) = ties key s (x :: l).
Proof.
  induction l as [|y l IH]; [reflexivity|].
  simpl. destruct (Qle_bool (key y) (key x)) eqn:Hle; [reflexivity|].
  unfold ties in *. simpl in *. rewrite IH.
  destruct (Qeq_bool (key y) s) eqn:Hy, (Qeq_bool (key x) s) eqn:Hx; try reflexivity.
  apply Qeq_bool_iff in Hy, Hx.
  assert (Qle_bool (key y) (key x) = true) as Hle'; [|congruence].
  apply Qle_bool_iff. rewrite Hy, Hx. apply Qle_refl.
Qed.

Lemma sort_reverse_ties (s : Q) (l : list A) :
  ties key s (sort_reverse key l) = ties key s l.
Proof.
  induction l as [|x l IH]; [reflexivity|].
  simpl. rewrite insert_reverse_ties. unfold ties in *. simpl. rewrite IH. reflexivity.
Qed.

Lemma ties_prefix (s : Q) (l1 l2 : list A) :
  l1 `prefix_of` l2 -> ties key s l1 `prefix_of` ties key s l2.
Proof.
  intros [k ->]. unfold ties. rewrite List.filter_app. eexists. reflexivity.
Qed.

End SortReverse.

Lemma slice_to_take {A : Type} (l : list A) (n : Z) :
  exists k : nat, slice_to l n = take k l.
Proof. unfold slice_to. destruct (0 <=? n); eexists; reflexivity. Qed.

Lemma slice_to_length {A : Type} (l : list A) (n : Z) :
  0 <= n -> Z.of_nat (length (slice_to l n)) <= n.
Proof.
  intros Hn. unfold slice_to. destruct (Z.leb_spec 0 n); [|lia].
  rewrite length_take. lia.
Qed.

(** ** The monad: loops and handlers *)

Section MonadFacts.
Context {E : Type}.

Lemma for_each_total {A S : Type} (body : A -> S -> M (E := E) S) (l : list A) :
  (forall x acc w, exists acc' w', body x acc w = (Ok acc', w')) ->
  forall acc w, exists acc' w', for_each l body acc w = (Ok acc', w').
Proof.
  intros Hbody. induction l as [|x l IH]; intros acc w; simpl.
  - eexists _, _. reflexivity.
  - unfold bind. destruct (Hbody x acc w) as (acc' & w' & ->). apply IH.
Qed.

Lemma for_each_cons_ok {A S : Type} (body : A -> S -> M (E := E) S) (x : A)
    (l : list A) (acc acc' : S) (w w' : World E) :
  body x acc w = (Ok acc', w') ->
  for_each (x :: l) body acc w = for_each l body acc' w'.
Proof. intros Hb. simpl. unfold bind. rewrite Hb. reflexivity. Qed.

Lemma for_each_try_cons_ok {A S : Type} (body : A -> S -> M (E := E) S) (x : A)
    (l : list A) (acc acc' : S) (w w' : World E) :
  body x acc w = (Ok acc', w') ->
  for_each_try (x :: l) body acc w = for_each_try l body acc' w'.
Proof. intros Hb. cbn [for_each_try]. rewrite Hb. reflexivity. Qed.

Lemma for_each_try_cons_raise {A S : Type} (body : A -> S -> M (E := E) S) (x : A)
    (l : list A) (acc : S) (e : exn) (w w' : World E) :
  body x acc w = (Raise e, w') ->
  for_each_try (x :: l) body acc w = (Ok acc, w').
Proof. intros Hb. cbn [for_each_try]. rewrite Hb. reflexivity. Qed.

Lemma for_each_try_total {A S : Type} (body : A -> S -> M (E := E) S) (l : list A) :
  forall acc w, exists acc' w', for_each_try l body acc w = (Ok acc', w').
Proof.
  induction l as [|x l IH]; intros acc w; cbn [for_each_try].
  - eexists _, _. reflexivity.
  - destruct (body x acc w) as [[acc'|e] w']; [apply IH | eexists _, _; reflexivity].
Qed.

End MonadFacts.

(** ** Discovery: order, stability and length of the result *)

Section DiscoverTheorems.
Context {E : Type} `{PyLib}.
Variable adapters : Adapters E.

Lemma discover_platform_total (config : DiscoveryConfig) (platform : Platform)
    (results : list DiscoveredPost) (w : World E) :
  exists results' w',
    Discovery.discover_platform adapters config platform results w = (Ok results', w').
Proof.
  unfold Discovery.discover_platform.
  destruct (adapters platform) as [adapter|].
  - unfold try_except.
    match goal with |- context [match ?c with _ => _ end] => destruct c as [[r|e] w'] end;
      eexists _, _; reflexivity.
  - eexists _, _. reflexivity.
Qed.

Lemma collect_total (config : DiscoveryConfig) (w : World E) :
  exists merged w', Discovery.collect adapters config w = (Ok merged, w').
Proof. apply for_each_total. intros. apply discover_platform_total. Qed.

(** C5 (as amended).  [discover] always returns.  Its result is in descending
    order of engagement score; it is a prefix of the stable sort of the merged
    candidates, so candidates of equal score keep the order in which the
    sources gave them; when [config.limit] is not negative its length is at
    most [config.limit]; and when [config.limit] is negative the result is
    that sort without its last [|config.limit|] candidates (nothing, when
    there are no more than that). *)
Theorem discover_sorted_stable_bounded (config : DiscoveryConfig) (w : World E) :
  exists merged out w',
    Discovery.collect adapters config w = (Ok merged, w')
    /\ Discovery.discover adapters config w = (Ok out, w')
    /\ descending DiscoveredPost.engagement_score out
    /\ (forall s, ties DiscoveredPost.engagement_score s out
                  `prefix_of` ties DiscoveredPost.engagement_score s merged)
    /\ out ⊆+ merged
    /\ (0 <= DiscoveryConfig.limit config ->
        Z.of_nat (length out) <= DiscoveryConfig.limit config)
    /\ out `prefix_of` sort_reverse DiscoveredPost.engagement_score merged
    /\ (DiscoveryConfig.limit config < 0 ->
        length out
        = (length merged - Z.to_nat (- DiscoveryConfig.limit config))%nat).
Proof.
  destruct (collect_total config w) as (merged & w' & Hc).
  set (sorted := sort_reverse DiscoveredPost.engagement_score merged).
  exists merged, (slice_to sorted (DiscoveryConfig.limit config)), w'.
  split; [exact Hc|]. split.
  { unfold Discovery.discover, bind. rewrite Hc. reflexivity. }
  destruct (slice_to_take sorted (DiscoveryConfig.limit config)) as [k Hk].
  split; [|split; [|split]].
  - rewrite Hk. unfold descending.
    apply (StronglySorted_app_1_l _ _ (drop k sorted)). rewrite take_drop.
    apply sort_reverse_descending.
  - intros s. rewrite Hk, <- (sort_reverse_ties _ s merged).
    apply ties_prefix, prefix_take.
  - rewrite Hk, submseteq_take. apply Permutation_submseteq, sort_reverse_Permutation.
  - split; [apply slice_to_length|]. split; [rewrite Hk; apply prefix_take|].
    intros Hneg. unfold slice_to.
    destruct (Z.leb_spec 0 (DiscoveryConfig.limit config)) as [Hpos|_]; [lia|].
    rewrite length_take. unfold sorted.
    rewrite (Permutation_length (sort_reverse_Permutation _ merged)). lia.
Qed.

Lemma discover_with_posts_age_hours (config : DiscoveryConfig) (h : Z) :
  Discovery.discover adapters (DiscoveryConfig.with_posts_age_hours h config)
  = Discovery.discover adapters config.
Proof. reflexivity. Qed.

(** C10.  Two configurations that are identical except for [posts_age_hours]
    (they are equal once that field is set to the same value in both) make
    [discover] behave identically: same result and same final world. *)
Theorem discover_ignores_posts_age_hours (config1 config2 : DiscoveryConfig)
    (w : World E) :
  DiscoveryConfig.with_posts_age_hours 0 config1
  = DiscoveryConfig.with_posts_age_hours 0 config2 ->
  Discovery.discover adapters config1 w = Discovery.discover adapters config2 w.
Proof.
  intros Hsame.
  rewrite <- (discover_with_posts_age_hours config1 0),
          <- (discover_with_posts_age_hours config2 0), Hsame.
  reflexivity.
Qed.

End DiscoverTheorems.

Lemma discover_sorted_stable_bounded_witness :
  exists out,
    fst (Discovery.discover (H := Sample.lib) (Sample.adapters (Sample.adapter Sample.three_posts))
           (Sample.discovery_config 2) Sample.world) = Ok out
    /\ descending DiscoveredPost.engagement_score out
    /\ Z.of_nat (length out) <= 2.
Proof.
  destruct (discover_sorted_stable_bounded (H := Sample.lib)
              (Sample.adapters (Sample.adapter Sample.three_posts))
              (Sample.discovery_config 2) Sample.world)
    as (merged & out & w' & _ & Hd & Hsorted & _ & _ & Hlen & _).
  exists out. rewrite Hd. split; [reflexivity|]. split; [exact Hsorted|].
  apply Hlen. simpl. lia.
Defined.

Lemma discover_ignores_posts_age_hours_witness :
  let adapters := Sample.adapters (Sample.adapter Sample.three_posts) in
  Discovery.discover (H := Sample.lib) adapters
    (DiscoveryConfig.mk [INSTAGRAM] ["#climbing"] [] None 0 1000000 1 20 [] [])
    Sample.world
  = Discovery.discover (H := Sample.lib) adapters
      (DiscoveryConfig.mk [INSTAGRAM] ["#climbing"] [] None 0 1000000 720 20 [] [])
      Sample.world.
Proof.
  intros adapters.
  apply (discover_ignores_posts_age_hours (H := Sample.lib)). reflexivity.
Defined.

(** C5 as stated fails on a negative limit: with [limit = -1] the slice
    [results[:-1]] drops the last of three candidates and keeps two. *)
Lemma discover_negative_limit :
  exists out,
    fst (Discovery.discover (H := Sample.lib) (Sample.adapters (Sample.adapter Sample.three_posts))
           (Sample.discovery_config (-1)) Sample.world) = Ok out
    /\ map (fun d => Post.post_id (DiscoveredPost.post d)) out = ["p200"; "p80"]
    /\ ~ (Z.of_nat (length out) <= -1).
Proof.
  eexists. split; [vm_compute; reflexivity|]. split; [reflexivity|]. simpl. lia.
Qed.

(** ** The ledger: aggregates *)

Section LedgerAggregates.
Context {E : Type}.

Lemma record_run (result : EngagementResult) (post_author comment date : string)
    (w : World E) :
  EngagementResult.action result ∈ ["comment"; "like"; "follow"] ->
  strftime_ymd (now_of w) = date ->
  let w' := snd (Analytics.record result post_author comment w) in
  let ok := if EngagementResult.success result then 1 else 0 in
  fst (Analytics.record result post_author comment w) = Ok tt
  /\ World.clock w' = World.clock w
  /\ World.clock_reads w' = S (World.clock_reads w)
  /\ length (Database.engagements (World.db w'))
     = S (length (Database.engagements (World.db w)))
  /\ is_Some (Database.daily_stats (World.db w') !! date)
  /\ DailyStats.success_count (row_of date (World.db w'))
     = DailyStats.success_count (row_of date (World.db w)) + ok
  /\ outcomes_total (row_of date (World.db w'))
     = outcomes_total (row_of date (World.db w)) + 1
  /\ actions_total (row_of date (World.db w'))
     = actions_total (row_of date (World.db w)) + 1.
Proof.
  intros Hact Hdate.
  unfold Analytics.record, bind, db_execute, datetime_now, ret.
  cbn [fst snd World.db World.clock World.clock_reads].
  change (World.clock w (World.clock_reads w)) with (now_of w).
  change (strftime_ymd (naive (now_of w))) with (strftime_ymd (now_of w)).
  rewrite Hdate.
  assert (EngagementResult.action result = "comment"
          \/ EngagementResult.action result = "like"
          \/ EngagementResult.action result = "follow") as Hcases.
  { rewrite !elem_of_cons, elem_of_nil in Hact. tauto. }
  unfold row_of, outcomes_total, actions_total, Analytics.upsert_daily_stats,
    Analytics.insert_engagement.
  destruct Hcases as [-> | [-> | ->]];
    [ change ("comment" +:+ "s_posted") with "comments_posted"
    | change ("like" +:+ "s_posted") with "likes_posted"
    | change ("follow" +:+ "s_posted") with "follows_posted" ];
    (rewrite bool_decide_eq_true_2 by (rewrite !elem_of_cons; auto));
    cbn [fst snd World.db World.clock World.clock_reads Database.daily_stats
         Database.engagements];
    rewrite lookup_insert_eq, length_app;
    destruct (Database.daily_stats (World.db w) !! date) as [old|];
    destruct (EngagementResult.success result);
    cbn; repeat split; eauto; lia.
Qed.

Lemma select_daily_stats_lookup (days : Z) (d : Database) (date : string)
    (r : DailyStats) :
  (date, r) ∈ Analytics.select_daily_stats days d ->
  Database.daily_stats d !! date = Some r.
Proof.
  unfold Analytics.select_daily_stats. intros Hin.
  assert ((date, r) ∈ merge_sort Analytics.date_desc
                        (map_to_list (Database.daily_stats d))) as Hin'.
  { destruct (days <? 0); [exact Hin|].
    eapply elem_of_sublist; [exact Hin | apply sublist_take]. }
  rewrite merge_sort_Permutation in Hin'.
  apply elem_of_map_to_list in Hin'. exact Hin'.
Qed.

Lemma record_all_run (calls : list (EngagementResult * string * string))
    (date : string) (w : World E) :
  Forall (fun c => EngagementResult.action (fst (fst c)) ∈ ["comment"; "like"; "follow"])
         calls ->
  (forall n, (World.clock_reads w <= n)%nat -> strftime_ymd (World.clock w n) = date) ->
  let w' := snd (record_all calls w) in
  let n_calls := Z.of_nat (length calls) in
  fst (record_all calls w) = Ok tt
  /\ Z.of_nat (length (Database.engagements (World.db w')))
     = Z.of_nat (length (Database.engagements (World.db w))) + n_calls
  /\ (calls <> [] -> is_Some (Database.daily_stats (World.db w') !! date))
  /\ DailyStats.success_count (row_of date (World.db w'))
     = DailyStats.success_count (row_of date (World.db w)) + successes calls
  /\ outcomes_total (row_of date (World.db w'))
     = outcomes_total (row_of date (World.db w)) + n_calls
  /\ actions_total (row_of date (World.db w'))
     = actions_total (row_of date (World.db w)) + n_calls.
Proof.
  intros Hacts. revert w. unfold record_all.
  induction Hacts as [|[[result author] comment] calls Hact _ IH]; intros w Hclock.
  - simpl. repeat split; try lia; [congruence|].
    unfold successes. simpl. lia.
  - destruct (record_run result author comment date w Hact) as
      (Hok & Hck & Hrd & Hlen & Hsome & Hsucc & Hout & Hactn).
    { apply Hclock. lia. }
    destruct (Analytics.record result author comment w) as [r w1] eqn:Hrec.
    cbn [fst snd] in *. subst r.
    rewrite (for_each_cons_ok _ _ _ _ _ _ _ Hrec).
    specialize (IH w1). destruct IH as (Hok' & Hlen' & Hsome' & Hsucc' & Hout' & Hactn').
    { intros n Hn. rewrite Hck. apply Hclock. lia. }
    cbv zeta. split; [exact Hok'|].
    split; [rewrite Hlen', Hlen; simpl length; lia|].
    split.
    { intros _. destruct calls as [|c calls]; [exact Hsome|]. apply Hsome'. congruence. }
    split; [|split].
    + rewrite Hsucc', Hsucc. unfold successes. simpl.
      destruct (EngagementResult.success result); simpl length; lia.
    + rewrite Hout', Hout. simpl length. lia.
    + rewrite Hactn', Hactn. simpl length. lia.
Qed.

(** C7.  N calls to [record] whose actions are comment, like or follow, all on
    the date [date], each return and add exactly one ledger record; the row of
    [date] gains N in [success_count + failure_count] (the successful calls in
    [success_count]) and N in the sum of the three per-action counters.  When
    the date had no row before, the two sums are N, also as [get_daily_stats]
    reports the row. *)
Theorem record_aggregate_consistency
    (calls : list (EngagementResult * string * string)) (date : string) (w : World E) :
  Forall (fun c => EngagementResult.action (fst (fst c)) ∈ ["comment"; "like"; "follow"])
         calls ->
  (forall n, (World.clock_reads w <= n)%nat -> strftime_ymd (World.clock w n) = date) ->
  let w' := snd (record_all calls w) in
  let n_calls := Z.of_nat (length calls) in
  fst (record_all calls w) = Ok tt
  /\ Z.of_nat (length (Database.engagements (World.db w')))
     = Z.of_nat (length (Database.engagements (World.db w))) + n_calls
  /\ outcomes_total (row_of date (World.db w'))
     = outcomes_total (row_of date (World.db w)) + n_calls
  /\ actions_total (row_of date (World.db w'))
     = actions_total (row_of date (World.db w)) + n_calls
  /\ DailyStats.success_count (row_of date (World.db w'))
     = DailyStats.success_count (row_of date (World.db w)) + successes calls
  /\ (Database.daily_stats (World.db w) !! date = None ->
      outcomes_total (row_of date (World.db w')) = n_calls
      /\ actions_total (row_of date (World.db w')) = n_calls
      /\ forall days rows r,
           fst (Analytics.get_daily_stats days w') = Ok rows ->
           (date, r) ∈ rows ->
           DailyStats.success_count r + DailyStats.failure_count r = n_calls
           /\ DailyStats.comments_posted r + DailyStats.likes_posted r
              + DailyStats.follows_posted r = n_calls).
Proof.
  intros Hacts Hclock.
  destruct (record_all_run calls date w Hacts Hclock) as
    (Hok & Hlen & Hsome & Hsucc & Hout & Hactn).
  cbv zeta. repeat (split; [assumption|]).
  intros Hfresh.
  assert (row_of date (World.db w) = DailyStats.default) as Hzero.
  { unfold row_of. rewrite Hfresh. reflexivity. }
  rewrite Hzero in Hout, Hactn. unfold outcomes_total at 2 in Hout.
  unfold actions_total at 2 in Hactn. simpl in Hout, Hactn.
  split; [exact Hout|]. split; [exact Hactn|].
  intros days rows r Hq Hin.
  unfold Analytics.get_daily_stats, db_query, raise in Hq.
  destruct ((days <? - 2 ^ 63) || (2 ^ 63 - 1 <? days)); [discriminate|].
  cbn [fst] in Hq. injection Hq as <-. apply select_daily_stats_lookup in Hin.
  unfold row_of in Hout, Hactn. rewrite Hin in Hout, Hactn. simpl in Hout, Hactn.
  split; assumption.
Qed.

End LedgerAggregates.

Lemma record_aggregate_consistency_witness :
  let calls :=
    [ (Sample.outcome true "comment" "p1" (Some "Nice route!") None, "alice", "Nice route!");
      (Sample.outcome false "comment" "p2" None (Some "Comment box not found"), "bob", "");
      (Sample.outcome true "like" "p3" None None, "carol", "") ] in
  let w' := snd (record_all calls Sample.world) in
  outcomes_total (row_of "2026-11-03" (World.db w')) = 3
  /\ actions_total (row_of "2026-11-03" (World.db w')) = 3.
Proof.
  intros calls w'.
  destruct (record_aggregate_consistency calls "2026-11-03" Sample.world)
    as (_ & _ & _ & _ & _ & Hfresh).
  - repeat constructor; simpl; rewrite !elem_of_cons; auto.
  - intros n _. reflexivity.
  - destruct Hfresh as (Hout & Hact & _); [reflexivity|].
    split; [exact Hout | exact Hact].
Defined.

(** ** The text generator *)

Section GenerateComment.
Context {E : Type} `{PyLib}.

Lemma template_comments_length (post : Post) (config : EngagementConfig) :
  length (Engagement._generate_template_comments post config) = 5%nat.
Proof.
  unfold Engagement._generate_template_comments.
  destruct (Post.hashtags post); reflexivity.
Qed.

Lemma long_lines_nil (response : string) :
  Forall (fun l => (len (strip l) <= 10)%nat)
         (split (ascii_of_nat 10) response) ->
  Engagement.long_lines response = [].
Proof.
  unfold Engagement.long_lines. generalize (split (ascii_of_nat 10) response).
  intros lines Hshort. induction Hshort as [|l lines Hl _ IH]; [reflexivity|].
  rewrite filter_cons. destruct (decide (truthy (strip l) = true)); [|exact IH].
  rewrite fmap_cons, filter_cons.
  destruct (decide (10 < len (strip l))%nat); [lia|exact IH].
Qed.

(** C4 (as amended).  [generate_comment] never propagates an exception.  When
    the completion capability raises, the result is the five template
    comments; when its response holds no bracketed array and no stripped line
    longer than 10 characters, or holds a bracketed text that [json.loads]
    rejects, the result is the empty list. *)
Theorem generate_comment_never_raises (llm : option (LLM E)) (post : Post)
    (config : EngagementConfig) (w : World E) :
  (exists comments w',
      Engagement.generate_comment llm post config w = (Ok comments, w'))
  /\ (forall complete e x',
         llm = Some complete ->
         complete (Engagement._build_comment_prompt post config) (8 # 10)%Q (World.ext w)
         = (Raise e, x') ->
         fst (Engagement.generate_comment llm post config w)
         = Ok (Engagement._generate_template_comments post config)
         /\ length (Engagement._generate_template_comments post config) = 5%nat)
  /\ (forall complete response x',
         llm = Some complete ->
         complete (Engagement._build_comment_prompt post config) (8 # 10)%Q (World.ext w)
         = (Ok response, x') ->
         (search_bracketed response = None
          /\ Forall (fun l => (len (strip l) <= 10)%nat)
                    (split (ascii_of_nat 10) response))
         \/ (exists group e,
                search_bracketed response = Some group /\ json_loads group = Raise e) ->
         fst (Engagement.generate_comment llm post config w) = Ok []).
Proof.
  split; [|split].
  - unfold Engagement.generate_comment. destruct llm as [complete|].
    + unfold try_except, bind, emit, external, ret. cbn [World.ext].
      destruct (complete _ _ (World.ext w)) as [[response|e] x'];
        eexists _, _; reflexivity.
    + eexists _, _. reflexivity.
  - intros complete e x' -> Hraise. split; [|apply template_comments_length].
    unfold Engagement.generate_comment, try_except, bind, emit, external, ret.
    cbn [World.ext]. rewrite Hraise. reflexivity.
  - intros complete response x' -> Hans Hbad.
    unfold Engagement.generate_comment, try_except, bind, emit, external, ret.
    cbn [World.ext]. rewrite Hans. cbn [fst]. f_equal.
    unfold Engagement._parse_comments.
    destruct Hbad as [[Hnone Hshort] | (group & e & Hsome & Hjson)].
    + rewrite Hnone. apply long_lines_nil, Hshort.
    + rewrite Hsome, Hjson. reflexivity.
Qed.

End GenerateComment.

Lemma generate_comment_never_raises_witness :
  fst (Engagement.generate_comment (H := Sample.lib)
         (Some (Sample.fixed_llm "Nice 🔥🔥🔥"))
         (Sample.post "p1" 10 []) (Sample.engagement_config 20 0 0) Sample.world)
  = Ok [].
Proof.
  destruct (generate_comment_never_raises (H := Sample.lib)
              (Some (Sample.fixed_llm "Nice 🔥🔥🔥")) (Sample.post "p1" 10 [])
              (Sample.engagement_config 20 0 0) Sample.world) as (_ & _ & Hempty).
  eapply Hempty; [reflexivity | reflexivity |].
  left. split; [reflexivity|].
  constructor; [vm_compute; lia | constructor].
Defined.

(** C4 as stated fails when the completion capability raises: the result is
    the list of five template comments, not the empty list. *)
Lemma generate_comment_llm_raises :
  exists comments,
    fst (Engagement.generate_comment (H := Sample.lib) (Some Sample.failing_llm)
           (Sample.post "p1" 10 []) (Sample.engagement_config 20 0 0) Sample.world)
    = Ok comments
    /\ length comments = 5%nat /\ comments <> [].
Proof.
  eexists. split; [reflexivity|]. split; [reflexivity|]. discriminate.
Qed.

(** ** Relations every step of a computation respects *)

Section Respects.
Context {E : Type}.
Variable R : relation (World E).
Context `{!PreOrder R}.

Lemma respects_ret {A : Type} (a : A) : respects R (ret a).
Proof. intros w. reflexivity. Qed.

Lemma respects_raise {A : Type} (e : exn) : respects R (raise (A := A) e).
Proof. intros w. reflexivity. Qed.

Lemma respects_bind {A B : Type} (c : M A) (k : A -> M B) :
  respects R c -> (forall a, respects R (k a)) -> respects R (bind c k).
Proof.
  intros Hc Hk w. unfold bind. specialize (Hc w).
  destruct (c w) as [[a|e] w1]; simpl in *; [|exact Hc].
  etransitivity; [exact Hc | apply Hk].
Qed.

Lemma respects_try_except {A : Type} (c : M A) (h : exn -> M A) :
  respects R c -> (forall e, respects R (h e)) -> respects R (try_except c h).
Proof.
  intros Hc Hh w. unfold try_except. specialize (Hc w).
  destruct (c w) as [[a|e] w1]; simpl in *; [exact Hc|].
  etransitivity; [exact Hc | apply Hh].
Qed.

Lemma respects_for_each {A S : Type} (l : list A) (body : A -> S -> M S) (acc : S) :
  (forall x acc', x ∈ l -> respects R (body x acc')) -> respects R (for_each l body acc).
Proof.
  revert acc. induction l as [|x l IH]; intros acc Hbody; simpl.
  - apply respects_ret.
  - apply respects_bind.
    + apply Hbody. left.
    + intros acc'. apply IH. intros y acc'' Hy. apply Hbody. right. exact Hy.
Qed.

Lemma respects_of_result {A : Type} (r : result A) : respects R (of_result r).
Proof. intros w. reflexivity. Qed.

Lemma respects_for_each_try {A S : Type} (l : list A) (body : A -> S -> M S) (acc : S) :
  (forall x acc', x ∈ l -> respects R (body x acc')) ->
  respects R (for_each_try l body acc).
Proof.
  revert acc. induction l as [|x l IH]; intros acc Hbody w; cbn [for_each_try].
  - reflexivity.
  - pose proof (Hbody x acc ltac:(left) w) as Hx.
    destruct (body x acc w) as [[acc'|e] w1]; cbn [snd] in *; [|exact Hx].
    etransitivity; [exact Hx|]. apply IH. intros y acc'' Hy. apply Hbody. right. exact Hy.
Qed.

End Respects.

(** The relations used below are preorders. *)
Section Relations.
Context {E : Type}.

#[global] Instance same_db_preorder : PreOrder (same_db (E := E)).
Proof. split; unfold same_db; [intros w | intros w1 w2 w3]; congruence. Qed.

#[global] Instance ledger_grows_preorder : PreOrder (ledger_grows (E := E)).
Proof.
  split; unfold ledger_grows; [intros w; reflexivity|].
  intros w1 w2 w3 H12 H23. etransitivity; eassumption.
Qed.

#[global] Instance trace_grows_preorder (P : Event -> Prop) :
  PreOrder (trace_grows (E := E) P).
Proof.
  split.
  - intros w. exists []. rewrite app_nil_r. split; [reflexivity | constructor].
  - intros w1 w2 w3 (evs1 & H1 & HP1) (evs2 & H2 & HP2).
    exists (evs1 ++ evs2). rewrite H2, H1, app_assoc. split; [reflexivity|].
    apply Forall_app. split; assumption.
Qed.

(** What the primitive operations do to the trace and to the ledger. *)
Lemma emit_trace (ev : Event) (w : World E) :
  emit ev w = (Ok tt, snd (emit ev w))
  /\ World.trace (snd (emit ev w)) = World.trace w ++ [ev]
  /\ World.db (snd (emit ev w)) = World.db w
  /\ World.ext (snd (emit ev w)) = World.ext w.
Proof. unfold emit. simpl. repeat split. Qed.

Lemma external_frame {A : Type} (f : E -> result A * E) (w : World E) :
  fst (external f w) = fst (f (World.ext w))
  /\ World.trace (snd (external f w)) = World.trace w
  /\ World.db (snd (external f w)) = World.db w.
Proof. unfold external. destruct (f (World.ext w)). simpl. repeat split. Qed.

Lemma randint_run (a b : Z) (w : World E) :
  World.trace (snd (randint a b w)) = World.trace w
  /\ World.db (snd (randint a b w)) = World.db w
  /\ (forall d, fst (randint a b w) = Ok d -> a <= d <= b)
  /\ (a <= b -> exists d, fst (randint a b w) = Ok d)
  /\ (forall e, fst (randint a b w) = Raise e -> b < a).
Proof.
  unfold randint, bind, _randbelow, ret, raise.
  destruct (Z.ltb_spec 0 (b + 1 - a)) as [Hw|Hw]; simpl.
  - split; [reflexivity|]. split; [reflexivity|]. split; [|split].
    + intros d [= <-].
      pose proof (Z.mod_pos_bound (World.entropy w (World.entropy_reads w)) _ Hw). lia.
    + intros _. eexists. reflexivity.
    + intros e [=].
  - split; [reflexivity|]. split; [reflexivity|]. split; [|split].
    + intros d [=].
    + intros Hab. lia.
    + intros e _. lia.
Qed.

End Relations.

(** ** The executor: one iteration *)

Section EngageFacts.
Context {E : Type} `{PyLib}.
Variable llm : option (LLM E).
Variable adapter : PlatformAdapter E.
Variable config : EngagementConfig.
Variable callback : option (Post -> EngagementResult -> M (E := E) unit).

Lemma generate_comment_run (post : Post) (w : World E) :
  exists comments evs,
    fst (Engagement.generate_comment llm post config w) = Ok comments
    /\ World.trace (snd (Engagement.generate_comment llm post config w))
       = World.trace w ++ evs
    /\ (evs = [] \/ evs = [EvComplete (Engagement._build_comment_prompt post config)])
    /\ World.db (snd (Engagement.generate_comment llm post config w)) = World.db w
    /\ (llm = None -> comments = Engagement._generate_template_comments post config).
Proof.
  unfold Engagement.generate_comment. destruct llm as [complete|].
  - unfold try_except, bind, emit, external, ret. cbn [World.ext].
    destruct (complete _ _ (World.ext w)) as [[response|e] x']; cbn;
      eexists _, [EvComplete _]; (split; [reflexivity|]); (split; [reflexivity|]);
      (split; [right; reflexivity|]); (split; [reflexivity | discriminate]).
  - exists (Engagement._generate_template_comments post config), [].
    cbn. rewrite app_nil_r. repeat split. left. reflexivity.
Qed.

Lemma call_comment_run (id : string) (text : json) (w : World E) :
  let outcome := fst (Engagement.call_comment adapter id text w) in
  outcome = fst (PlatformAdapter.comment adapter id text (World.ext w))
  /\ World.trace (snd (Engagement.call_comment adapter id text w))
     = World.trace w ++ [EvComment id text outcome]
  /\ World.db (snd (Engagement.call_comment adapter id text w)) = World.db w.
Proof.
  unfold Engagement.call_comment, external, emit.
  destruct (PlatformAdapter.comment adapter id text (World.ext w)) as [o x'].
  cbn. repeat split; reflexivity.
Qed.

Lemma comment_outcomes_app (evs1 evs2 : list Event) :
  comment_outcomes (evs1 ++ evs2) = comment_outcomes evs1 ++ comment_outcomes evs2.
Proof. unfold comment_outcomes. rewrite map_app, concat_app. reflexivity. Qed.

(** An iteration either fails to draw its delay (the range is empty), or
    sleeps once and then generates, comments and reports. *)
Lemma engage_body_run (post : Post) (results : list EngagementResult) (w : World E)
    (r : result (list EngagementResult)) (w' : World E) :
  quiet callback ->
  Engagement.engage_body llm adapter config callback post results w = (r, w') ->
  (World.trace w' = World.trace w
   /\ (exists e, r = Raise e)
   /\ EngagementConfig.max_delay_seconds config < EngagementConfig.min_delay_seconds config)
  \/ (exists d evs,
         World.trace w' = World.trace w ++ EvSleep d :: evs
         /\ EngagementConfig.min_delay_seconds config <= d
            <= EngagementConfig.max_delay_seconds config
         /\ Forall (about config post) evs
         /\ (forall rs, r = Ok rs -> rs = results ++ comment_outcomes evs)
         /\ (forall id text e, EvComment id text (Raise e) ∈ evs -> r = Raise e)).
Proof.
  intros Hquiet Hrun. unfold Engagement.engage_body in Hrun.
  pose proof (randint_run (EngagementConfig.min_delay_seconds config)
                (EngagementConfig.max_delay_seconds config) w)
    as (Htr & _ & Hrange & _ & Hempty).
  unfold bind at 1 in Hrun.
  destruct (randint _ _ w) as [[d|e] w1]; cbn [fst snd] in *.
  2:{ injection Hrun as <- <-. left. split; [exact Htr|]. split; [eauto|].
      eapply Hempty. reflexivity. }
  right. exists d. specialize (Hrange d eq_refl).
  unfold bind at 1, sleep at 1 in Hrun.
  pose proof (emit_trace (EvSleep d) w1) as (Hemit & Htr1 & _).
  rewrite Hemit in Hrun. rewrite Htr in Htr1.
  set (w2 := snd (emit (EvSleep d) w1)) in *. clearbody w2.
  unfold bind at 1 in Hrun.
  destruct (generate_comment_run post w2) as (comments & evs_g & Hg & Htr2 & Hevs & _).
  destruct (Engagement.generate_comment llm post config w2) as [rg w3].
  cbn [fst snd] in *. subst rg. rewrite Htr1, <- app_assoc in Htr2. cbn [app] in Htr2.
  assert (Forall (about config post) evs_g /\ comment_outcomes evs_g = []
          /\ forall id text (o : result EngagementResult), EvComment id text o ∉ evs_g)
    as (Hab & Hnone & Hnocomment).
  { destruct Hevs as [-> | ->]; (split; [repeat constructor|]); (split; [reflexivity|]);
      intros id text o Hin.
    - inversion Hin.
    - apply list_elem_of_singleton in Hin. discriminate. }
  destruct comments as [|comment comments].
  { injection Hrun as <- <-.
    exists evs_g. split; [exact Htr2|].
    split; [exact Hrange|]. split; [exact Hab|]. split.
    - intros rs [= <-]. rewrite Hnone, app_nil_r. reflexivity.
    - intros id text e Hin. exfalso. eapply Hnocomment, Hin. }
  unfold bind at 1 in Hrun.
  pose proof (call_comment_run (Post.post_id post) comment w3) as (_ & Htr3 & _).
  destruct (Engagement.call_comment adapter (Post.post_id post) comment w3) as [o w4].
  cbn [fst snd] in *. rewrite Htr2 in Htr3.
  destruct o as [a|e].
  2:{ injection Hrun as <- <-.
      exists (evs_g ++ [EvComment (Post.post_id post) comment (Raise e)]).
      split; [rewrite Htr3, <- app_assoc; reflexivity|].
      split; [exact Hrange|].
      split; [apply Forall_app; split; [exact Hab | repeat constructor]|].
      split; [discriminate|].
      intros id text e' Hin. apply elem_of_app in Hin as [Hin|Hin].
      - exfalso. eapply Hnocomment, Hin.
      - apply list_elem_of_singleton in Hin. congruence. }
  assert (exists evs_c,
             World.trace w' = World.trace w4 ++ evs_c
             /\ (evs_c = [] \/ evs_c = [EvCallback post a])
             /\ forall rs, r = Ok rs -> rs = results ++ [a]) as (evs_c & Htr' & Hevs_c & Hrs).
  { unfold bind at 1 in Hrun.
    destruct (EngagementResult.success a && negb (sliceable comment)).
    { injection Hrun as <- <-. exists []. rewrite app_nil_r.
      split; [reflexivity|]. split; [left; reflexivity | discriminate]. }
    unfold ret at 1 in Hrun. unfold bind at 1 in Hrun.
    destruct callback as [cb|].
    - unfold bind at 1 in Hrun.
      pose proof (emit_trace (EvCallback post a) w4) as (Hemit' & Htr5 & _).
      rewrite Hemit' in Hrun.
      specialize (Hquiet cb eq_refl post a (snd (emit (EvCallback post a) w4))).
      destruct (cb post a (snd (emit (EvCallback post a) w4))) as [rc w6].
      cbn [fst snd] in Hquiet. exists [EvCallback post a].
      destruct rc as [[]|e]; injection Hrun as <- <-;
        (split; [congruence|]); (split; [right; reflexivity|]).
      + intros rs [= <-]. reflexivity.
      + discriminate.
    - injection Hrun as <- <-. exists []. rewrite app_nil_r.
      split; [reflexivity|]. split; [left; reflexivity|].
      intros rs [= <-]. reflexivity. }
  exists (evs_g ++ [EvComment (Post.post_id post) comment (Ok a)] ++ evs_c).
  split; [rewrite Htr', Htr3, <- !app_assoc; reflexivity|].
  split; [exact Hrange|].
  split.
  { apply Forall_app. split; [exact Hab|]. apply Forall_app. split; [repeat constructor|].
    destruct Hevs_c as [-> | ->]; repeat constructor. }
  split.
  - intros rs Hr. rewrite (Hrs rs Hr), !comment_outcomes_app, Hnone.
    destruct Hevs_c as [-> | ->]; reflexivity.
  - intros id text e Hin. exfalso.
    rewrite !elem_of_app in Hin. destruct Hin as [Hin | [Hin | Hin]].
    + eapply Hnocomment, Hin.
    + apply list_elem_of_singleton in Hin. discriminate.
    + destruct Hevs_c as [-> | ->]; [inversion Hin|].
      apply list_elem_of_singleton in Hin. discriminate.
Qed.


Lemma flatten_cons (chunk : Post * Z * list Event) (chunks : list (Post * Z * list Event)) :
  flatten (chunk :: chunks) = chunk_events chunk ++ flatten chunks.
Proof. reflexivity. Qed.

(** The whole loop: the trace it adds is one chunk per iteration begun, the
    iterations take the posts in order, and the result list is the list of
    outcomes the adapter returned. *)
Lemma engage_loop_run (posts : list Post) :
  quiet callback ->
  forall (i : Z) (results : list EngagementResult) (w : World E)
         (r : result (list EngagementResult)) (w' : World E),
    Engagement.engage_loop llm adapter config callback i posts results w = (r, w') ->
    exists chunks : list (Post * Z * list Event),
      World.trace w' = World.trace w ++ flatten chunks
      /\ map (fun c => fst (fst c)) chunks `prefix_of` posts
      /\ Forall (fun c =>
                   EngagementConfig.min_delay_seconds config <= snd (fst c)
                   <= EngagementConfig.max_delay_seconds config
                   /\ Forall (about config (fst (fst c))) (snd c)) chunks
      /\ (length chunks <= Z.to_nat (EngagementConfig.max_daily config - i))%nat
      /\ (forall rs, r = Ok rs ->
            rs = results ++ comment_outcomes (flatten chunks)
            /\ length chunks
               = Nat.min (length posts) (Z.to_nat (EngagementConfig.max_daily config - i)))
      /\ (forall e, r = Raise e ->
            EngagementConfig.min_delay_seconds config
            <= EngagementConfig.max_delay_seconds config ->
            chunks <> [])
      /\ (forall id text e, EvComment id text (Raise e) ∈ flatten chunks -> r = Raise e).
Proof.
  intros Hquiet. induction posts as [|post posts' IH]; intros i results w r w' Hrun.
  - injection Hrun as <- <-. exists []. cbn. rewrite !app_nil_r.
    split; [reflexivity|]. split; [reflexivity|]. split; [constructor|].
    split; [lia|]. split; [|split].
    + intros rs [= <-]. split; reflexivity.
    + discriminate.
    + intros id text e Hin. inversion Hin.
  - cbn [Engagement.engage_loop] in Hrun.
    destruct (Z.leb_spec (EngagementConfig.max_daily config) i) as [Hcap|Hcap].
    { injection Hrun as <- <-. exists [].
      cbn [flatten map concat app length]. rewrite !app_nil_r.
      split; [reflexivity|]. split; [apply prefix_nil|]. split; [constructor|].
      split; [lia|]. split; [|split].
      - intros rs [= <-]. split; [reflexivity|].
        replace (Z.to_nat (EngagementConfig.max_daily config - i)) with 0%nat by lia.
        rewrite Nat.min_0_r. reflexivity.
      - discriminate.
      - intros id text e Hin. inversion Hin. }
    unfold bind at 1 in Hrun.
    destruct (Engagement.engage_body llm adapter config callback post results w)
      as [rb wb] eqn:Hbody.
    apply (engage_body_run _ _ _ _ _ Hquiet) in Hbody.
    destruct Hbody as [(Htr & [e ->] & Hempty) | (d & evs & Htr & Hrange & Hab & Hrs & Hraised)].
    { injection Hrun as <- <-. exists []. cbn. rewrite app_nil_r.
      split; [exact Htr|]. split; [apply prefix_nil|]. split; [constructor|].
      split; [lia|]. split; [discriminate|]. split; [intros; lia|].
      intros id text e' Hin. inversion Hin. }
    destruct rb as [rs1|e].
    2:{ injection Hrun as <- <-. exists [(post, d, evs)].
        rewrite flatten_cons. cbn. rewrite app_nil_r.
        split; [exact Htr|]. split; [apply prefix_cons, prefix_nil|].
        split; [repeat constructor; cbn; (lia || assumption)|].
        split; [lia|]. split; [discriminate|]. split; [discriminate|].
        intros id text e' Hin. apply elem_of_cons in Hin as [Hin|Hin]; [discriminate|].
        eapply Hraised, Hin. }
    apply IH in Hrun.
    destruct Hrun as (chunks & Htr' & Hpre & Hok & Hlen & Hres & Hne & Hraised').
    exists ((post, d, evs) :: chunks). rewrite flatten_cons.
    split.
    { rewrite Htr', Htr. cbn. rewrite <- app_assoc. reflexivity. }
    split; [cbn; apply prefix_cons, Hpre|].
    split; [constructor; [cbn; split; (lia || assumption) | exact Hok]|].
    split; [cbn [length]; lia|].
    split; [|split].
    + intros rs Hr. destruct (Hres rs Hr) as [-> Hn]. split.
      * rewrite (Hrs rs1 eq_refl). cbn [chunk_events].
        change (EvSleep d :: evs) with ([EvSleep d] ++ evs).
        rewrite !comment_outcomes_app, <- !app_assoc. reflexivity.
      * cbn [length]. rewrite Hn. lia.
    + discriminate.
    + intros id text e Hin. apply elem_of_app in Hin as [Hin|Hin].
      * apply elem_of_cons in Hin as [Hin|Hin]; [discriminate|].
        specialize (Hraised _ _ _ Hin). discriminate.
      * eapply Hraised', Hin.
Qed.

End EngageFacts.

(** ** The executor: quota, pacing and failures *)

Section EngageTheorems.
Context {E : Type} `{PyLib}.
Variable llm : option (LLM E).
Variable adapter : PlatformAdapter E.
Variable config : EngagementConfig.
Variable callback : option (Post -> EngagementResult -> M (E := E) unit).








(** C1 (as amended).  [engage] has no handler of its own around
    [adapter.comment].  A failure the adapter reports as an outcome
    ([success = False]) is appended to the result list like any outcome and
    the loop goes on: when [engage] returns, its result is the list of all
    outcomes the adapter returned, in order, and every post within the quota
    has had its iteration.  An exception raised by [adapter.comment] is not
    caught: it is the outcome of [engage]. *)
Theorem engage_adapter_failures (posts : list Post) (w : World E) :
  quiet callback ->
  let r := fst (Engagement.engage llm posts adapter config callback w) in
  let w' := snd (Engagement.engage llm posts adapter config callback w) in
  exists chunks : list (Post * Z * list Event),
    World.trace w' = World.trace w ++ flatten chunks
    /\ (forall rs, r = Ok rs ->
          rs = comment_outcomes (flatten chunks)
          /\ length chunks
             = Nat.min (length posts) (Z.to_nat (EngagementConfig.max_daily config)))
    /\ (forall id text e,
          EvComment id text (Raise e) ∈ flatten chunks -> r = Raise e).
Proof.
  intros Hquiet r w'.
  destruct (engage_loop_run llm adapter config callback posts Hquiet 0 [] w r w')
    as (chunks & Htr & _ & _ & _ & Hres & _ & Hraised).
  { unfold r, w', Engagement.engage. apply surjective_pairing. }
  exists chunks. split; [exact Htr|]. split; [|exact Hraised].
  intros rs Hr. destruct (Hres rs Hr) as [-> Hn]. split; [reflexivity|].
  rewrite Hn, Z.sub_0_r. reflexivity.
Qed.

End EngageTheorems.



Lemma engage_adapter_failures_witness :
  exists rs,
    fst (Engagement.engage (H := Sample.lib) None
           [Sample.post "p1" 10 []; Sample.post "p2" 20 []]
           Sample.flaky_adapter (Sample.engagement_config 20 0 0) None
           (Sample.world_of 0%nat))
    = Ok rs
    /\ map EngagementResult.success rs = [false; true]
    /\ exists chunks : list (Post * Z * list Event),
         rs = comment_outcomes (flatten chunks) /\ length chunks = 2%nat.
Proof.
  destruct (engage_adapter_failures (H := Sample.lib) None Sample.flaky_adapter
              (Sample.engagement_config 20 0 0) None
              [Sample.post "p1" 10 []; Sample.post "p2" 20 []] (Sample.world_of 0%nat))
    as (chunks & _ & Hok & _).
  - intros cb Hcb. discriminate Hcb.
  - eexists. split; [reflexivity|]. split; [reflexivity|].
    exists chunks. apply Hok. reflexivity.
Defined.

(** C1 as stated fails when [adapter.comment] raises: the exception leaves
    [engage], no failed outcome is built and the second post is never
    attempted. *)
Lemma engage_adapter_raises :
  let run :=
    Engagement.engage (H := Sample.lib) None
      [Sample.post "p1" 10 []; Sample.post "p2" 20 []]
      Sample.raising_adapter (Sample.engagement_config 20 0 0) None Sample.world in
  fst run = Raise (RuntimeError "Page crashed")
  /\ map (fun ev => match ev with
                    | EvSleep _ => "sleep"
                    | EvComment id _ _ => "comment " +:+ id
                    | _ => "other"
                    end) (World.trace (snd run))
     = ["sleep"; "comment p1"].
Proof. split; reflexivity. Qed.

(** ** The ledger as dedup oracle *)

Section Primitives.
Context {E : Type}.
Variable R : relation (World E).
Context `{!PreOrder R}.

(** A relation that only looks at the ledger and the trace is respected by
    every operation that touches neither. *)
Hypothesis R_frame :
  forall w w' : World E,
    World.db w' = World.db w -> World.trace w' = World.trace w -> R w w'.

Lemma respects_external {A : Type} (f : E -> result A * E) : respects R (external f).
Proof. intros w. apply R_frame; apply external_frame. Qed.

Lemma respects_datetime_now : respects R datetime_now.
Proof. intros w. apply R_frame; reflexivity. Qed.

Lemma respects_db_query {A : Type} (q : Database -> A) : respects R (db_query q).
Proof. intros w. apply R_frame; reflexivity. Qed.

Lemma respects_randint (a b : Z) : respects R (randint a b).
Proof. intros w. apply R_frame; apply randint_run. Qed.

End Primitives.

Section LedgerDedup.
Context {E : Type} `{PyLib}.

Lemma same_db_frame (w w' : World E) :
  World.db w' = World.db w -> World.trace w' = World.trace w -> same_db w w'.
Proof. intros Hdb _. exact Hdb. Qed.

Lemma ledger_grows_frame (w w' : World E) :
  World.db w' = World.db w -> World.trace w' = World.trace w -> ledger_grows w w'.
Proof. intros Hdb _. unfold ledger_grows. rewrite Hdb. reflexivity. Qed.

Lemma trace_grows_frame (P : Event -> Prop) (w w' : World E) :
  World.db w' = World.db w -> World.trace w' = World.trace w -> trace_grows P w w'.
Proof.
  intros _ Htr. exists []. rewrite app_nil_r. split; [exact Htr | constructor].
Qed.

Lemma respects_emit_same_db (ev : Event) : respects (E := E) same_db (emit ev).
Proof. intros w. reflexivity. Qed.

Lemma respects_emit_ledger (ev : Event) : respects (E := E) ledger_grows (emit ev).
Proof. intros w. unfold ledger_grows. reflexivity. Qed.

Lemma respects_emit_trace (P : Event -> Prop) (ev : Event) :
  P ev -> respects (E := E) (trace_grows P) (emit ev).
Proof. intros Hev w. exists [ev]. split; [reflexivity | repeat constructor; exact Hev]. Qed.

Lemma respects_db_execute_ledger (stmt : Database -> Database) :
  (forall d, Database.engagements d `prefix_of` Database.engagements (stmt d)) ->
  respects (E := E) ledger_grows (db_execute stmt).
Proof. intros Hstmt w. unfold ledger_grows. cbn. apply Hstmt. Qed.

(** [record] appends one ledger record and leaves the trace alone. *)
Lemma record_respects_ledger (result : EngagementResult) (author comment : string) :
  respects (E := E) ledger_grows (Analytics.record result author comment).
Proof.
  unfold Analytics.record.
  apply respects_bind; try typeclasses eauto; [|intros []].
  { apply respects_db_execute_ledger. intros d. cbn. apply prefix_app_r. reflexivity. }
  apply respects_bind; try typeclasses eauto; [|intros now].
  { apply respects_datetime_now, ledger_grows_frame. }
  destruct (bool_decide _).
  - apply respects_db_execute_ledger. intros d. reflexivity.
  - apply respects_ret. typeclasses eauto.
Qed.

Lemma record_trace (result : EngagementResult) (author comment : string) (w : World E) :
  World.trace (snd (Analytics.record result author comment w)) = World.trace w.
Proof.
  unfold Analytics.record, bind, db_execute, datetime_now, ret.
  cbn. destruct (bool_decide _); reflexivity.
Qed.

Lemma record_commented (result : EngagementResult) (author comment : string) (w : World E) :
  EngagementResult.action result = "comment" ->
  commented (EngagementResult.post_id result)
            (World.db (snd (Analytics.record result author comment w))).
Proof.
  intros Hact. unfold commented, Analytics.count_comments.
  unfold Analytics.record, bind, db_execute, datetime_now, ret. cbn.
  destruct (bool_decide _); cbn; rewrite filter_app, length_app, filter_cons;
    cbn; rewrite Hact; (rewrite decide_True by (split; reflexivity)); cbn; lia.
Qed.

(** What one [record] adds to the count of [is_engaged]. *)
Lemma count_comments_record (result : EngagementResult) (author comment id : string)
    (w : World E) :
  Analytics.count_comments id (World.db (snd (Analytics.record result author comment w)))
  = Analytics.count_comments id (World.db w)
    + (if bool_decide (EngagementResult.post_id result = id
                       /\ EngagementResult.action result = "comment")
       then 1 else 0).
Proof.
  unfold Analytics.count_comments, Analytics.record, bind, db_execute, datetime_now, ret.
  cbn [fst snd World.db].
  assert (forall d rec,
             Z.of_nat (length (filter (fun r => EngagementRecord.post_id r = id
                                                ∧ EngagementRecord.action r = "comment")
                                      (d ++ [rec])))
             = Z.of_nat (length (filter (fun r => EngagementRecord.post_id r = id
                                                  ∧ EngagementRecord.action r = "comment") d))
               + (if bool_decide (EngagementRecord.post_id rec = id
                                  /\ EngagementRecord.action rec = "comment")
                  then 1 else 0)) as Happ.
  { intros d rec. rewrite filter_app, length_app, filter_cons, filter_nil.
    destruct (decide (EngagementRecord.post_id rec = id
                      ∧ EngagementRecord.action rec = "comment")) as [Hyes|Hno].
    - rewrite bool_decide_eq_true_2 by exact Hyes. cbn [length]. lia.
    - rewrite bool_decide_eq_false_2 by exact Hno. cbn [length]. lia. }
  destruct (bool_decide (_ ∈ _)); cbn [fst snd World.db Analytics.insert_engagement
    Analytics.upsert_daily_stats Database.engagements]; apply Happ.
Qed.

Lemma commented_grows (id : string) (w w' : World E) :
  ledger_grows w w' -> commented id (World.db w) -> commented id (World.db w').
Proof.
  unfold ledger_grows, commented, Analytics.count_comments. intros [k ->].
  rewrite filter_app, length_app. lia.
Qed.

Lemma is_engaged_run (id : string) (w : World E) :
  Analytics.is_engaged id w = (Ok (0 <? Analytics.count_comments id (World.db w)), w).
Proof. reflexivity. Qed.

End LedgerDedup.

(** ** Relations respected by discovery and by the executor *)

Section PipelineRespects.
Context {E : Type} `{PyLib}.
Variable R : relation (World E).
Context `{!PreOrder R}.
Hypothesis R_frame :
  forall w w' : World E,
    World.db w' = World.db w -> World.trace w' = World.trace w -> R w w'.

Ltac structure :=
  repeat first
    [ apply respects_ret; try typeclasses eauto
    | apply respects_raise; try typeclasses eauto
    | apply respects_of_result; try typeclasses eauto
    | apply respects_datetime_now; exact R_frame
    | apply respects_external; exact R_frame
    | apply respects_db_query; exact R_frame
    | apply respects_randint; exact R_frame
    | apply respects_bind; try typeclasses eauto; [|intros ?]
    | apply respects_try_except; try typeclasses eauto; [|intros ?]
    | match goal with
      | |- respects _ (match ?x with _ => _ end) => destruct x
      end ].

Lemma evaluate_post_respects (post : Post) (config : DiscoveryConfig) :
  respects R (Discovery._evaluate_post post config).
Proof.
  unfold Discovery._evaluate_post. structure.
Qed.

Section Discover.
Variable adapters : Adapters E.
Hypothesis R_search :
  forall platform query hashtags location limit,
    respects R (emit (EvSearch platform query hashtags location limit)).

Lemma discover_respects (config : DiscoveryConfig) :
  respects R (Discovery.discover adapters config).
Proof.
  unfold Discovery.discover, Discovery.collect. structure.
  apply respects_for_each; [typeclasses eauto|]. intros platform results _.
  unfold Discovery.discover_platform. structure.
  - apply R_search.
  - apply respects_for_each_try; [typeclasses eauto|]. intros post acc _. structure.
    apply evaluate_post_respects.
Qed.

End Discover.

Section Engage.
Variable llm : option (LLM E).
Variable adapter : PlatformAdapter E.
Variable config : EngagementConfig.
Variable callback : option (Post -> EngagementResult -> M (E := E) unit).
Hypothesis R_emit : forall ev, respects R (emit ev).
Hypothesis R_callback :
  forall cb, callback = Some cb -> forall post r, respects R (cb post r).

Lemma generate_comment_respects (post : Post) :
  respects R (Engagement.generate_comment llm post config).
Proof. unfold Engagement.generate_comment. structure. apply R_emit. Qed.

Lemma call_comment_respects (id : string) (text : json) :
  respects R (Engagement.call_comment adapter id text).
Proof.
  intros w. unfold Engagement.call_comment.
  pose proof (respects_external R R_frame
                (PlatformAdapter.comment adapter id text) w) as Hext.
  destruct (external (PlatformAdapter.comment adapter id text) w) as [o w1].
  cbn [fst snd] in *. etransitivity; [exact Hext | apply R_emit].
Qed.

Lemma engage_body_respects (post : Post) (results : list EngagementResult) :
  respects R (Engagement.engage_body llm adapter config callback post results).
Proof.
  unfold Engagement.engage_body, sleep.
  apply respects_bind; try typeclasses eauto; [structure|intros delay].
  apply respects_bind; try typeclasses eauto; [apply R_emit|intros []].
  apply respects_bind; try typeclasses eauto; [apply generate_comment_respects|].
  intros [|comment comments]; [structure|].
  apply respects_bind; try typeclasses eauto; [apply call_comment_respects|intros result].
  apply respects_bind; try typeclasses eauto; [structure|intros []].
  apply respects_bind; try typeclasses eauto; [|intros []; structure].
  destruct callback as [cb|] eqn:Hcb; [|structure].
  apply respects_bind; try typeclasses eauto; [apply R_emit|intros []].
  apply (R_callback cb eq_refl).
Qed.

Lemma engage_loop_respects (posts : list Post) :
  forall i results,
    respects R (Engagement.engage_loop llm adapter config callback i posts results).
Proof.
  induction posts as [|post posts' IH]; intros i results; cbn [Engagement.engage_loop].
  - structure.
  - destruct (_ <=? _); [structure|].
    apply respects_bind; try typeclasses eauto; [apply engage_body_respects|].
    intros rs. apply IH.
Qed.

End Engage.
End PipelineRespects.

(** ** The orchestrator: posts already commented on are left alone *)

Section EngineDedup.
Context {E : Type} `{PyLib}.
Variable adapters : Adapters E.
Variable llm : option (LLM E).

Lemma on_engagement_quiet :
  quiet (E := E) (Some SocialEngagementEngine._on_engagement).
Proof.
  intros cb [= <-] post r w. unfold SocialEngagementEngine._on_engagement.
  apply record_trace.
Qed.

Lemma about_avoids (config : EngagementConfig) (post : Post) (id : string) (ev : Event) :
  Post.post_id post <> id -> about config post ev -> avoids id ev.
Proof. intros Hid. destruct ev; cbn; try tauto; intros ->; exact Hid. Qed.

Lemma flatten_avoids (config : EngagementConfig) (id : string) (posts : list Post)
    (chunks : list (Post * Z * list Event)) :
  Forall (fun p => Post.post_id p <> id) posts ->
  map (fun c => fst (fst c)) chunks `prefix_of` posts ->
  Forall (fun c => Forall (about config (fst (fst c))) (snd c)) chunks ->
  Forall (avoids id) (flatten chunks).
Proof.
  intros Hposts [rest ->] Hchunks. apply Forall_app in Hposts as [Hposts _].
  induction Hchunks as [|[[post d] evs] chunks Hab _ IH]; [constructor|].
  cbn [map fst] in Hposts. apply Forall_cons in Hposts as [Hid Hposts].
  rewrite flatten_cons. apply Forall_app. split; [|apply IH, Hposts].
  cbn. constructor; [exact I|].
  eapply Forall_impl; [exact Hab|]. intros ev. apply about_avoids, Hid.
Qed.

Lemma engage_avoids (id : string) (posts : list Post) (adapter : PlatformAdapter E)
    (config : EngagementConfig) :
  Forall (fun p => Post.post_id p <> id) posts ->
  respects (trace_grows (avoids id))
    (Engagement.engage llm posts adapter config
       (Some SocialEngagementEngine._on_engagement)).
Proof.
  intros Hposts w.
  destruct (Engagement.engage llm posts adapter config
              (Some SocialEngagementEngine._on_engagement) w) as [r w'] eqn:Hrun.
  apply (engage_loop_run _ _ _ _ _ on_engagement_quiet) in Hrun.
  destruct Hrun as (chunks & Htr & Hpre & Hok & _).
  exists (flatten chunks). split; [exact Htr|].
  eapply flatten_avoids; [exact Hposts | exact Hpre |].
  eapply Forall_impl; [exact Hok|]. intros c [_ Hab]. exact Hab.
Qed.

Lemma engage_ledger (posts : list Post) (adapter : PlatformAdapter E)
    (config : EngagementConfig) :
  respects ledger_grows
    (Engagement.engage llm posts adapter config
       (Some SocialEngagementEngine._on_engagement)).
Proof.
  apply engage_loop_respects; try typeclasses eauto.
  - apply ledger_grows_frame.
  - apply respects_emit_ledger.
  - intros cb [= <-] post r. apply record_respects_ledger.
Qed.

(** Phase 2 keeps the candidates whose post has no comment record, and
    changes nothing. *)
Lemma filter_engaged_loop (discovered acc : list DiscoveredPost) (w : World E) :
  for_each discovered
    (fun d to_engage =>
       already <- Analytics.is_engaged (Post.post_id (DiscoveredPost.post d)) ;;
       ret (if negb already then to_engage ++ [d] else to_engage))
    acc w
  = (Ok (acc ++ List.filter
                  (fun d => negb (0 <? Analytics.count_comments
                                         (Post.post_id (DiscoveredPost.post d))
                                         (World.db w)))
                  discovered), w).
Proof.
  revert acc. induction discovered as [|d discovered IH]; intros acc.
  - cbn. rewrite app_nil_r. reflexivity.
  - rewrite (for_each_cons_ok _ d discovered acc
               (if negb (0 <? Analytics.count_comments
                                (Post.post_id (DiscoveredPost.post d)) (World.db w))
                then acc ++ [d] else acc) w w) by reflexivity.
    cbn [List.filter]. destruct (negb _).
    + rewrite IH, <- app_assoc. reflexivity.
    + rewrite IH. reflexivity.
Qed.

Lemma filter_engaged_run (discovered : list DiscoveredPost) (w : World E) :
  SocialEngagementEngine.filter_engaged discovered w
  = (Ok (List.filter
           (fun d => negb (0 <? Analytics.count_comments
                                  (Post.post_id (DiscoveredPost.post d)) (World.db w)))
           discovered), w).
Proof. apply (filter_engaged_loop discovered []). Qed.

Lemma engage_platform_ledger (config : EngagementConfig)
    (to_engage : list DiscoveredPost) (platform : Platform)
    (results : SocialEngagementEngine.Results) :
  respects ledger_grows
    (SocialEngagementEngine.engage_platform adapters llm config to_engage platform results).
Proof.
  unfold SocialEngagementEngine.engage_platform.
  destruct (adapters platform) as [adapter|]; [|apply respects_ret; typeclasses eauto].
  apply respects_bind; try typeclasses eauto; [apply respects_emit_ledger|intros []].
  apply respects_bind; try typeclasses eauto; [apply engage_ledger|intros rs].
  apply respects_ret. typeclasses eauto.
Qed.

Lemma engage_platform_avoids (id : string) (config : EngagementConfig)
    (to_engage : list DiscoveredPost) (platform : Platform)
    (results : SocialEngagementEngine.Results) :
  Forall (fun d => Post.post_id (DiscoveredPost.post d) <> id) to_engage ->
  respects (trace_grows (avoids id))
    (SocialEngagementEngine.engage_platform adapters llm config to_engage platform results).
Proof.
  intros Hto. unfold SocialEngagementEngine.engage_platform.
  destruct (adapters platform) as [adapter|]; [|apply respects_ret; typeclasses eauto].
  assert (Forall (fun p => Post.post_id p <> id)
            (map DiscoveredPost.post
               (filter (fun d => Post.platform (DiscoveredPost.post d) = platform)
                       to_engage))) as Hposts.
  { apply Forall_fmap. apply Forall_forall. intros d Hd.
    apply list_elem_of_filter in Hd as [_ Hd].
    rewrite Forall_forall in Hto. apply Hto, Hd. }
  apply respects_bind; try typeclasses eauto; [|intros []].
  { apply respects_emit_trace. exact Hposts. }
  apply respects_bind; try typeclasses eauto; [apply engage_avoids, Hposts|intros rs].
  apply respects_ret. typeclasses eauto.
Qed.

Lemma discover_and_engage_ledger (audience : TargetAudience)
    (dconfig : DiscoveryConfig) (econfig : EngagementConfig) :
  respects ledger_grows
    (SocialEngagementEngine.discover_and_engage adapters llm audience dconfig econfig).
Proof.
  unfold SocialEngagementEngine.discover_and_engage.
  apply respects_bind; try typeclasses eauto; [|intros discovered].
  { apply discover_respects; try typeclasses eauto; [apply ledger_grows_frame|].
    intros. apply respects_emit_ledger. }
  apply respects_bind; try typeclasses eauto; [|intros to_engage].
  { destruct (EngagementConfig.skip_already_engaged econfig).
    - intros w. rewrite filter_engaged_run. reflexivity.
    - apply respects_ret. typeclasses eauto. }
  apply respects_for_each; [typeclasses eauto|]. intros platform results _.
  apply engage_platform_ledger.
Qed.

Lemma discover_and_engage_avoids (id : string) (audience : TargetAudience)
    (dconfig : DiscoveryConfig) (econfig : EngagementConfig) (w : World E) :
  commented id (World.db w) ->
  EngagementConfig.skip_already_engaged econfig = true ->
  trace_grows (avoids id) w
    (snd (SocialEngagementEngine.discover_and_engage adapters llm audience dconfig
            econfig w)).
Proof.
  intros Hcommented Hskip. unfold SocialEngagementEngine.discover_and_engage.
  rewrite Hskip. unfold bind at 1.
  pose proof (discover_respects same_db same_db_frame adapters
                (fun _ _ _ _ _ => respects_emit_same_db _) dconfig w) as Hdb.
  pose proof (discover_respects (trace_grows (avoids id)) (trace_grows_frame _) adapters
                (fun p q h l z => respects_emit_trace (avoids id) (EvSearch p q h l z) I) dconfig w) as Htr.
  destruct (Discovery.discover adapters dconfig w) as [[discovered|e] w1];
    cbn [fst snd] in *; [|exact Htr].
  unfold bind at 1. rewrite filter_engaged_run.
  etransitivity; [exact Htr|].
  apply respects_for_each; [typeclasses eauto|]. intros platform results _.
  apply engage_platform_avoids.
  apply Forall_forall. intros d Hd. apply list_elem_of_In, filter_In in Hd as [_ Hd].
  intros Heq. rewrite Heq, Hdb in Hd. unfold commented in Hcommented.
  destruct (Z.ltb_spec 0 (Analytics.count_comments id (World.db w))); [discriminate|lia].
Qed.

Lemma run_calls_ledger (calls : list ApiCall) :
  forall w : World E, ledger_grows w (run_calls adapters llm calls w).
Proof.
  unfold run_calls. induction calls as [|c calls IH]; intros w; cbn [fold_left].
  - reflexivity.
  - etransitivity; [|apply IH].
    destruct c; cbn [run_call].
    + apply record_respects_ledger.
    + reflexivity.
    + unfold Analytics.get_daily_stats. destruct (_ || _); reflexivity.
    + apply discover_and_engage_ledger.
Qed.

(** What a comment record in the ledger entails, from then on. *)
Lemma commented_dedup (id : string) (w0 : World E) (later : list ApiCall) :
  commented id (World.db w0) ->
  let w := run_calls adapters llm later w0 in
  Analytics.is_engaged id w = (Ok true, w)
  /\ forall audience dconfig econfig,
       EngagementConfig.skip_already_engaged econfig = true ->
       trace_grows (avoids id) w
         (snd (SocialEngagementEngine.discover_and_engage adapters llm audience dconfig
                 econfig w)).
Proof.
  intros Hcommented w.
  assert (commented id (World.db w)) as Hw.
  { eapply commented_grows; [apply run_calls_ledger | exact Hcommented]. }
  split.
  - rewrite is_engaged_run. unfold commented in Hw.
    destruct (Z.ltb_spec 0 (Analytics.count_comments id (World.db w))); [reflexivity|lia].
  - intros audience dconfig econfig Hskip. apply discover_and_engage_avoids; assumption.
Qed.

(** C2.  Once [record] has been called with a successful comment outcome for
    a post, then after any further calls of the engine [is_engaged] returns
    true for that post, and a [discover_and_engage] whose configuration sets
    [skip_already_engaged] adds to the trace no engagement of that post: no
    list handed to the executor contains it, and no comment and no callback
    concerns it. *)
Theorem dedup_after_successful_comment (result : EngagementResult)
    (post_author comment : string) (w0 : World E) (later : list ApiCall) :
  EngagementResult.action result = "comment" ->
  EngagementResult.success result = true ->
  let id := EngagementResult.post_id result in
  let w := run_calls adapters llm later
             (snd (Analytics.record result post_author comment w0)) in
  Analytics.is_engaged id w = (Ok true, w)
  /\ forall audience dconfig econfig,
       EngagementConfig.skip_already_engaged econfig = true ->
       trace_grows (avoids id) w
         (snd (SocialEngagementEngine.discover_and_engage adapters llm audience dconfig
                 econfig w)).
Proof.
  intros Haction _ id w. apply commented_dedup, record_commented, Haction.
Qed.

(** C9.  [is_engaged] answers by the comment records of the ledger alone: it
    is true for a post exactly when the ledger holds a comment record of it.
    So when the callback of the orchestrator records a failed comment outcome
    for a post, the answer for that post becomes true whatever it was (it was
    false if the ledger held no comment record of the post) and the answers
    for the other posts stay as they were; the ledger holds no successful
    record of the post (if it held none before), and yet [is_engaged] returns
    true for it from then on, and a [discover_and_engage] whose configuration
    sets [skip_already_engaged] never engages it again. *)
Theorem failed_comment_blocks_retry (post : Post) (result : EngagementResult)
    (w0 : World E) (later : list ApiCall) :
  EngagementResult.action result = "comment" ->
  EngagementResult.success result = false ->
  let id := EngagementResult.post_id result in
  let w1 := snd (SocialEngagementEngine._on_engagement post result w0) in
  let w := run_calls adapters llm later w1 in
  (Forall (fun row => EngagementRecord.post_id row = id -> EngagementRecord.success row = 0)
          (Database.engagements (World.db w0)) ->
   Forall (fun row => EngagementRecord.post_id row = id -> EngagementRecord.success row = 0)
          (Database.engagements (World.db w1)))
  /\ Analytics.is_engaged id w = (Ok true, w)
  /\ (forall audience dconfig econfig,
       EngagementConfig.skip_already_engaged econfig = true ->
       trace_grows (avoids id) w
         (snd (SocialEngagementEngine.discover_and_engage adapters llm audience dconfig
                 econfig w)))
  /\ (forall id',
        Analytics.is_engaged id' w0
        = (Ok (bool_decide (0 < Analytics.count_comments id' (World.db w0))), w0)
        /\ Analytics.is_engaged id' w1
           = (Ok (bool_decide (id' = id
                               \/ 0 < Analytics.count_comments id' (World.db w0))), w1))
  /\ (Analytics.count_comments id (World.db w0) = 0 ->
      Analytics.is_engaged id w0 = (Ok false, w0)
      /\ Analytics.is_engaged id w1 = (Ok true, w1)).
Proof.
  intros Haction Hfailed id w1 w.
  assert (forall id',
             Analytics.is_engaged id' w0
             = (Ok (bool_decide (0 < Analytics.count_comments id' (World.db w0))), w0)
             /\ Analytics.is_engaged id' w1
                = (Ok (bool_decide (id' = id
                                    \/ 0 < Analytics.count_comments id' (World.db w0))), w1))
    as Hexact.
  { intros id'. rewrite !is_engaged_run. split.
    - f_equal. f_equal. destruct (Z.ltb_spec 0 (Analytics.count_comments id' (World.db w0)));
        [rewrite bool_decide_eq_true_2 | rewrite bool_decide_eq_false_2]; auto; lia.
    - f_equal. f_equal. unfold w1, SocialEngagementEngine._on_engagement.
      rewrite count_comments_record.
      assert (0 <= Analytics.count_comments id' (World.db w0)) as Hnonneg
        by (unfold Analytics.count_comments; lia).
      destruct (decide (id' = id)) as [->|Hother].
      + rewrite (bool_decide_eq_true_2 (_ /\ _)) by (split; [reflexivity | exact Haction]).
        rewrite bool_decide_eq_true_2 by (left; reflexivity).
        apply Z.ltb_lt. lia.
      + rewrite (bool_decide_eq_false_2 (_ /\ _)) by (intros [Heq _]; apply Hother; symmetry; exact Heq).
        rewrite Z.add_0_r.
        destruct (Z.ltb_spec 0 (Analytics.count_comments id' (World.db w0)));
          [rewrite bool_decide_eq_true_2 | rewrite bool_decide_eq_false_2]; auto.
        intros [? | ?]; [contradiction | lia]. }
  split; [|split; [|split; [|split]]].
  - intros Hbefore. unfold w1, SocialEngagementEngine._on_engagement, Analytics.record,
      bind, db_execute, datetime_now, ret.
    cbn. destruct (bool_decide _); cbn; apply Forall_app; (split; [exact Hbefore|]);
      repeat constructor; cbn; rewrite Hfailed; reflexivity.
  - apply commented_dedup. unfold SocialEngagementEngine._on_engagement.
    apply record_commented, Haction.
  - intros audience dconfig econfig Hskip.
    apply (commented_dedup id w1 later); [|exact Hskip].
    unfold w1, SocialEngagementEngine._on_engagement. apply record_commented, Haction.
  - exact Hexact.
  - intros Hnone. destruct (Hexact id) as [Hbefore Hafter].
    rewrite Hbefore, Hafter. split.
    + rewrite bool_decide_eq_false_2 by lia. reflexivity.
    + rewrite bool_decide_eq_true_2 by (left; reflexivity). reflexivity.
Qed.

End EngineDedup.

Lemma dedup_after_successful_comment_witness :
  let adapters := Sample.adapters (Sample.adapter Sample.three_posts) in
  let result := Sample.outcome true "comment" "p200" (Some "Nice route!") None in
  let w := snd (Analytics.record result "alice" "Nice route!" Sample.world) in
  let w' := snd (SocialEngagementEngine.discover_and_engage (H := Sample.lib) adapters None
                   Sample.audience (Sample.discovery_config 20)
                   (Sample.engagement_config 20 0 0) w) in
  Analytics.is_engaged "p200" w = (Ok true, w)
  /\ trace_grows (avoids "p200") w w'
  /\ Sample.attempted (World.trace w') = ["p80"; "p10"].
Proof.
  intros adapters result w w'.
  destruct (dedup_after_successful_comment (H := Sample.lib) adapters None result
              "alice" "Nice route!" Sample.world []) as [Hengaged Havoids].
  - reflexivity.
  - reflexivity.
  - split; [exact Hengaged|]. split; [|vm_compute; reflexivity].
    apply Havoids. reflexivity.
Defined.

Lemma failed_comment_blocks_retry_witness :
  let adapters := Sample.adapters (Sample.adapter Sample.three_posts) in
  let result :=
    Sample.outcome false "comment" "p200" None (Some "Comment box not found") in
  let w := snd (SocialEngagementEngine._on_engagement
                  (Sample.post "p200" 200 ["#climbing"]) result Sample.world) in
  let w' := snd (SocialEngagementEngine.discover_and_engage (H := Sample.lib) adapters None
                   Sample.audience (Sample.discovery_config 20)
                   (Sample.engagement_config 20 0 0) w) in
  map EngagementRecord.success (Database.engagements (World.db w)) = [0]
  /\ Analytics.is_engaged "p200" Sample.world = (Ok false, Sample.world)
  /\ Analytics.is_engaged "p200" w = (Ok true, w)
  /\ Analytics.is_engaged "p80" w = (Ok false, w)
  /\ trace_grows (avoids "p200") w w'.
Proof.
  intros adapters result w w'.
  destruct (failed_comment_blocks_retry (H := Sample.lib) adapters None
              (Sample.post "p200" 200 ["#climbing"]) result Sample.world [])
    as (_ & Hengaged & Havoids & Hexact & Hfresh).
  - reflexivity.
  - reflexivity.
  - split; [reflexivity|]. split; [apply Hfresh; reflexivity|].
    split; [exact Hengaged|]. split; [|apply Havoids; reflexivity].
    exact (proj2 (Hexact "p80")).
Defined.

(** ** Runs of the pipeline on examples *)

(** Three posts with 10, 80 and 200 likes, the last two tagged [#climbing],
    under [min_likes = 50], [max_likes = 10000] and [limit = 2]: two candidates,
    the post with 200 likes first. *)
Example discover_scenario :
  let config :=
    DiscoveryConfig.mk [INSTAGRAM] ["#climbing"] [] None 50 10000 24 2 [] [] in
  option_map (map (fun d => Post.post_id (DiscoveredPost.post d)))
    (match fst (Discovery.discover (H := Sample.lib)
                  (Sample.adapters (Sample.adapter Sample.three_posts)) config
                  Sample.world) with
     | Ok out => Some out
     | Raise _ => None
     end)
  = Some ["p200"; "p80"].
Proof. reflexivity. Qed.

(** Candidates of equal score keep the order of the source. *)
Example discover_ties_keep_order :
  match fst (Discovery.discover (H := Sample.lib)
               (Sample.adapters
                  (Sample.adapter [Sample.post "a" 100 []; Sample.post "b" 300 [];
                                   Sample.post "c" 100 []; Sample.post "d" 300 []]))
               (Sample.discovery_config 20) Sample.world) with
  | Ok out => map (fun d => Post.post_id (DiscoveredPost.post d)) out
  | Raise _ => []
  end
  = ["b"; "d"; "a"; "c"].
Proof. reflexivity. Qed.

(** Two rounds against an action capability that refuses every comment: the
    first round attempts the three posts and records three failures; the
    second round attempts nothing. *)
Example failed_comments_are_not_retried :
  let adapters := Sample.adapters (Sample.refusing_adapter Sample.three_posts) in
  let round :=
    SocialEngagementEngine.discover_and_engage (H := Sample.lib) adapters None
      Sample.audience (Sample.discovery_config 20) (Sample.engagement_config 20 0 0) in
  let w1 := snd (round Sample.world) in
  let w2 := snd (round w1) in
  Sample.attempted (World.trace w1) = ["p200"; "p80"; "p10"]
  /\ map EngagementRecord.success (Database.engagements (World.db w1)) = [0; 0; 0]
  /\ Sample.attempted (World.trace w2) = Sample.attempted (World.trace w1)
  /\ Database.engagements (World.db w2) = Database.engagements (World.db w1).
Proof. vm_compute. repeat split. Qed.

(** * Further properties of the code *)

(** ** Discovery: which posts survive *)

Section DiscoverSurvivors.
Context {E : Type} `{PyLib}.
Variable adapters : Adapters E.

Lemma get_reason_run (post : Post) (config : DiscoveryConfig) (w : World E) :
  match Post.timestamp post with Some ts => utcoffset ts = None | None => True end ->
  exists reason w',
    Discovery._get_reason post config w = (Ok reason, w') /\ World.ext w' = World.ext w.
Proof.
  intros Hts. unfold Discovery._get_reason, bind, ret, of_result, datetime_now.
  destruct (Post.timestamp post) as [ts|]; [|eexists _, _; split; reflexivity].
  unfold datetime_sub. cbn [naive utcoffset]. rewrite Hts.
  eexists _, _. split; reflexivity.
Qed.

Lemma scorable_timestamp (post : Post) :
  scorable post = true ->
  match Post.timestamp post with Some ts => utcoffset ts = None | None => True end.
Proof.
  unfold scorable. intros Hs. apply andb_prop in Hs as [_ Hts].
  destruct (Post.timestamp post); [apply bool_decide_eq_true in Hts; exact Hts | exact I].
Qed.

(** [_evaluate_post] returns nothing for a post that fails a filter, a
    candidate for a post that passes them and can be scored, and raises for a
    post that passes them and cannot. *)
Lemma evaluate_post_run (post : Post) (config : DiscoveryConfig) (w : World E) :
  exists w',
    World.ext w' = World.ext w
    /\ ((admissible config post /\ scorable post = true
         /\ exists score reason,
              Discovery._evaluate_post post config w
              = (Ok (Some (DiscoveredPost.mk post score reason [])), w'))
        \/ (~ admissible config post
            /\ Discovery._evaluate_post post config w = (Ok None, w'))
        \/ (admissible config post /\ scorable post = false
            /\ exists e, Discovery._evaluate_post post config w = (Raise e, w'))).
Proof.
  unfold Discovery._evaluate_post, admissible.
  destruct (bool_decide_reflect (Post.author post ∈ DiscoveryConfig.exclude_users config))
    as [Hauthor|Hauthor].
  { exists w. split; [reflexivity|]. right. left. split; [tauto | reflexivity]. }
  destruct (existsb _ (Post.hashtags post)) eqn:Htags.
  { exists w. split; [reflexivity|]. right. left. split; [|reflexivity].
    intros (_ & Hall & _). apply existsb_exists in Htags as (h & Hin & Hh).
    apply bool_decide_eq_true in Hh. rewrite Forall_forall in Hall.
    apply (Hall h); [apply list_elem_of_In, Hin | exact Hh]. }
  destruct (Z.ltb_spec (Post.likes post) (DiscoveryConfig.min_likes config)) as [Hlo|Hlo].
  { exists w. split; [reflexivity|]. right. left. split; [|reflexivity]. lia. }
  destruct (Z.ltb_spec (DiscoveryConfig.max_likes config) (Post.likes post)) as [Hhi|Hhi].
  { exists w. split; [reflexivity|]. right. left. split; [|reflexivity]. lia. }
  cbn [orb].
  assert ((Post.author post ∉ DiscoveryConfig.exclude_users config)
          /\ Forall (fun h => h ∉ DiscoveryConfig.exclude_hashtags config) (Post.hashtags post)
          /\ DiscoveryConfig.min_likes config <= Post.likes post
             <= DiscoveryConfig.max_likes config) as Hadm.
  { split; [exact Hauthor|]. split; [|lia].
    apply Forall_forall. intros h Hin Hex.
    apply not_true_iff_false in Htags. apply Htags, existsb_exists.
    exists h. split; [apply list_elem_of_In, Hin | apply bool_decide_eq_true, Hex]. }
  unfold bind.
  pose proof (calculate_score_run post config w) as Hrun.
  pose proof (calculate_score_frame post config w) as (Hx & _).
  destruct (Discovery._calculate_score post config w) as [[score|e] w1] eqn:Hscore;
    cbn [fst snd] in Hrun, Hx.
  - assert (scorable post = true) as Hscorable.
    { destruct (scorable post) eqn:Hs; [reflexivity|].
      destruct (score_at_not_scorable (now_of w) post config Hs) as [e He]. congruence. }
    destruct (get_reason_run post config w1 (scorable_timestamp post Hscorable))
      as (reason & w2 & -> & Hx2).
    exists w2. split; [congruence|]. left. split; [exact Hadm|].
    split; [exact Hscorable|]. eexists _, _. reflexivity.
  - exists w1. split; [exact Hx|]. right. right. split; [exact Hadm|]. split.
    + destruct (scorable post) eqn:Hs; [|reflexivity].
      destruct (score_at_scorable (now_of w) post config Hs) as [s Hs']. congruence.
    + eexists. reflexivity.
Qed.

Lemma evaluate_posts_run (config : DiscoveryConfig) (posts : list Post) :
  forall (results : list DiscoveredPost) (w : World E),
  exists ds w',
    for_each_try posts
      (fun post results =>
         discovered <- Discovery._evaluate_post post config ;;
         ret (match discovered with
              | Some d => results ++ [d]
              | None => results
              end))
      results w
    = (Ok (results ++ ds), w')
    /\ map DiscoveredPost.post ds = survivors config posts
    /\ Forall (fun d => DiscoveredPost.filters_passed d = []) ds
    /\ World.ext w' = World.ext w.
Proof.
  induction posts as [|post posts IH]; intros results w.
  - exists [], w. cbn. rewrite app_nil_r. repeat split. constructor.
  - cbn [survivors].
    destruct (evaluate_post_run post config w)
      as (w1 & Hext & [(Hadm & Hscorable & score & reason & Hrun)
                      | [(Hadm & Hrun) | (Hadm & Hscorable & e & Hrun)]]).
    + destruct (IH (results ++ [DiscoveredPost.mk post score reason []]) w1)
        as (ds & w' & Hloop & Hposts & Hpassed & Hext').
      exists (DiscoveredPost.mk post score reason [] :: ds), w'.
      split; [|split; [|split]].
      * erewrite for_each_try_cons_ok; [|unfold bind; rewrite Hrun; reflexivity].
        rewrite Hloop, <- app_assoc. reflexivity.
      * rewrite decide_True by exact Hadm. rewrite Hscorable. cbn. rewrite Hposts.
        reflexivity.
      * constructor; [reflexivity | exact Hpassed].
      * congruence.
    + destruct (IH results w1) as (ds & w' & Hloop & Hposts & Hpassed & Hext').
      exists ds, w'. split; [|split; [|split]].
      * erewrite for_each_try_cons_ok; [|unfold bind; rewrite Hrun; reflexivity].
        exact Hloop.
      * rewrite decide_False by exact Hadm. exact Hposts.
      * exact Hpassed.
      * congruence.
    + exists [], w1. rewrite app_nil_r. split; [|split; [|split]].
      * eapply for_each_try_cons_raise. unfold bind. rewrite Hrun. reflexivity.
      * rewrite decide_True by exact Hadm. rewrite Hscorable. reflexivity.
      * constructor.
      * exact Hext.
Qed.

Lemma collect_run (config : DiscoveryConfig) (platforms : list Platform) :
  forall (results : list DiscoveredPost) (w : World E),
  exists ds w',
    for_each platforms (Discovery.discover_platform adapters config) results w
    = (Ok (results ++ ds), w')
    /\ map DiscoveredPost.post ds
       = concat (map (survivors config)
                     (fst (search_all adapters config platforms (World.ext w))))
    /\ Forall (fun d => DiscoveredPost.filters_passed d = []) ds
    /\ World.ext w' = snd (search_all adapters config platforms (World.ext w)).
Proof.
  induction platforms as [|platform platforms IH]; intros results w.
  - exists [], w. cbn. rewrite app_nil_r. repeat split. constructor.
  - cbn [search_all].
    destruct (adapters platform) as [adapter|] eqn:Hadapter.
    2:{ destruct (IH results w) as (ds & w' & Hloop & Hrest).
        exists ds, w'. split; [|exact Hrest].
        erewrite for_each_cons_ok; [exact Hloop|].
        unfold Discovery.discover_platform. rewrite Hadapter. reflexivity. }
    set (query := match DiscoveryConfig.keywords config with
                  | [] => None
                  | kws => Some (join " " kws)
                  end).
    set (ev := EvSearch platform query (DiscoveryConfig.hashtags config)
                 (DiscoveryConfig.location config) (DiscoveryConfig.limit config)).
    destruct (PlatformAdapter.search_posts adapter query (DiscoveryConfig.hashtags config)
                (DiscoveryConfig.location config) (DiscoveryConfig.limit config)
                (World.ext w)) as [answer x'] eqn:Hsearch.
    assert (exists ds1 w1,
               Discovery.discover_platform adapters config platform results w
               = (Ok (results ++ ds1), w1)
               /\ map DiscoveredPost.post ds1
                  = survivors config
                      (match answer with Ok posts => posts | Raise _ => [] end)
               /\ Forall (fun d => DiscoveredPost.filters_passed d = []) ds1
               /\ World.ext w1 = x') as (ds1 & w1 & Hplat & Hposts1 & Hpassed1 & Hext1).
    { unfold Discovery.discover_platform. rewrite Hadapter.
      fold query. fold ev. unfold try_except, bind at 1, emit at 1.
      unfold bind at 1, external. cbn [World.ext]. rewrite Hsearch.
      destruct answer as [posts|e].
      - match goal with
        | |- context [for_each_try posts ?body results ?w2] =>
            destruct (evaluate_posts_run config posts results w2)
              as (ds1 & w1 & Hloop & Hrest)
        end.
        exists ds1, w1. rewrite Hloop. split; [reflexivity|].
        destruct Hrest as (Hp & Hf & He). split; [exact Hp|]. split; [exact Hf|].
        rewrite He. reflexivity.
      - eexists [], _. rewrite app_nil_r. split; [reflexivity|].
        split; [reflexivity|]. split; [constructor | reflexivity]. }
    destruct (IH (results ++ ds1) w1) as (ds & w' & Hloop & Hposts & Hpassed & Hext).
    rewrite Hext1 in Hposts, Hext.
    destruct (search_all adapters config platforms x') as [rest x''].
    cbn [fst snd] in *.
    exists (ds1 ++ ds), w'. split; [|split; [|split]].
    + erewrite for_each_cons_ok; [|exact Hplat]. rewrite Hloop, <- app_assoc. reflexivity.
    + cbn [map concat]. rewrite map_app, Hposts1, Hposts. reflexivity.
    + apply Forall_app. split; assumption.
    + exact Hext.
Qed.

Lemma elem_of_concat {A : Type} (x : A) (ls : list (list A)) :
  x ∈ concat ls <-> exists l, x ∈ l /\ l ∈ ls.
Proof.
  induction ls as [|l ls IH]; cbn [concat].
  - split; [intros Hx; apply elem_of_nil in Hx; contradiction|].
    intros (l & _ & Hl). apply elem_of_nil in Hl. contradiction.
  - rewrite elem_of_app, IH. split.
    + intros [Hx | (l' & Hx & Hl')].
      * exists l. split; [exact Hx | left].
      * exists l'. split; [exact Hx | right; exact Hl'].
    + intros (l' & Hx & Hl'). apply elem_of_cons in Hl' as [-> | Hl'].
      * left. exact Hx.
      * right. exists l'. split; assumption.
Qed.

Lemma survivors_elem (config : DiscoveryConfig) (posts : list Post) (post : Post) :
  post ∈ survivors config posts ->
  post ∈ posts /\ admissible config post /\ scorable post = true.
Proof.
  induction posts as [|p posts IH]; cbn [survivors]; intros Hin.
  - apply elem_of_nil in Hin. contradiction.
  - destruct (decide (admissible config p)) as [Hadm|Hadm].
    + destruct (scorable p) eqn:Hs; [|apply elem_of_nil in Hin; contradiction].
      apply elem_of_cons in Hin as [-> | Hin].
      * split; [left | split; assumption].
      * destruct (IH Hin) as (Hp & Hrest). split; [right; exact Hp | exact Hrest].
    + destruct (IH Hin) as (Hp & Hrest). split; [right; exact Hp | exact Hrest].
Qed.

Lemma survivors_all (config : DiscoveryConfig) (posts : list Post) :
  Forall (fun post => admissible config post -> scorable post = true) posts ->
  survivors config posts = filter (admissible config) posts.
Proof.
  induction 1 as [|p posts Hp _ IH]; [reflexivity|].
  cbn [survivors]. rewrite filter_cons.
  destruct (decide (admissible config p)) as [Hadm|Hadm]; [|exact IH].
  rewrite (Hp Hadm), IH. reflexivity.
Qed.

(** X1.  Of the list a source returns, [discover] turns into candidates the
    posts that pass the three filters of [_evaluate_post] (author not
    excluded, no excluded hashtag, like count within the range), in the order
    of the source and each post carried unchanged, up to the first of them
    whose evaluation raises: that exception is caught, the candidates found
    so far are kept, and the rest of that source's list is lost.  So when
    every post that passes the filters can be scored, the candidates are
    exactly the posts that pass the filters.  A source that raises and a
    platform without adapter contribute nothing, and nothing stops the other
    platforms.  Every candidate [discover] returns is one of them, and its
    [filters_passed] is the empty list. *)
Theorem discover_keeps_admissible_posts (config : DiscoveryConfig) (w : World E) :
  let sources :=
    fst (search_all adapters config (DiscoveryConfig.platforms config) (World.ext w)) in
  exists merged out w',
    Discovery.collect adapters config w = (Ok merged, w')
    /\ Discovery.discover adapters config w = (Ok out, w')
    /\ map DiscoveredPost.post merged = concat (map (survivors config) sources)
    /\ (Forall (fun post => admissible config post -> scorable post = true)
               (concat sources) ->
        map DiscoveredPost.post merged = filter (admissible config) (concat sources))
    /\ World.ext w'
       = snd (search_all adapters config (DiscoveryConfig.platforms config) (World.ext w))
    /\ Forall (fun d =>
                 d ∈ merged
                 /\ admissible config (DiscoveredPost.post d)
                 /\ scorable (DiscoveredPost.post d) = true
                 /\ DiscoveredPost.post d ∈ concat sources
                 /\ DiscoveredPost.filters_passed d = []) out.
Proof.
  intros sources.
  destruct (collect_run config (DiscoveryConfig.platforms config) [] w)
    as (merged & w' & Hcollect & Hposts & Hpassed & Hext).
  cbn [app] in Hcollect. fold sources in Hposts.
  exists merged, (slice_to (sort_reverse DiscoveredPost.engagement_score merged)
                           (DiscoveryConfig.limit config)), w'.
  split; [exact Hcollect|]. split.
  { unfold Discovery.discover, bind. unfold Discovery.collect. rewrite Hcollect.
    reflexivity. }
  split; [exact Hposts|]. split; [|split; [exact Hext|]].
  { intros Hall. rewrite Hposts. clear Hposts. induction sources as [|posts sources IH].
    - reflexivity.
    - cbn [map concat] in *. apply Forall_app in Hall as [Hhere Hrest].
      rewrite filter_app, (survivors_all config posts Hhere), (IH Hrest). reflexivity. }
  apply Forall_forall. intros d Hd.
  assert (d ∈ merged) as Hin.
  { destruct (slice_to_take (sort_reverse DiscoveredPost.engagement_score merged)
                (DiscoveryConfig.limit config)) as [k Hk].
    rewrite Hk in Hd. eapply elem_of_sublist in Hd; [|apply sublist_take].
    rewrite sort_reverse_Permutation in Hd. exact Hd. }
  split; [exact Hin|].
  assert (DiscoveredPost.post d ∈ concat (map (survivors config) sources)) as Hsurv.
  { rewrite <- Hposts. apply list_elem_of_fmap. exists d. split; [reflexivity | exact Hin]. }
  apply elem_of_concat in Hsurv as (posts' & Hd' & Hposts').
  apply list_elem_of_fmap in Hposts' as (posts & -> & Hsrc).
  apply survivors_elem in Hd' as (Hp & Hadm & Hscorable).
  split; [exact Hadm|]. split; [exact Hscorable|]. split.
  - apply elem_of_concat. exists posts. split; assumption.
  - rewrite Forall_forall in Hpassed. apply Hpassed, Hin.
Qed.

(** X2.  [discover] keeps the best candidates: its result followed by the
    candidates it drops is a rearrangement of the collected candidates, no
    dropped candidate scores higher than a kept one, and for a limit that is
    not negative the result has exactly [min(limit, number of candidates)]
    entries, so nothing is dropped when the limit is large enough. *)
Theorem discover_keeps_top_scores (config : DiscoveryConfig) (w : World E) :
  exists merged out dropped w',
    Discovery.collect adapters config w = (Ok merged, w')
    /\ Discovery.discover adapters config w = (Ok out, w')
    /\ out ++ dropped ≡ₚ merged
    /\ (forall kept lost,
          kept ∈ out -> lost ∈ dropped ->
          (DiscoveredPost.engagement_score lost
           <= DiscoveredPost.engagement_score kept)%Q)
    /\ (0 <= DiscoveryConfig.limit config ->
        length out
        = Nat.min (length merged) (Z.to_nat (DiscoveryConfig.limit config))).
Proof.
  destruct (collect_total adapters config w) as (merged & w' & Hcollect).
  set (sorted := sort_reverse DiscoveredPost.engagement_score merged).
  destruct (slice_to_take sorted (DiscoveryConfig.limit config)) as [k Hk].
  exists merged, (slice_to sorted (DiscoveryConfig.limit config)), (drop k sorted), w'.
  split; [exact Hcollect|]. split.
  { unfold Discovery.discover, bind. rewrite Hcollect. reflexivity. }
  split; [|split].
  - rewrite Hk, take_drop. apply sort_reverse_Permutation.
  - intros kept lost Hkept Hlost. rewrite Hk in Hkept.
    pose proof (sort_reverse_descending DiscoveredPost.engagement_score merged) as Hsorted.
    fold sorted in Hsorted. unfold descending in Hsorted.
    rewrite <- (take_drop k sorted) in Hsorted.
    apply (StronglySorted_app_1_elem_of _ _ _ kept lost Hsorted Hkept Hlost).
  - intros Hlimit. unfold slice_to.
    destruct (Z.leb_spec 0 (DiscoveryConfig.limit config)); [|lia].
    rewrite length_take. unfold sorted.
    rewrite (Permutation_length (sort_reverse_Permutation _ merged)). lia.
Qed.

End DiscoverSurvivors.

(** ** Discovery: bounds of the score, and what a discovery does *)

Section ScoreBounds.
Context {E : Type} `{PyLib}.

Lemma fold_bonus_le {A : Type} (hit : A -> bool) (bonus bound : Z) (l : list A) (s : Q) :
  0 <= bonus -> 0 <= bound ->
  bound + bonus * Z.of_nat (length l) <= 2 ^ 53 ->
  (s <= inject_Z bound)%Q ->
  (fold_left (fun score x => if hit x then float_add score (inject_Z bonus) else score) l s
   <= inject_Z (bound + bonus * Z.of_nat (length l)))%Q.
Proof.
  intros Hbonus. revert s bound. induction l as [|x l IH]; intros s bound Hbound Hfit Hs.
  - cbn [fold_left length]. replace (bound + bonus * Z.of_nat 0) with bound by lia.
    exact Hs.
  - cbn [fold_left length] in Hfit |- *. rewrite Nat2Z.inj_succ in Hfit |- *.
    destruct (hit x).
    + replace (bound + bonus * Z.succ (Z.of_nat (length l)))
        with ((bound + bonus) + bonus * Z.of_nat (length l)) by lia.
      apply IH; [lia | nia |].
      apply float_add_le; [rewrite inject_Z_plus; lra | nia].
    + eapply Qle_trans; [apply (IH s bound Hbound); [nia | exact Hs]|].
      rewrite <- Zle_Qle. nia.
Qed.

Lemma with_recency_is_float hours_old score :
  is_float score -> is_float (with_recency hours_old score).
Proof.
  intros Hs. unfold with_recency.
  destruct (Qltb hours_old 1), (Qltb hours_old 6), (Qltb hours_old 24);
    try apply float_add_is_float; exact Hs.
Qed.

Lemma with_recency_ge hours_old score :
  is_float score -> (score <= with_recency hours_old score)%Q.
Proof.
  intros Hs. unfold with_recency.
  destruct (Qltb hours_old 1); [apply float_add_ge; [exact Hs | discriminate]|].
  destruct (Qltb hours_old 6); [apply float_add_ge; [exact Hs | discriminate]|].
  destruct (Qltb hours_old 24); [apply float_add_ge; [exact Hs | discriminate]|].
  apply Qle_refl.
Qed.

Lemma with_recency_le hours_old score :
  (score <= 10)%Q -> (with_recency hours_old score <= inject_Z 15)%Q.
Proof.
  intros Hs. unfold with_recency. change (inject_Z 15) with 15%Q.
  destruct (Qltb hours_old 1);
    [apply (float_add_le score 5 15); [change (inject_Z 15) with 15%Q; lra | lia]|].
  destruct (Qltb hours_old 6);
    [apply (float_add_le score 3 15); [change (inject_Z 15) with 15%Q; lra | lia]|].
  destruct (Qltb hours_old 24);
    [apply (float_add_le score 1 15); [change (inject_Z 15) with 15%Q; lra | lia]|].
  lra.
Qed.

Lemma with_relevance_ge post config score :
  is_float score -> (score <= with_relevance post config score)%Q.
Proof.
  intros Hs. unfold with_relevance.
  eapply Qle_trans;
    [|apply (fold_bonus_ge _ 3); [discriminate | apply fold_bonus_is_float, Hs]].
  apply (fold_bonus_ge _ 2); [discriminate | exact Hs].
Qed.

Lemma with_relevance_le post config score (bound : Z) :
  0 <= bound ->
  bound + 2 * Z.of_nat (length (Post.hashtags post))
  + 3 * Z.of_nat (length (DiscoveryConfig.keywords config)) <= 2 ^ 53 ->
  (score <= inject_Z bound)%Q ->
  (with_relevance post config score
   <= inject_Z (bound + 2 * Z.of_nat (length (Post.hashtags post))
                + 3 * Z.of_nat (length (DiscoveryConfig.keywords config))))%Q.
Proof.
  intros Hbound Hfit Hs. unfold with_relevance.
  apply (fold_bonus_le _ 3); [lia | lia | exact Hfit |].
  apply (fold_bonus_le _ 2); [lia | lia | lia | exact Hs].
Qed.

(** The like term: the quotient capped at 10, which the first addition to
    [0.0] leaves as it is. *)
Lemma like_term_base (likes : Z) (quotient : Q) :
  int_truediv likes 100 = Ok quotient ->
  let base := float_add 0 (Qmin quotient 10) in
  is_float base /\ (base == Qmin quotient 10)%Q /\ (base <= 10)%Q
  /\ (1000 <= likes -> (base == 10)%Q).
Proof.
  intros Hq base. apply int_truediv_ok in Hq.
  assert (is_float (Qmin quotient 10)) as Hfloat.
  { destruct (Q.min_spec quotient 10) as [[_ Heq] | [_ Heq]].
    - destruct (round64_is_float (inject_Z likes / inject_Z 100)) as (m & e & Hm & He & Hv).
      exists m, e. split; [exact Hm|]. split; [exact He|]. rewrite Heq, Hq. exact Hv.
    - destruct (is_float_Z 10 ltac:(lia)) as (m & e & Hm & He & Hv).
      exists m, e. split; [exact Hm|]. split; [exact He|]. rewrite Heq. exact Hv. }
  assert (base == Qmin quotient 10)%Q as Hbase.
  { unfold base, float_add. rewrite <- (round64_fix _ Hfloat) at 2.
    rewrite (round64_comp (0 + Qmin quotient 10) (Qmin quotient 10)); [reflexivity | ring]. }
  split; [apply float_add_is_float|]. split; [exact Hbase|]. split.
  - rewrite Hbase. apply Q.le_min_r.
  - intros Hl. rewrite Hbase. apply Q.min_r. subst quotient.
    rewrite <- (round64_Z 10) by lia. apply round64_mono.
    rewrite Zle_Qle in Hl. change (inject_Z 100) with 100%Q.
    apply Qle_shift_div_l; [reflexivity | exact Hl].
Qed.

(** X3.  For a post that can be scored the score is a double that lies
    between the like term, which is the rounded quotient [likes / 100] capped
    at 10, and [15 + 2 * len(post.hashtags) + 3 * len(config.keywords)] (as
    long as that bound is at most [2**53], so that it is a double itself): at
    most 5 for recency, 2 for every hashtag of the post and 3 for every
    configured keyword.  The like term saturates: from 1000 likes on, more
    likes do not change the score as long as the post can still be scored. *)
Theorem calculate_score_bounds (post : Post) (config : DiscoveryConfig) (w : World E) :
  scorable post = true ->
  15 + 2 * Z.of_nat (length (Post.hashtags post))
  + 3 * Z.of_nat (length (DiscoveryConfig.keywords config)) <= 2 ^ 53 ->
  exists quotient s,
    int_truediv (Post.likes post) 100 = Ok quotient
    /\ fst (Discovery._calculate_score post config w) = Ok s
    /\ is_float s
    /\ (Qmin quotient 10 <= s)%Q
    /\ (s <= inject_Z (15 + 2 * Z.of_nat (length (Post.hashtags post))
                       + 3 * Z.of_nat (length (DiscoveryConfig.keywords config))))%Q
    /\ (forall more : Z,
           1000 <= Post.likes post -> 1000 <= more ->
           scorable (Post.with_likes more post) = true ->
           fst (Discovery._calculate_score (Post.with_likes more post) config w) = Ok s).
Proof.
  intros Hscorable Hfit.
  destruct (score_at_scorable (now_of w) post config Hscorable) as [s Hs].
  rewrite calculate_score_run. pose proof Hs as Hrun. unfold score_at in Hs.
  destruct (int_truediv (Post.likes post) 100) as [quotient|e] eqn:Hq; [|discriminate].
  exists quotient, s. split; [reflexivity|]. split; [exact Hrun|].
  destruct (like_term_base _ _ Hq) as (Hfloat & Hbase & Hcap & Hsat).
  set (base := float_add 0 (Qmin quotient 10)) in *.
  assert (exists timed,
             s = with_relevance post config timed /\ is_float timed
             /\ (base <= timed)%Q /\ (timed <= inject_Z 15)%Q
             /\ forall base', base' = base ->
                   match Post.timestamp post with
                   | None => Ok (with_relevance post config base')
                   | Some ts =>
                       match datetime_sub (naive (now_of w)) ts with
                       | Raise e => Raise e
                       | Ok age =>
                           Ok (with_relevance post config
                                 (with_recency (float_div (total_seconds age) 3600) base'))
                       end
                   end = Ok s)
    as (timed & -> & Htimed & Hlow & Hhigh & Hsame).
  { destruct (Post.timestamp post) as [ts|].
    - destruct (datetime_sub (naive (now_of w)) ts) as [age|e]; [|discriminate].
      injection Hs as <-. eexists. split; [reflexivity|].
      split; [apply with_recency_is_float, Hfloat|].
      split; [apply with_recency_ge, Hfloat|].
      split; [apply with_recency_le, Hcap|]. intros base' ->. reflexivity.
    - injection Hs as <-. exists base. split; [reflexivity|]. split; [exact Hfloat|].
      split; [apply Qle_refl|]. split; [change (inject_Z 15) with 15%Q; lra|].
      intros base' ->. reflexivity. }
  split; [|split; [|split]].
  - unfold with_relevance. do 2 apply fold_bonus_is_float. exact Htimed.
  - rewrite <- Hbase. eapply Qle_trans; [exact Hlow|].
    apply with_relevance_ge, Htimed.
  - apply with_relevance_le; [lia | exact Hfit | exact Hhigh].
  - intros more Hpost Hmore Hmore_scorable. rewrite calculate_score_run.
    unfold score_at. cbn [Post.with_likes Post.likes Post.timestamp].
    destruct (int_truediv more 100) as [quotient'|e] eqn:Hq'.
    2:{ unfold scorable in Hmore_scorable. cbn [Post.with_likes Post.likes] in Hmore_scorable.
        rewrite Hq' in Hmore_scorable. discriminate. }
    destruct (like_term_base _ _ Hq') as (_ & _ & _ & Hsat').
    assert (float_add 0 (Qmin quotient' 10) = base) as Heq.
    { apply round64_canonical. fold (float_add 0 (Qmin quotient' 10)).
      fold (float_add 0 (Qmin quotient 10)). fold base.
      rewrite (Hsat Hpost), (Hsat' Hmore). reflexivity. }
    apply (Hsame _ Heq).
Qed.

End ScoreBounds.

Lemma calculate_score_bounds_witness :
  let post := Sample.post_at "p403" 403 (mk_datetime 2026 11 3 11 0 0 0 None) in
  let config := Sample.discovery_config 20 in
  exists quotient s,
    int_truediv (Post.likes post) 100 = Ok quotient
    /\ fst (Discovery._calculate_score (H := Sample.lib) post config Sample.world) = Ok s
    /\ is_float s
    /\ (Qmin quotient 10 <= s)%Q
    /\ (s <= inject_Z (15 + 2 * Z.of_nat (length (Post.hashtags post))
                       + 3 * Z.of_nat (length (DiscoveryConfig.keywords config))))%Q
    /\ (forall more : Z,
           1000 <= Post.likes post -> 1000 <= more ->
           scorable (Post.with_likes more post) = true ->
           fst (Discovery._calculate_score (H := Sample.lib) (Post.with_likes more post) config
                  Sample.world) = Ok s).
Proof.
  intros post config.
  apply (calculate_score_bounds (H := Sample.lib) post config Sample.world).
  - vm_compute. reflexivity.
  - vm_compute. discriminate.
Defined.

Section DiscoverEffects.
Context {E : Type} `{PyLib}.
Variable adapters : Adapters E.

Lemma trace_grows_nothing (w w' : World E) :
  trace_grows (fun _ => False) w w' -> World.trace w' = World.trace w.
Proof.
  intros (evs & Htr & Hnone). destruct evs as [|ev evs].
  - rewrite Htr, app_nil_r. reflexivity.
  - apply Forall_cons in Hnone as [[] _].
Qed.

Lemma discover_platform_trace (config : DiscoveryConfig) (platform : Platform)
    (results : list DiscoveredPost) (w : World E) :
  let w' := snd (Discovery.discover_platform adapters config platform results w) in
  World.trace w'
  = World.trace w
    ++ match adapters platform with
       | Some _ =>
           [EvSearch platform
              (match DiscoveryConfig.keywords config with
               | [] => None
               | kws => Some (join " " kws)
               end)
              (DiscoveryConfig.hashtags config) (DiscoveryConfig.location config)
              (DiscoveryConfig.limit config)]
       | None => []
       end.
Proof.
  unfold Discovery.discover_platform.
  destruct (adapters platform) as [adapter|]; [|cbn; rewrite app_nil_r; reflexivity].
  cbv zeta. unfold try_except, bind at 1, emit at 1. unfold bind at 1.
  match goal with
  | |- context [external ?f ?w1] =>
      pose proof (external_frame f w1) as (_ & Htr & _);
      destruct (external f w1) as [[posts|e] w2]
  end; cbn [fst snd World.trace] in *; [|exact Htr].
  match goal with
  | |- context [for_each_try posts ?body results w2] =>
      pose proof (respects_for_each_try (trace_grows (fun _ => False)) posts body results)
        as Hloop
  end.
  rewrite <- Htr.
  match goal with
  | |- World.trace (snd (match ?c with _ => _ end)) = _ =>
      replace (World.trace w2) with (World.trace (snd c));
      [destruct c as [[?|?] ?]; reflexivity|]
  end.
  apply trace_grows_nothing, Hloop. intros post acc _.
  apply respects_bind; try typeclasses eauto.
  - apply evaluate_post_respects; [typeclasses eauto | apply trace_grows_frame].
  - intros d. apply respects_ret. typeclasses eauto.
Qed.

(** X4.  A discovery asks each configured platform that has an adapter exactly
    once, in the order of [config.platforms], always with the same query (the
    keywords joined by a space, or none), hashtags, location and limit;
    platforms without adapter are passed over.  It does nothing else that is
    observable: no comment, no delay, and the ledger is left as it was. *)
Theorem discover_searches_each_platform_once (config : DiscoveryConfig) (w : World E) :
  let w' := snd (Discovery.discover adapters config w) in
  World.trace w'
  = World.trace w
    ++ map (fun platform =>
              EvSearch platform
                (match DiscoveryConfig.keywords config with
                 | [] => None
                 | kws => Some (join " " kws)
                 end)
                (DiscoveryConfig.hashtags config) (DiscoveryConfig.location config)
                (DiscoveryConfig.limit config))
           (List.filter (fun platform => bool_decide (is_Some (adapters platform)))
                        (DiscoveryConfig.platforms config))
  /\ World.db w' = World.db w.
Proof.
  cbv zeta. split.
  2:{ apply (discover_respects same_db same_db_frame adapters).
      intros. apply respects_emit_same_db. }
  unfold Discovery.discover, Discovery.collect, bind.
  match goal with
  | |- World.trace (snd (match ?c with _ => _ end)) = _ =>
      replace (World.trace (snd (match c with
                                 | (Ok a, w1) => _
                                 | (Raise e, w1) => (Raise e, w1)
                                 end)))
        with (World.trace (snd c)) by (destruct c as [[?|?] ?]; reflexivity)
  end.
  generalize (@nil DiscoveredPost) as results. revert w.
  induction (DiscoveryConfig.platforms config) as [|platform platforms IH];
    intros w results.
  - cbn. rewrite app_nil_r. reflexivity.
  - cbn [for_each]. unfold bind at 1.
    pose proof (discover_platform_trace config platform results w) as Hplat.
    destruct (discover_platform_total adapters config platform results w)
      as (results' & w1 & Hrun).
    rewrite Hrun in Hplat |- *. cbn [snd] in Hplat.
    rewrite IH, Hplat. cbn [List.filter].
    destruct (adapters platform) as [adapter|].
    + rewrite bool_decide_eq_true_2 by eauto. cbn [map]. rewrite <- app_assoc. reflexivity.
    + rewrite bool_decide_eq_false_2 by (intros [? [=]]). rewrite app_nil_r. reflexivity.
Qed.

End DiscoverEffects.

(** ** The executor: the course of one iteration *)

Section EngageShape.
Context {E : Type} `{PyLib}.
Variable llm : option (LLM E).
Variable adapter : PlatformAdapter E.
Variable config : EngagementConfig.
Variable callback : option (Post -> EngagementResult -> M (E := E) unit).

(** After its delay an iteration generates comments; without comments it
    ends there; otherwise it posts the first one, and on an outcome it reports
    to the callback. *)
Lemma engage_body_shape (post : Post) (results : list EngagementResult) (w : World E)
    (r : result (list EngagementResult)) (w' : World E) :
  Engagement.engage_body llm adapter config callback post results w = (r, w') ->
  (EngagementConfig.max_delay_seconds config < EngagementConfig.min_delay_seconds config
   /\ r = Raise (ValueError "empty range for randrange()") /\ w' = w)
  \/ exists d w3 comments gen_evs,
       EngagementConfig.min_delay_seconds config <= d
       <= EngagementConfig.max_delay_seconds config
       /\ World.trace w3 = World.trace w ++ EvSleep d :: gen_evs
       /\ World.db w3 = World.db w
       /\ (gen_evs = []
           \/ gen_evs = [EvComplete (Engagement._build_comment_prompt post config)])
       /\ (llm = None ->
           gen_evs = [] /\ comments = Engagement._generate_template_comments post config)
       /\ match comments with
          | [] => r = Ok results /\ w' = w3
          | text :: _ =>
              exists o w4,
                World.trace w4 = World.trace w3 ++ [EvComment (Post.post_id post) text o]
                /\ World.db w4 = World.db w3
                /\ match o with
                   | Raise e => r = Raise e /\ w' = w4
                   | Ok a =>
                       if EngagementResult.success a && negb (sliceable text)
                       then r = Raise (TypeError "object is not subscriptable") /\ w' = w4
                       else
                         match callback with
                         | None => r = Ok (results ++ [a]) /\ w' = w4
                         | Some cb =>
                             exists w5,
                               World.trace w5 = World.trace w4 ++ [EvCallback post a]
                               /\ World.db w5 = World.db w4
                               /\ w' = snd (cb post a w5)
                               /\ r = match fst (cb post a w5) with
                                      | Ok _ => Ok (results ++ [a])
                                      | Raise e => Raise e
                                      end
                         end
                   end
          end.
Proof.
  intros Hrun. unfold Engagement.engage_body in Hrun.
  unfold bind at 1 in Hrun.
  destruct (randint (EngagementConfig.min_delay_seconds config)
              (EngagementConfig.max_delay_seconds config) w) as [[d|e] w1] eqn:Hdraw.
  2:{ left. injection Hrun as <- <-. revert Hdraw. unfold randint, raise.
      destruct (Z.ltb_spec 0 (EngagementConfig.max_delay_seconds config + 1
                              - EngagementConfig.min_delay_seconds config)).
      - unfold bind, _randbelow, ret. discriminate.
      - intros [= <- <-]. split; [lia|]. split; reflexivity. }
  right.
  pose proof (randint_run (EngagementConfig.min_delay_seconds config)
                (EngagementConfig.max_delay_seconds config) w) as (Htr1 & Hdb1 & Hrange & _).
  rewrite Hdraw in Htr1, Hdb1, Hrange. cbn [fst snd] in *. specialize (Hrange d eq_refl).
  unfold bind at 1, sleep in Hrun.
  pose proof (emit_trace (EvSleep d) w1) as (Hemit & Htr2 & Hdb2 & _).
  rewrite Hemit in Hrun. set (w2 := snd (emit (EvSleep d) w1)) in *. clearbody w2.
  unfold bind at 1 in Hrun.
  destruct (generate_comment_run llm config post w2)
    as (comments & gen_evs & Hgen & Htr3 & Hevs & Hdb3 & Htpl).
  destruct (Engagement.generate_comment llm post config w2) as [rg w3] eqn:Hg.
  cbn [fst snd] in *. subst rg.
  exists d, w3, comments, gen_evs.
  split; [exact Hrange|].
  split; [rewrite Htr3, Htr2, Htr1, <- app_assoc; reflexivity|].
  split; [congruence|]. split; [exact Hevs|]. split.
  { intros Hllm. split; [|apply Htpl, Hllm].
    revert Hg Htr3. rewrite Hllm. unfold Engagement.generate_comment, ret.
    intros [= _ <-] Htr3. destruct Hevs as [-> | ->]; [reflexivity|].
    apply (f_equal (@length Event)) in Htr3. rewrite length_app in Htr3.
    cbn in Htr3. lia. }
  destruct comments as [|text comments].
  { injection Hrun as <- <-. split; reflexivity. }
  unfold bind at 1 in Hrun.
  pose proof (call_comment_run adapter (Post.post_id post) text w3) as (_ & Htr4 & Hdb4).
  destruct (Engagement.call_comment adapter (Post.post_id post) text w3) as [o w4].
  cbn [fst snd] in *. exists o, w4. split; [exact Htr4|]. split; [exact Hdb4|].
  destruct o as [a|e]; [|injection Hrun as <- <-; split; reflexivity].
  unfold bind at 1 in Hrun.
  destruct (EngagementResult.success a && negb (sliceable text)).
  { injection Hrun as <- <-. split; reflexivity. }
  unfold ret at 1 in Hrun. unfold bind at 1 in Hrun.
  destruct callback as [cb|].
  - unfold bind at 1 in Hrun.
    pose proof (emit_trace (EvCallback post a) w4) as (Hemit' & Htr5 & Hdb5 & _).
    rewrite Hemit' in Hrun. exists (snd (emit (EvCallback post a) w4)).
    split; [exact Htr5|]. split; [exact Hdb5|].
    destruct (cb post a (snd (emit (EvCallback post a) w4))) as [[[]|e] w6];
      injection Hrun as <- <-; split; reflexivity.
  - injection Hrun as <- <-. split; reflexivity.
Qed.

End EngageShape.

(** ** The executor: edge cases, the callback, the comment that is posted *)

Section EngageFurther.
Context {E : Type} `{PyLib}.
Variable llm : option (LLM E).
Variable adapter : PlatformAdapter E.
Variable config : EngagementConfig.

(** X5.  Edge cases of [engage].  Without posts, or with a daily cap of zero
    or less, it returns the empty list and does nothing at all.  With a post
    to process and an empty range of delays ([max_delay_seconds] below
    [min_delay_seconds]) it raises the [ValueError] of [random.randint] at the
    first post, before any delay, comment or callback. *)
Theorem engage_edge_cases
    (callback : option (Post -> EngagementResult -> M (E := E) unit))
    (posts : list Post) (w : World E) :
  (posts = [] \/ EngagementConfig.max_daily config <= 0 ->
   Engagement.engage llm posts adapter config callback w = (Ok [], w))
  /\ (posts <> [] -> 0 < EngagementConfig.max_daily config ->
      EngagementConfig.max_delay_seconds config < EngagementConfig.min_delay_seconds config ->
      Engagement.engage llm posts adapter config callback w
      = (Raise (ValueError "empty range for randrange()"), w)).
Proof.
  unfold Engagement.engage. split.
  - intros [-> | Hcap]; [reflexivity|].
    destruct posts as [|post posts']; [reflexivity|]. cbn [Engagement.engage_loop].
    destruct (Z.leb_spec (EngagementConfig.max_daily config) 0); [reflexivity | lia].
  - intros Hposts Hcap Hrange. destruct posts as [|post posts']; [congruence|].
    cbn [Engagement.engage_loop].
    destruct (Z.leb_spec (EngagementConfig.max_daily config) 0); [lia|].
    unfold bind at 1, Engagement.engage_body. unfold bind at 1, randint, raise.
    destruct (Z.ltb_spec 0 (EngagementConfig.max_delay_seconds config + 1
                            - EngagementConfig.min_delay_seconds config)); [lia|].
    reflexivity.
Qed.

Lemma engage_loop_from_body (R : relation (World E)) `{!PreOrder R}
    (callback : option (Post -> EngagementResult -> M (E := E) unit)) :
  (forall post results,
      respects R (Engagement.engage_body llm adapter config callback post results)) ->
  forall posts i results,
    respects R (Engagement.engage_loop llm adapter config callback i posts results).
Proof.
  intros Hbody posts. induction posts as [|post posts' IH]; intros i results;
    cbn [Engagement.engage_loop].
  - apply respects_ret. typeclasses eauto.
  - destruct (_ <=? _); [apply respects_ret; typeclasses eauto|].
    apply respects_bind; try typeclasses eauto; [apply Hbody|].
    intros rs. apply IH.
Qed.

Lemma template_comments_first (post : Post) :
  exists rest,
    Engagement._generate_template_comments post config = first_template :: rest.
Proof.
  unfold Engagement._generate_template_comments.
  destruct (Post.hashtags post); eexists; reflexivity.
Qed.

Lemma engage_body_first_template
    (callback : option (Post -> EngagementResult -> M (E := E) unit))
    (post : Post) (results : list EngagementResult) :
  llm = None -> quiet callback ->
  respects (trace_grows posts_first_template)
    (Engagement.engage_body llm adapter config callback post results).
Proof.
  intros Hllm Hquiet w.
  destruct (Engagement.engage_body llm adapter config callback post results w)
    as [r w'] eqn:Hrun.
  apply engage_body_shape in Hrun. cbn [snd].
  destruct Hrun as [(_ & _ & ->) | (d & w3 & comments & gen_evs & _ & Htr3 & _ & _
                                     & Htpl & Hrest)]; [reflexivity|].
  destruct (Htpl Hllm) as [-> ->]. destruct (template_comments_first post) as [rest Hfirst].
  rewrite Hfirst in Hrest. destruct Hrest as (o & w4 & Htr4 & _ & Hrest).
  assert (trace_grows posts_first_template w w4) as Hw4.
  { exists [EvSleep d; EvComment (Post.post_id post) first_template o].
    rewrite Htr4, Htr3, <- app_assoc. split; [reflexivity|].
    repeat constructor. }
  destruct o as [a|e]; [|destruct Hrest as [_ ->]; exact Hw4].
  cbn [first_template sliceable negb] in Hrest. rewrite andb_false_r in Hrest.
  destruct callback as [cb|]; [|destruct Hrest as [_ ->]; exact Hw4].
  destruct Hrest as (w5 & Htr5 & _ & -> & _).
  destruct Hw4 as (evs & Hevs & Hall).
  exists (evs ++ [EvCallback post a]).
  rewrite (Hquiet cb eq_refl), Htr5, Hevs, <- app_assoc. split; [reflexivity|].
  apply Forall_app. split; [exact Hall | repeat constructor].
Qed.

Lemma engage_body_reports (cb : Post -> EngagementResult -> M (E := E) unit)
    (post : Post) (results : list EngagementResult) (w : World E)
    (r : result (list EngagementResult)) (w' : World E) :
  quiet (Some cb) ->
  Engagement.engage_body llm adapter config (Some cb) post results w = (r, w') ->
  exists evs,
    World.trace w' = World.trace w ++ evs
    /\ Forall (fun pr => fst pr = post) (callback_reports evs)
    /\ (forall rs, r = Ok rs ->
          rs = results ++ map snd (callback_reports evs)
          /\ map (fun pr => Post.post_id (fst pr)) (callback_reports evs)
             = map fst (comment_attempts evs)).
Proof.
  intros Hquiet Hrun. apply engage_body_shape in Hrun.
  destruct Hrun as [(_ & -> & ->) | (d & w3 & comments & gen_evs & _ & Htr3 & _ & Hgen
                                     & _ & Hrest)].
  { exists []. rewrite app_nil_r. split; [reflexivity|]. split; [constructor|].
    discriminate. }
  assert (callback_reports (EvSleep d :: gen_evs) = []
          /\ comment_attempts (EvSleep d :: gen_evs) = []) as [Hrep Hatt].
  { destruct Hgen as [-> | ->]; split; reflexivity. }
  destruct comments as [|text comments].
  { destruct Hrest as [-> ->]. exists (EvSleep d :: gen_evs).
    split; [exact Htr3|]. rewrite Hrep, Hatt. split; [constructor|].
    intros rs [= <-]. rewrite app_nil_r. split; reflexivity. }
  destruct Hrest as (o & w4 & Htr4 & _ & Hrest).
  destruct o as [a|e].
  2:{ destruct Hrest as [-> ->].
      exists ((EvSleep d :: gen_evs) ++ [EvComment (Post.post_id post) text (Raise e)]).
      split; [rewrite Htr4, Htr3, <- app_assoc; reflexivity|].
      unfold callback_reports. rewrite omap_app. fold (callback_reports (EvSleep d :: gen_evs)).
      rewrite Hrep. split; [constructor | discriminate]. }
  destruct (EngagementResult.success a && negb (sliceable text)).
  { destruct Hrest as [-> ->].
    exists ((EvSleep d :: gen_evs) ++ [EvComment (Post.post_id post) text (Ok a)]).
    split; [rewrite Htr4, Htr3, <- app_assoc; reflexivity|].
    unfold callback_reports. rewrite omap_app. fold (callback_reports (EvSleep d :: gen_evs)).
    rewrite Hrep. split; [constructor | discriminate]. }
  destruct Hrest as (w5 & Htr5 & _ & -> & ->).
  exists ((EvSleep d :: gen_evs)
          ++ [EvComment (Post.post_id post) text (Ok a); EvCallback post a]).
  split.
  { rewrite (Hquiet cb eq_refl), Htr5, Htr4, Htr3, <- !app_assoc. reflexivity. }
  unfold callback_reports, comment_attempts. rewrite !omap_app.
  fold (callback_reports (EvSleep d :: gen_evs)).
  fold (comment_attempts (EvSleep d :: gen_evs)). rewrite Hrep, Hatt. cbn.
  split; [repeat constructor|].
  intros rs Hrs. destruct (cb post a w5) as [[[]|e] w6]; [|discriminate].
  injection Hrs as <-. split; reflexivity.
Qed.

Lemma engage_loop_reports (cb : Post -> EngagementResult -> M (E := E) unit)
    (posts : list Post) :
  quiet (Some cb) ->
  forall (i : Z) (results : list EngagementResult) (w : World E)
         (r : result (list EngagementResult)) (w' : World E),
    Engagement.engage_loop llm adapter config (Some cb) i posts results w = (r, w') ->
    exists evs,
      World.trace w' = World.trace w ++ evs
      /\ Forall (fun pr => fst pr ∈ posts) (callback_reports evs)
      /\ (forall rs, r = Ok rs ->
            rs = results ++ map snd (callback_reports evs)
            /\ map (fun pr => Post.post_id (fst pr)) (callback_reports evs)
               = map fst (comment_attempts evs)).
Proof.
  intros Hquiet. induction posts as [|post posts' IH]; intros i results w r w' Hrun.
  - injection Hrun as <- <-. exists []. rewrite !app_nil_r.
    split; [reflexivity|]. split; [constructor|]. intros rs [= <-]. split; reflexivity.
  - cbn [Engagement.engage_loop] in Hrun.
    destruct (_ <=? _).
    { injection Hrun as <- <-. exists []. rewrite !app_nil_r.
      split; [reflexivity|]. split; [constructor|]. intros rs [= <-]. split; reflexivity. }
    unfold bind at 1 in Hrun.
    destruct (Engagement.engage_body llm adapter config (Some cb) post results w)
      as [rb wb] eqn:Hbody.
    apply (engage_body_reports _ _ _ _ _ _ Hquiet) in Hbody.
    destruct Hbody as (evs1 & Htr1 & Hposts1 & Hok1).
    assert (Forall (fun pr => fst pr ∈ post :: posts') (callback_reports evs1)) as Hin1.
    { eapply Forall_impl; [exact Hposts1|]. intros pr ->. left. }
    destruct rb as [rs1|e].
    2:{ injection Hrun as <- <-. exists evs1. split; [exact Htr1|].
        split; [exact Hin1 | discriminate]. }
    apply IH in Hrun. destruct Hrun as (evs2 & Htr2 & Hposts2 & Hok2).
    exists (evs1 ++ evs2). split; [rewrite Htr2, Htr1, <- app_assoc; reflexivity|].
    unfold callback_reports, comment_attempts in *. rewrite !omap_app.
    split.
    + apply Forall_app. split; [exact Hin1|].
      eapply Forall_impl; [exact Hposts2|]. intros pr Hpr. right. exact Hpr.
    + intros rs Hrs. destruct (Hok2 rs Hrs) as [-> Hids2].
      destruct (Hok1 rs1 eq_refl) as [-> Hids1].
      rewrite !map_app, <- app_assoc, Hids1, Hids2. split; reflexivity.
Qed.

(** X6.  When [engage] is given a callback (one that leaves the trace alone)
    and returns, the callback has been called exactly once for every outcome
    of the result list, in the same order, each time with the post that was
    commented on; a post that was skipped is not reported. *)
Theorem engage_reports_every_outcome
    (cb : Post -> EngagementResult -> M (E := E) unit) (posts : list Post)
    (w : World E) :
  quiet (Some cb) ->
  let r := fst (Engagement.engage llm posts adapter config (Some cb) w) in
  let w' := snd (Engagement.engage llm posts adapter config (Some cb) w) in
  exists evs,
    World.trace w' = World.trace w ++ evs
    /\ Forall (fun pr => fst pr ∈ posts) (callback_reports evs)
    /\ (forall rs, r = Ok rs ->
          map snd (callback_reports evs) = rs
          /\ map (fun pr => Post.post_id (fst pr)) (callback_reports evs)
             = map fst (comment_attempts evs)).
Proof.
  intros Hquiet r w'.
  destruct (engage_loop_reports cb posts Hquiet 0 [] w r w') as (evs & Htr & Hposts & Hok).
  { unfold r, w', Engagement.engage. apply surjective_pairing. }
  exists evs. split; [exact Htr|]. split; [exact Hposts|].
  intros rs Hrs. destruct (Hok rs Hrs) as [-> Hids]. split; [reflexivity | exact Hids].
Qed.

End EngageFurther.

Lemma engage_reports_every_outcome_witness :
  let run :=
    Engagement.engage (H := Sample.lib) None
      [Sample.post "p1" 10 []; Sample.post "p2" 20 []] Sample.flaky_adapter
      (Sample.engagement_config 20 0 0)
      (Some SocialEngagementEngine._on_engagement) (Sample.world_of 0%nat) in
  exists evs,
    World.trace (snd run) = World.trace (Sample.world_of 0%nat) ++ evs
    /\ Forall (fun pr => fst pr ∈ [Sample.post "p1" 10 []; Sample.post "p2" 20 []])
              (callback_reports evs)
    /\ (forall rs, fst run = Ok rs ->
          map snd (callback_reports evs) = rs
          /\ map (fun pr => Post.post_id (fst pr)) (callback_reports evs)
             = map fst (comment_attempts evs)).
Proof.
  intros run.
  exact (engage_reports_every_outcome (H := Sample.lib) None Sample.flaky_adapter
           (Sample.engagement_config 20 0 0) SocialEngagementEngine._on_engagement
           [Sample.post "p1" 10 []; Sample.post "p2" 20 []] (Sample.world_of 0%nat)
           on_engagement_quiet).
Defined.

(** ** The orchestrator: what is posted, what is returned, what is recorded *)

Section EngineFurther.
Context {E : Type} `{PyLib}.
Variable adapters : Adapters E.

(** X7.  The engine as [initialize] builds it has no completion capability
    ([Engagement()]), so every comment a [discover_and_engage] run attempts,
    on whatever post, is the first entry of the pool of templates; the other
    templates, the hashtags of the post and the audience play no part. *)
Theorem engine_posts_first_template (audience : TargetAudience)
    (dconfig : DiscoveryConfig) (econfig : EngagementConfig) (w : World E) :
  trace_grows posts_first_template w
    (snd (SocialEngagementEngine.discover_and_engage adapters None audience dconfig
            econfig w)).
Proof.
  revert w. change (respects (trace_grows posts_first_template)
    (SocialEngagementEngine.discover_and_engage adapters None audience dconfig econfig)).
  unfold SocialEngagementEngine.discover_and_engage.
  apply respects_bind; try typeclasses eauto; [|intros discovered].
  { apply discover_respects; try typeclasses eauto; [apply trace_grows_frame|].
    intros. apply respects_emit_trace. exact I. }
  apply respects_bind; try typeclasses eauto; [|intros to_engage].
  { destruct (EngagementConfig.skip_already_engaged econfig).
    - intros w. rewrite filter_engaged_run. reflexivity.
    - apply respects_ret. typeclasses eauto. }
  apply respects_for_each; [typeclasses eauto|]. intros platform results _.
  unfold SocialEngagementEngine.engage_platform.
  destruct (adapters platform) as [adapter|]; [|apply respects_ret; typeclasses eauto].
  apply respects_bind; try typeclasses eauto; [|intros []].
  { apply respects_emit_trace. exact I. }
  apply respects_bind; try typeclasses eauto; [|intros rs; apply respects_ret; typeclasses eauto].
  unfold Engagement.engage. apply engage_loop_from_body; [typeclasses eauto|].
  intros post results'. apply engage_body_first_template; [reflexivity|].
  apply on_engagement_quiet.
Qed.

Variable llm : option (LLM E).

Lemma record_ledger (result : EngagementResult) (author comment : string) (w : World E) :
  fst (Analytics.record result author comment w) = Ok tt
  /\ exists rec,
       Database.engagements (World.db (snd (Analytics.record result author comment w)))
       = Database.engagements (World.db w) ++ [rec]
       /\ EngagementRecord.post_author rec = author
       /\ row_entry rec
          = (Platform_.value (EngagementResult.platform result),
             EngagementResult.action result, EngagementResult.post_id result, comment,
             (if EngagementResult.success result then 1 else 0),
             Analytics.or_empty (EngagementResult.error result)).
Proof.
  unfold Analytics.record, bind, db_execute, datetime_now, ret.
  cbn [fst snd World.db]. destruct (bool_decide _); cbn [fst snd World.db];
    (split; [reflexivity|]); eexists; (split; [reflexivity|]); split; reflexivity.
Qed.

Lemma engage_body_ledger (adapter : PlatformAdapter E) (config : EngagementConfig)
    (post : Post) (results : list EngagementResult) (w : World E)
    (r : result (list EngagementResult)) (w' : World E) :
  Engagement.engage_body llm adapter config (Some SocialEngagementEngine._on_engagement)
    post results w = (r, w') ->
  exists rows,
    Database.engagements (World.db w') = Database.engagements (World.db w) ++ rows
    /\ forall rs, r = Ok rs ->
         exists new, rs = results ++ new /\ map row_entry rows = map outcome_entry new.
Proof.
  intros Hrun. apply engage_body_shape in Hrun.
  destruct Hrun as [(_ & -> & ->) | (d & w3 & comments & gen_evs & _ & _ & Hdb3 & _
                                     & _ & Hrest)].
  { exists []. rewrite app_nil_r. split; [reflexivity | discriminate]. }
  destruct comments as [|text comments].
  { destruct Hrest as [-> ->]. exists []. rewrite app_nil_r, Hdb3.
    split; [reflexivity|]. intros rs [= <-]. exists []. rewrite app_nil_r.
    split; reflexivity. }
  destruct Hrest as (o & w4 & _ & Hdb4 & Hrest).
  destruct o as [a|e].
  2:{ destruct Hrest as [-> ->]. exists []. rewrite app_nil_r, Hdb4, Hdb3.
      split; [reflexivity | discriminate]. }
  destruct (EngagementResult.success a && negb (sliceable text)).
  { destruct Hrest as [-> ->]. exists []. rewrite app_nil_r, Hdb4, Hdb3.
    split; [reflexivity | discriminate]. }
  destruct Hrest as (w5 & _ & Hdb5 & -> & ->).
  unfold SocialEngagementEngine._on_engagement.
  destruct (record_ledger a (Post.author post)
              (Analytics.or_empty (EngagementResult.message a)) w5)
    as (Hok & rec & Hrows & _ & Hentry).
  rewrite Hok. exists [rec]. rewrite Hrows, Hdb5, Hdb4, Hdb3.
  split; [reflexivity|]. intros rs [= <-]. exists [a].
  split; [reflexivity|]. cbn [map]. rewrite Hentry. reflexivity.
Qed.

Lemma engage_loop_ledger (adapter : PlatformAdapter E) (config : EngagementConfig)
    (posts : list Post) :
  forall (i : Z) (results : list EngagementResult) (w : World E)
         (r : result (list EngagementResult)) (w' : World E),
    Engagement.engage_loop llm adapter config (Some SocialEngagementEngine._on_engagement)
      i posts results w = (r, w') ->
    exists rows,
      Database.engagements (World.db w') = Database.engagements (World.db w) ++ rows
      /\ forall rs, r = Ok rs ->
           exists new, rs = results ++ new /\ map row_entry rows = map outcome_entry new.
Proof.
  induction posts as [|post posts' IH]; intros i results w r w' Hrun;
    cbn [Engagement.engage_loop] in Hrun.
  - injection Hrun as <- <-. exists []. rewrite app_nil_r. split; [reflexivity|].
    intros rs [= <-]. exists []. rewrite app_nil_r. split; reflexivity.
  - destruct (_ <=? _).
    { injection Hrun as <- <-. exists []. rewrite app_nil_r. split; [reflexivity|].
      intros rs [= <-]. exists []. rewrite app_nil_r. split; reflexivity. }
    unfold bind at 1 in Hrun.
    destruct (Engagement.engage_body llm adapter config
                (Some SocialEngagementEngine._on_engagement) post results w)
      as [rb wb] eqn:Hbody.
    apply engage_body_ledger in Hbody. destruct Hbody as (rows1 & Hdb1 & Hok1).
    destruct rb as [rs1|e].
    2:{ injection Hrun as <- <-. exists rows1. split; [exact Hdb1 | discriminate]. }
    apply IH in Hrun. destruct Hrun as (rows2 & Hdb2 & Hok2).
    exists (rows1 ++ rows2). rewrite Hdb2, Hdb1, <- app_assoc. split; [reflexivity|].
    intros rs Hrs. destruct (Hok2 rs Hrs) as (new2 & -> & Hnew2).
    destruct (Hok1 rs1 eq_refl) as (new1 & -> & Hnew1).
    exists (new1 ++ new2). rewrite <- app_assoc, !map_app, Hnew1, Hnew2.
    split; reflexivity.
Qed.

Lemma split_by_success (rs : list EngagementResult) :
  filter (fun r => EngagementResult.success r = true) rs
  ++ filter (fun r => EngagementResult.success r = false) rs ≡ₚ rs.
Proof.
  induction rs as [|r rs IH]; [reflexivity|].
  rewrite !filter_cons. destruct (EngagementResult.success r) eqn:Hs.
  - rewrite decide_True, decide_False by congruence. cbn. rewrite IH. reflexivity.
  - rewrite decide_False, decide_True by congruence.
    rewrite <- Permutation_middle, IH. reflexivity.
Qed.

Lemma engage_platforms_ledger (config : EngagementConfig)
    (to_engage : list DiscoveredPost) (platforms : list Platform) :
  forall (results res : SocialEngagementEngine.Results) (w w' : World E),
    for_each platforms
      (SocialEngagementEngine.engage_platform adapters llm config to_engage) results w
    = (Ok res, w') ->
    exists rows new_engaged new_failed,
      Database.engagements (World.db w') = Database.engagements (World.db w) ++ rows
      /\ SocialEngagementEngine.discovered res = SocialEngagementEngine.discovered results
      /\ SocialEngagementEngine.engaged res
         = SocialEngagementEngine.engaged results ++ new_engaged
      /\ SocialEngagementEngine.failed res
         = SocialEngagementEngine.failed results ++ new_failed
      /\ Forall (fun r => EngagementResult.success r = true) new_engaged
      /\ Forall (fun r => EngagementResult.success r = false) new_failed
      /\ map row_entry rows ≡ₚ map outcome_entry (new_engaged ++ new_failed).
Proof.
  induction platforms as [|platform platforms' IH]; intros results res w w' Hrun.
  - injection Hrun as <- <-. exists [], [], []. rewrite !app_nil_r.
    repeat split; constructor.
  - cbn [for_each] in Hrun. unfold bind at 1 in Hrun.
    unfold SocialEngagementEngine.engage_platform at 1 in Hrun.
    destruct (adapters platform) as [adapter|]; [|apply IH, Hrun].
    unfold bind at 1, emit at 1 in Hrun. unfold bind at 1 in Hrun.
    match type of Hrun with
    | context [Engagement.engage ?l ?ps ?a ?c ?cb ?w1] =>
        destruct (Engagement.engage l ps a c cb w1) as [[rs|e] w2] eqn:Hengage
    end; [|discriminate].
    apply engage_loop_ledger in Hengage. cbn [World.db] in Hengage.
    destruct Hengage as (rows1 & Hdb1 & Hok1).
    destruct (Hok1 rs eq_refl) as (new & Hrs & Hnew). cbn [app] in Hrs. subst new.
    unfold ret at 1 in Hrun. apply IH in Hrun.
    destruct Hrun as (rows2 & ne & nf & Hdb2 & Hdisc & Heng & Hfail & Hne & Hnf & Hperm).
    cbn [SocialEngagementEngine.discovered SocialEngagementEngine.engaged
         SocialEngagementEngine.failed] in Hdisc, Heng, Hfail.
    exists (rows1 ++ rows2),
      (filter (fun r => EngagementResult.success r = true) rs ++ ne),
      (filter (fun r => EngagementResult.success r = false) rs ++ nf).
    rewrite Hdb2, Hdb1, Heng, Hfail, <- !app_assoc.
    repeat split; try reflexivity; try exact Hdisc.
    + apply Forall_app. split; [|exact Hne].
      apply Forall_forall. intros r Hr. apply list_elem_of_filter in Hr as [Hr _]. exact Hr.
    + apply Forall_app. split; [|exact Hnf].
      apply Forall_forall. intros r Hr. apply list_elem_of_filter in Hr as [Hr _]. exact Hr.
    + rewrite map_app, Hnew, Hperm, <- map_app. apply Permutation_map.
      rewrite <- (split_by_success rs) at 1.
      rewrite <- !app_assoc. apply Permutation_app_head.
      rewrite !app_assoc. apply Permutation_app_tail. apply Permutation_app_comm.
Qed.

(** X8.  When [discover_and_engage] returns, its dictionary sorts the
    outcomes of the run by their [success] flag: every entry of [engaged] is a
    success, every entry of [failed] a failure, and [discovered] is what
    [discover] returned.  The run has added to the ledger exactly one record
    for each of these outcomes, holding its platform, action, post, message
    and error and its flag as 1 or 0, and nothing else. *)
Theorem engine_results_match_ledger (audience : TargetAudience)
    (dconfig : DiscoveryConfig) (econfig : EngagementConfig) (w w' : World E)
    (res : SocialEngagementEngine.Results) :
  SocialEngagementEngine.discover_and_engage adapters llm audience dconfig econfig w
  = (Ok res, w') ->
  Forall (fun r => EngagementResult.success r = true) (SocialEngagementEngine.engaged res)
  /\ Forall (fun r => EngagementResult.success r = false)
            (SocialEngagementEngine.failed res)
  /\ Ok (SocialEngagementEngine.discovered res)
     = fst (Discovery.discover adapters dconfig w)
  /\ exists rows,
       Database.engagements (World.db w') = Database.engagements (World.db w) ++ rows
       /\ map row_entry rows
          ≡ₚ map outcome_entry (SocialEngagementEngine.engaged res
                                 ++ SocialEngagementEngine.failed res).
Proof.
  unfold SocialEngagementEngine.discover_and_engage. intros Hrun.
  unfold bind at 1 in Hrun.
  pose proof (discover_respects same_db same_db_frame adapters
                (fun _ _ _ _ _ => respects_emit_same_db _) dconfig w) as Hdb.
  destruct (Discovery.discover adapters dconfig w) as [[discovered|e] w1];
    [|discriminate]. cbn [fst snd] in Hdb |- *.
  unfold bind at 1 in Hrun.
  assert (exists to_engage,
             (if EngagementConfig.skip_already_engaged econfig
              then SocialEngagementEngine.filter_engaged discovered
              else ret discovered) w1 = (Ok to_engage, w1)) as [to_engage Hfilter].
  { destruct (EngagementConfig.skip_already_engaged econfig).
    - rewrite filter_engaged_run. eexists. reflexivity.
    - eexists. reflexivity. }
  rewrite Hfilter in Hrun. apply engage_platforms_ledger in Hrun.
  destruct Hrun as (rows & ne & nf & Hrows & Hdisc & Heng & Hfail & Hne & Hnf & Hperm).
  cbn in Hdisc, Heng, Hfail. rewrite Heng, Hfail, Hdisc.
  repeat split; [exact Hne | exact Hnf |].
  exists rows. rewrite Hrows, Hdb. split; [reflexivity | exact Hperm].
Qed.

End EngineFurther.

Lemma engine_results_match_ledger_witness :
  let run :=
    SocialEngagementEngine.discover_and_engage (H := Sample.lib)
      (Sample.adapters (Sample.adapter Sample.three_posts)) None Sample.audience
      (Sample.discovery_config 20) (Sample.engagement_config 20 0 0) Sample.world in
  let res :=
    match fst run with
    | Ok res => res
    | Raise _ => SocialEngagementEngine.mk_results [] [] []
    end in
  run = (Ok res, snd run)
  /\ length (SocialEngagementEngine.engaged res) = 3%nat
  /\ exists rows,
       Database.engagements (World.db (snd run))
       = Database.engagements (World.db Sample.world) ++ rows
       /\ map row_entry rows
          ≡ₚ map outcome_entry (SocialEngagementEngine.engaged res
                                 ++ SocialEngagementEngine.failed res).
Proof.
  intros run res.
  assert (run = (Ok res, snd run)) as Hrun by (vm_compute; reflexivity).
  split; [exact Hrun|]. split; [vm_compute; reflexivity|].
  exact (proj2 (proj2 (proj2
           (engine_results_match_ledger (H := Sample.lib)
              (Sample.adapters (Sample.adapter Sample.three_posts)) None Sample.audience
              (Sample.discovery_config 20) (Sample.engagement_config 20 0 0)
              Sample.world (snd run) res Hrun)))).
Defined.

(** ** The ledger: untracked actions, the duplicate test, the daily report *)

Section StringFacts.

Lemma string_length_app (a b : string) :
  String.length (a +:+ b) = (String.length a + String.length b)%nat.
Proof.
  induction a as [|c a IH]; [reflexivity|].
  change (String c a +:+ b) with (String c (a +:+ b)).
  cbn [String.length]. rewrite IH. reflexivity.
Qed.

Lemma string_app_inv_tail (a b s : string) : a +:+ s = b +:+ s -> a = b.
Proof.
  revert b. induction a as [|c a IH]; intros [|c' b] Heq.
  - reflexivity.
  - apply (f_equal String.length) in Heq.
    change ("" +:+ s) with s in Heq. rewrite string_length_app in Heq.
    cbn [String.length] in Heq. lia.
  - apply (f_equal String.length) in Heq.
    change ("" +:+ s) with s in Heq. rewrite string_length_app in Heq.
    cbn [String.length] in Heq. lia.
  - change (String c a +:+ s) with (String c (a +:+ s)) in Heq.
    change (String c' b +:+ s) with (String c' (b +:+ s)) in Heq.
    injection Heq as -> Heq. rewrite (IH b Heq). reflexivity.
Qed.

Lemma action_column_tracked (action : string) :
  action +:+ "s_posted" ∈ ["comments_posted"; "likes_posted"; "follows_posted"]
  <-> action ∈ ["comment"; "like"; "follow"].
Proof.
  rewrite !elem_of_cons, !elem_of_nil.
  change "comments_posted" with ("comment" +:+ "s_posted").
  change "likes_posted" with ("like" +:+ "s_posted").
  change "follows_posted" with ("follow" +:+ "s_posted").
  split.
  - intros [Ha | [Ha | [Ha | []]]]; apply string_app_inv_tail in Ha; tauto.
  - intros [-> | [-> | [-> | []]]]; tauto.
Qed.

Lemma string_compare_refl (s : string) : String.compare s s = Eq.
Proof.
  induction s as [|c s IH]; cbn; [reflexivity|].
  unfold Ascii.compare. rewrite N.compare_refl. exact IH.
Qed.

Lemma string_leb_trans (a b c : string) :
  String.leb a b = true -> String.leb b c = true -> String.leb a c = true.
Proof.
  unfold String.leb. revert b c.
  induction a as [|x a IH]; intros [|y b] [|z c]; cbn; try congruence.
  unfold Ascii.compare.
  destruct (N.compare_spec (N_of_ascii x) (N_of_ascii y)) as [Hxy|Hxy|Hxy];
    destruct (N.compare_spec (N_of_ascii y) (N_of_ascii z)) as [Hyz|Hyz|Hyz];
    destruct (N.compare_spec (N_of_ascii x) (N_of_ascii z)) as [Hxz|Hxz|Hxz];
    try congruence; try lia.
  apply IH.
Qed.

Lemma string_ltb_leb (a b : string) :
  String.ltb a b = true <-> String.leb a b = true /\ a <> b.
Proof.
  unfold String.ltb, String.leb. split.
  - intros Hlt. split; [destruct (String.compare a b); congruence|].
    intros ->. rewrite string_compare_refl in Hlt. discriminate.
  - intros [Hle Hne]. destruct (String.compare a b) eqn:Hc; try congruence.
    apply String.compare_eq_iff in Hc. contradiction.
Qed.

End StringFacts.

Section LedgerFurther.
Context {E : Type}.

(** X10.  [record] counts an outcome in [daily_stats] only when its action is
    exactly comment, like or follow.  For any other action (another verb, or
    another spelling of these) the outcome still gets its ledger record, but
    no row of [daily_stats] is created or changed, whatever the [success]
    flag, and [get_daily_stats] reports what it reported before. *)
Theorem record_untracked_action (result : EngagementResult)
    (post_author comment : string) (w : World E) :
  EngagementResult.action result ∉ ["comment"; "like"; "follow"] ->
  let w' := snd (Analytics.record result post_author comment w) in
  fst (Analytics.record result post_author comment w) = Ok tt
  /\ length (Database.engagements (World.db w'))
     = S (length (Database.engagements (World.db w)))
  /\ Database.daily_stats (World.db w') = Database.daily_stats (World.db w)
  /\ forall days,
       fst (Analytics.get_daily_stats days w') = fst (Analytics.get_daily_stats days w).
Proof.
  intros Hact. unfold Analytics.record, bind, db_execute, datetime_now, ret.
  cbn [fst snd World.db World.clock World.clock_reads].
  rewrite bool_decide_eq_false_2 by (rewrite action_column_tracked; exact Hact).
  cbn [fst snd World.db Analytics.insert_engagement Database.engagements
       Database.daily_stats].
  split; [reflexivity|]. split; [rewrite length_app; cbn; lia|].
  split; [reflexivity|]. intros days.
  unfold Analytics.get_daily_stats. destruct (_ || _); reflexivity.
Qed.

(** X11.  What one call of [record] changes in the answers of [is_engaged]:
    afterwards a post counts as engaged exactly when it did before or it is
    the post of the recorded outcome and the action of that outcome is
    comment.  Likes and follows never mark a post, records of other posts
    never do, and the [success] flag plays no part. *)
Theorem is_engaged_after_record (result : EngagementResult)
    (post_author comment id : string) (w : World E) :
  let w' := snd (Analytics.record result post_author comment w) in
  exists before,
    fst (Analytics.is_engaged id w) = Ok before
    /\ fst (Analytics.is_engaged id w')
       = Ok (before
             || bool_decide (EngagementResult.post_id result = id
                             /\ EngagementResult.action result = "comment")).
Proof.
  cbv zeta. rewrite !is_engaged_run. cbn [fst]. eexists. split; [reflexivity|].
  f_equal. unfold Analytics.count_comments.
  destruct (record_ledger result post_author comment w) as (_ & rec & -> & _ & Hentry).
  unfold row_entry in Hentry. injection Hentry as _ Hact Hid _ _ _.
  rewrite filter_app, length_app, filter_cons, Hact, Hid.
  destruct (decide (EngagementResult.post_id result = id
                    /\ EngagementResult.action result = "comment")) as [Hyes|Hno].
  - rewrite bool_decide_eq_true_2 by exact Hyes. rewrite orb_true_r.
    cbn. apply Z.ltb_lt. lia.
  - rewrite bool_decide_eq_false_2 by exact Hno. rewrite orb_false_r.
    cbn. rewrite Nat.add_0_r. reflexivity.
Qed.

#[local] Instance date_desc_total : Total Analytics.date_desc.
Proof. intros a b. unfold Analytics.date_desc. destruct (String.leb_total (fst b) (fst a)); auto. Qed.

#[local] Instance date_desc_trans : Transitive Analytics.date_desc.
Proof. intros a b c Hab Hbc. unfold Analytics.date_desc in *. eapply string_leb_trans; eassumption. Qed.

Lemma sorted_rows_strict (rows : list (string * DailyStats)) :
  NoDup (map fst rows) ->
  StronglySorted Analytics.date_desc rows ->
  StronglySorted (fun a b => String.ltb (fst b) (fst a) = true) rows.
Proof.
  intros Hnd Hsorted. induction Hsorted as [|a rows Hrows IH Hall]; [constructor|].
  cbn [map] in Hnd. apply NoDup_cons in Hnd as [Hnotin Hnd].
  constructor; [apply IH, Hnd|].
  apply Forall_forall. intros b Hb. apply string_ltb_leb. split.
  - rewrite Forall_forall in Hall. apply Hall, Hb.
  - intros Heq. apply Hnotin. rewrite <- Heq. apply list_elem_of_fmap. exists b. auto.
Qed.

(** X12.  [get_daily_stats] reads the database without changing anything.
    For [days] within the 64-bit integers of SQLite it returns the stored rows
    of distinct dates, newest first (strictly descending dates); for
    [days >= 0] there are [min days n] of them, [n] being the number of dates
    on record, and for a negative [days] all [n]; a date that is left out is
    older than every date that is reported.  For [days] outside that range the
    binding of the parameter raises [OverflowError]. *)
Theorem get_daily_stats_newest_first (days : Z) (w : World E) :
  (days < - 2 ^ 63 \/ 2 ^ 63 - 1 < days ->
   Analytics.get_daily_stats days w
   = (Raise (OverflowError "Python int too large to convert to SQLite INTEGER"), w))
  /\ (- 2 ^ 63 <= days <= 2 ^ 63 - 1 ->
      exists rows,
        Analytics.get_daily_stats days w = (Ok rows, w)
        /\ StronglySorted (fun a b => String.ltb (fst b) (fst a) = true) rows
        /\ (forall date r, (date, r) ∈ rows ->
              Database.daily_stats (World.db w) !! date = Some r)
        /\ length rows
           = (if days <? 0 then size (Database.daily_stats (World.db w))
              else Nat.min (Z.to_nat days) (size (Database.daily_stats (World.db w))))
        /\ (forall date r,
              Database.daily_stats (World.db w) !! date = Some r ->
              (date, r) ∉ rows ->
              Forall (fun kept => String.ltb date (fst kept) = true) rows)).
Proof.
  unfold Analytics.get_daily_stats. split.
  { intros Hout.
    destruct (Z.ltb_spec days (- 2 ^ 63)), (Z.ltb_spec (2 ^ 63 - 1) days);
      try reflexivity. lia. }
  intros Hin.
  destruct (Z.ltb_spec days (- 2 ^ 63)) as [Hlow|_]; [lia|].
  destruct (Z.ltb_spec (2 ^ 63 - 1) days) as [Hhigh|_]; [lia|]. cbn [orb].
  clear Hin.
  eexists. split; [reflexivity|].
  set (stats := Database.daily_stats (World.db w)).
  set (all := merge_sort Analytics.date_desc (map_to_list stats)).
  assert (all ≡ₚ map_to_list stats) as Hperm by apply merge_sort_Permutation.
  assert (NoDup (map fst all)) as Hnd.
  { rewrite Hperm. apply NoDup_fst_map_to_list. }
  assert (StronglySorted (fun a b => String.ltb (fst b) (fst a) = true) all) as Hsorted.
  { apply sorted_rows_strict; [exact Hnd|]. apply StronglySorted_merge_sort; apply _. }
  assert (length all = size stats) as Hlen.
  { rewrite Hperm. apply length_map_to_list. }
  unfold Analytics.select_daily_stats. fold stats. fold all.
  split; [|split; [|split]].
  - destruct (days <? 0); [exact Hsorted|].
    rewrite <- (take_drop (Z.to_nat days) all) in Hsorted.
    apply StronglySorted_app_1_l in Hsorted. exact Hsorted.
  - intros date r Hin. apply (select_daily_stats_lookup days (World.db w)).
    exact Hin.
  - destruct (days <? 0); [exact Hlen|]. rewrite length_take, Hlen. reflexivity.
  - intros date r Hstored Hout.
    assert ((date, r) ∈ all) as Hin.
    { rewrite Hperm. apply elem_of_map_to_list. exact Hstored. }
    destruct (days <? 0); [contradiction|].
    rewrite <- (take_drop (Z.to_nat days) all) in Hin, Hsorted.
    apply elem_of_app in Hin as [Hin|Hin]; [contradiction|].
    apply Forall_forall. intros kept Hkept.
    apply list_elem_of_split in Hkept as (l1 & l2 & Hkept). rewrite Hkept in Hsorted.
    rewrite <- app_assoc in Hsorted. apply StronglySorted_app_1_r in Hsorted.
    apply StronglySorted_inv in Hsorted as [_ Hall].
    rewrite Forall_forall in Hall. apply (Hall (date, r)).
    apply elem_of_app. right. exact Hin.
Qed.

End LedgerFurther.

Lemma record_untracked_action_witness :
  let w' := snd (Analytics.record (Sample.outcome true "Comment" "p1" None None)
                   "alice" "Nice route!" Sample.world) in
  length (Database.engagements (World.db w')) = 1%nat
  /\ Database.daily_stats (World.db w') = ∅.
Proof.
  intros w'.
  destruct (record_untracked_action (Sample.outcome true "Comment" "p1" None None)
              "alice" "Nice route!" Sample.world) as (_ & Hlen & Hstats & _).
  - rewrite !elem_of_cons, elem_of_nil. cbn. intros [? | [? | [? | []]]]; discriminate.
  - split; [exact Hlen | exact Hstats].
Defined.

(** ** The orchestrator: platforms without an adapter *)

Section EngineRegistry.
Context {E : Type} `{PyLib}.
Variable adapters : Adapters E.
Variable llm : option (LLM E).

Lemma for_each_skip {A S : Type} (keep : A -> bool) (body : A -> S -> M (E := E) S) :
  (forall x acc w, keep x = false -> body x acc w = (Ok acc, w)) ->
  forall l acc w, for_each l body acc w = for_each (List.filter keep l) body acc w.
Proof.
  intros Hskip l. induction l as [|x l IH]; intros acc w; cbn [for_each List.filter].
  - reflexivity.
  - destruct (keep x) eqn:Hkeep.
    + cbn [for_each]. unfold bind.
      destruct (body x acc w) as [[acc'|e] w']; [apply IH | reflexivity].
    + unfold bind. rewrite (Hskip _ _ _ Hkeep). apply IH.
Qed.

Lemma unregistered (platform : Platform) :
  bool_decide (is_Some (adapters platform)) = false -> adapters platform = None.
Proof.
  intros Hreg. apply bool_decide_eq_false in Hreg.
  destruct (adapters platform); [|reflexivity]. exfalso. apply Hreg. eauto.
Qed.

Lemma discover_on_registered (config : DiscoveryConfig) (w : World E) :
  Discovery.discover adapters (on_registered adapters config) w
  = Discovery.discover adapters config w.
Proof.
  unfold Discovery.discover, Discovery.collect, bind.
  change (DiscoveryConfig.platforms (on_registered adapters config))
    with (List.filter (fun platform => bool_decide (is_Some (adapters platform)))
            (DiscoveryConfig.platforms config)).
  change (Discovery.discover_platform adapters (on_registered adapters config))
    with (Discovery.discover_platform adapters config).
  rewrite <- for_each_skip; [reflexivity|].
  intros platform results w0 Hreg. unfold Discovery.discover_platform.
  rewrite (unregistered platform Hreg). reflexivity.
Qed.

(** X13.  A platform of the configuration for which no adapter is registered
    is passed over in silence, in discovery and in the executor: a run of
    [discover_and_engage] is the run on the registered platforms alone, with
    the same result and the same effects.  When none of the configured
    platforms is registered the run returns three empty lists and does
    nothing, where [login] raises a [ValueError]. *)
Theorem engine_skips_unregistered_platforms (audience : TargetAudience)
    (dconfig : DiscoveryConfig) (econfig : EngagementConfig) (w : World E) :
  SocialEngagementEngine.discover_and_engage adapters llm audience dconfig econfig w
  = SocialEngagementEngine.discover_and_engage adapters llm audience
      (on_registered adapters dconfig) econfig w
  /\ (Forall (fun platform => adapters platform = None) (DiscoveryConfig.platforms dconfig) ->
      SocialEngagementEngine.discover_and_engage adapters llm audience dconfig econfig w
      = (Ok (SocialEngagementEngine.mk_results [] [] []), w)).
Proof.
  assert (SocialEngagementEngine.discover_and_engage adapters llm audience dconfig econfig w
          = SocialEngagementEngine.discover_and_engage adapters llm audience
              (on_registered adapters dconfig) econfig w) as Heq.
  { unfold SocialEngagementEngine.discover_and_engage, bind.
    rewrite discover_on_registered.
    destruct (Discovery.discover adapters dconfig w) as [[discovered|e] w1]; [|reflexivity].
    destruct ((if EngagementConfig.skip_already_engaged econfig
               then SocialEngagementEngine.filter_engaged discovered
               else ret discovered) w1) as [[to_engage|e] w2]; [|reflexivity].
    apply for_each_skip. intros platform results w0 Hreg.
    unfold SocialEngagementEngine.engage_platform.
    rewrite (unregistered platform Hreg). reflexivity. }
  split; [exact Heq|]. intros Hnone. rewrite Heq.
  unfold SocialEngagementEngine.discover_and_engage, Discovery.discover, Discovery.collect.
  change (DiscoveryConfig.platforms (on_registered adapters dconfig))
    with (List.filter (fun platform => bool_decide (is_Some (adapters platform)))
            (DiscoveryConfig.platforms dconfig)).
  replace (List.filter (fun platform => bool_decide (is_Some (adapters platform)))
             (DiscoveryConfig.platforms dconfig)) with (@nil Platform).
  - unfold bind. cbn [for_each ret].
    destruct (slice_to_take (sort_reverse DiscoveredPost.engagement_score (@nil DiscoveredPost))
                (DiscoveryConfig.limit (on_registered adapters dconfig))) as [k ->].
    change (sort_reverse DiscoveredPost.engagement_score (@nil DiscoveredPost))
      with (@nil DiscoveredPost).
    rewrite take_nil.
    destruct (EngagementConfig.skip_already_engaged econfig); reflexivity.
  - induction Hnone as [|platform platforms Hp _ IH]; [reflexivity|].
    cbn [List.filter]. rewrite Hp. rewrite bool_decide_eq_false_2; [exact IH|].
    intros [a Ha]. discriminate.
Qed.

End EngineRegistry.

(** ** What does not depend on the ledger *)

Section LedgerBlind.
Context {E : Type} `{PyLib}.

Lemma blind_ret {A : Type} (a : A) : ledger_blind (E := E) (ret a).
Proof. intros w1 w2 Hw. split; [reflexivity | exact Hw]. Qed.

Lemma blind_raise {A : Type} (e : exn) : ledger_blind (E := E) (raise (A := A) e).
Proof. intros w1 w2 Hw. split; [reflexivity | exact Hw]. Qed.

Lemma blind_bind {A B : Type} (c : M (E := E) A) (k : A -> M B) :
  ledger_blind c -> (forall a, ledger_blind (k a)) -> ledger_blind (bind c k).
Proof.
  intros Hc Hk w1 w2 Hw. unfold bind. destruct (Hc w1 w2 Hw) as [Hr Hs].
  destruct (c w1) as [[a1|e1] w1'], (c w2) as [[a2|e2] w2']; cbn [fst snd] in *;
    try discriminate.
  - injection Hr as ->. apply Hk, Hs.
  - injection Hr as ->. split; [reflexivity | exact Hs].
Qed.

Lemma blind_try_except {A : Type} (c : M (E := E) A) (h : exn -> M A) :
  ledger_blind c -> (forall e, ledger_blind (h e)) -> ledger_blind (try_except c h).
Proof.
  intros Hc Hh w1 w2 Hw. unfold try_except. destruct (Hc w1 w2 Hw) as [Hr Hs].
  destruct (c w1) as [[a1|e1] w1'], (c w2) as [[a2|e2] w2']; cbn [fst snd] in *;
    try discriminate.
  - split; [exact Hr | exact Hs].
  - injection Hr as ->. apply Hh, Hs.
Qed.

Lemma blind_for_each {A S : Type} (l : list A) (body : A -> S -> M (E := E) S) :
  (forall x acc, ledger_blind (body x acc)) ->
  forall acc, ledger_blind (for_each l body acc).
Proof.
  intros Hbody. induction l as [|x l IH]; intros acc; cbn [for_each].
  - apply blind_ret.
  - apply blind_bind; [apply Hbody | exact IH].
Qed.

Lemma blind_of_result {A : Type} (r : result A) : ledger_blind (E := E) (of_result r).
Proof. intros w1 w2 Hw. split; [reflexivity | exact Hw]. Qed.

Lemma blind_for_each_try {A S : Type} (l : list A) (body : A -> S -> M (E := E) S) :
  (forall x acc, ledger_blind (body x acc)) ->
  forall acc, ledger_blind (for_each_try l body acc).
Proof.
  intros Hbody. induction l as [|x l IH]; intros acc w1 w2 Hw; cbn [for_each_try].
  - split; [reflexivity | exact Hw].
  - destruct (Hbody x acc w1 w2 Hw) as [Hr Hs].
    destruct (body x acc w1) as [[a1|e1] w1'], (body x acc w2) as [[a2|e2] w2'];
      cbn [fst snd] in *; try discriminate.
    + injection Hr as ->. apply IH, Hs.
    + split; [reflexivity | exact Hs].
Qed.

Lemma blind_emit (ev : Event) : ledger_blind (E := E) (emit ev).
Proof.
  intros w1 w2 (Hx & Hc & Hcr & He & Her & Ht). unfold emit, same_but_db. cbn.
  rewrite Ht. auto 10.
Qed.

Lemma blind_external {A : Type} (f : E -> result A * E) : ledger_blind (external f).
Proof.
  intros w1 w2 (Hx & Hc & Hcr & He & Her & Ht). unfold external, same_but_db.
  rewrite Hx. destruct (f (World.ext w2)) as [r x]. cbn. auto 10.
Qed.

Lemma blind_datetime_now : ledger_blind (E := E) datetime_now.
Proof.
  intros w1 w2 (Hx & Hc & Hcr & He & Her & Ht). unfold datetime_now, same_but_db. cbn.
  rewrite Hc, Hcr. auto 10.
Qed.

Lemma blind_randint (a b : Z) : ledger_blind (E := E) (randint a b).
Proof.
  unfold randint. destruct (0 <? b + 1 - a); [|apply blind_raise].
  apply blind_bind; [|intros r; apply blind_ret].
  intros w1 w2 (Hx & Hc & Hcr & He & Her & Ht). unfold _randbelow, same_but_db. cbn.
  rewrite He, Her. auto 10.
Qed.

Lemma blind_db_execute (stmt : Database -> Database) :
  ledger_blind (E := E) (db_execute stmt).
Proof.
  intros w1 w2 (Hx & Hc & Hcr & He & Her & Ht). unfold db_execute, same_but_db. cbn.
  auto 10.
Qed.

Ltac blind :=
  repeat first
    [ apply blind_ret
    | apply blind_raise
    | apply blind_of_result
    | apply blind_emit
    | apply blind_datetime_now
    | apply blind_external
    | apply blind_randint
    | apply blind_db_execute
    | apply blind_bind; [|intros ?]
    | apply blind_try_except; [|intros ?]
    | apply blind_for_each; intros ? ?
    | apply blind_for_each_try; intros ? ?
    | match goal with
      | |- ledger_blind (match ?x with _ => _ end) => destruct x
      | |- ledger_blind (if ?x then _ else _) => destruct x
      end ].

Lemma record_blind (result : EngagementResult) (author comment : string) :
  ledger_blind (E := E) (Analytics.record result author comment).
Proof. unfold Analytics.record. blind. Qed.

Lemma discover_blind (adapters : Adapters E) (config : DiscoveryConfig) :
  ledger_blind (Discovery.discover adapters config).
Proof.
  unfold Discovery.discover, Discovery.collect. blind.
  unfold Discovery.discover_platform. blind.
  unfold Discovery._evaluate_post. blind.
Qed.

Lemma call_comment_blind (adapter : PlatformAdapter E) (id : string) (text : json) :
  ledger_blind (Engagement.call_comment adapter id text).
Proof.
  intros w1 w2 Hw. unfold Engagement.call_comment.
  destruct (blind_external (PlatformAdapter.comment adapter id text) w1 w2 Hw) as [Hr Hs].
  destruct (external (PlatformAdapter.comment adapter id text) w1) as [o1 w1'].
  destruct (external (PlatformAdapter.comment adapter id text) w2) as [o2 w2'].
  cbn [fst snd] in *. subst o2. split; [reflexivity|]. apply blind_emit, Hs.
Qed.

Lemma engage_blind (llm : option (LLM E)) (adapter : PlatformAdapter E)
    (config : EngagementConfig)
    (callback : option (Post -> EngagementResult -> M (E := E) unit))
    (posts : list Post) :
  (forall cb, callback = Some cb -> forall post r, ledger_blind (cb post r)) ->
  ledger_blind (Engagement.engage llm posts adapter config callback).
Proof.
  intros Hcb. unfold Engagement.engage. generalize 0 at 1. generalize (@nil EngagementResult).
  induction posts as [|post posts' IH]; intros results i; cbn [Engagement.engage_loop].
  - apply blind_ret.
  - destruct (_ <=? _); [apply blind_ret|].
    apply blind_bind; [|intros rs; apply IH].
    unfold Engagement.engage_body, sleep.
    apply blind_bind; [apply blind_randint|intros delay].
    apply blind_bind; [apply blind_emit|intros []].
    apply blind_bind; [unfold Engagement.generate_comment; blind|].
    intros [|text comments]; [apply blind_ret|].
    apply blind_bind; [apply call_comment_blind|intros result].
    apply blind_bind; [blind|intros []].
    apply blind_bind; [|intros []; apply blind_ret].
    destruct callback as [cb|]; [|apply blind_ret].
    apply blind_bind; [apply blind_emit|intros []]. apply (Hcb cb eq_refl).
Qed.

(** X14.  Discovery and the executor never read the ledger, and the engine
    reads it only to filter the posts already commented on.  So with
    [skip_already_engaged] off, two runs of [discover_and_engage] that start
    from worlds differing only in their database search, wait, comment and
    return alike.  In particular [max_daily] bounds the comments of one call:
    the outcomes recorded earlier, the same day or not, do not lower it. *)
Theorem engine_reads_ledger_only_to_skip (adapters : Adapters E) (llm : option (LLM E))
    (audience : TargetAudience) (dconfig : DiscoveryConfig) (econfig : EngagementConfig) :
  ledger_blind (Discovery.discover adapters dconfig)
  /\ (forall adapter posts,
        ledger_blind (Engagement.engage llm posts adapter econfig
                        (Some SocialEngagementEngine._on_engagement)))
  /\ (EngagementConfig.skip_already_engaged econfig = false ->
      ledger_blind (SocialEngagementEngine.discover_and_engage adapters llm audience
                      dconfig econfig)).
Proof.
  assert (forall adapter posts,
             ledger_blind (Engagement.engage llm posts adapter econfig
                             (Some SocialEngagementEngine._on_engagement))) as Hengage.
  { intros adapter posts. apply engage_blind. intros cb [= <-] post r.
    apply record_blind. }
  split; [apply discover_blind|]. split; [exact Hengage|].
  intros Hskip. unfold SocialEngagementEngine.discover_and_engage. rewrite Hskip.
  apply blind_bind; [apply discover_blind|intros discovered].
  apply blind_bind; [apply blind_ret|intros to_engage].
  apply blind_for_each. intros platform results.
  unfold SocialEngagementEngine.engage_platform.
  destruct (adapters platform) as [adapter|]; [|apply blind_ret].
  apply blind_bind; [apply blind_emit|intros []].
  apply blind_bind; [apply Hengage|intros rs]. apply blind_ret.
Qed.

End LedgerBlind.

Lemma engine_reads_ledger_only_to_skip_witness :
  let config := EngagementConfig.mk Sample.audience "friendly" 2 0 0 false in
  let run :=
    SocialEngagementEngine.discover_and_engage (H := Sample.lib)
      (Sample.adapters (Sample.adapter Sample.three_posts)) None Sample.audience
      (Sample.discovery_config 20) config in
  let w1 := Sample.world in
  let w2 :=
    World.mk tt (fun _ => Sample.noon) 0 (fun _ => 0) 0
      (Analytics.insert_engagement "instagram" "comment" "p80" "alice" "Nice route!" 1 ""
         Database.empty) [] in
  fst (run w1) = fst (run w2) /\ same_but_db (snd (run w1)) (snd (run w2)).
Proof.
  intros config run w1 w2.
  apply (proj2 (proj2 (engine_reads_ledger_only_to_skip (H := Sample.lib)
                         (Sample.adapters (Sample.adapter Sample.three_posts)) None
                         Sample.audience (Sample.discovery_config 20) config))
           eq_refl w1 w2).
  unfold same_but_db. repeat split; reflexivity.
Defined.

(** ** The orchestrator: what is handed to the executor *)

Section EngineHandover.
Context {E : Type} `{PyLib}.
Variable adapters : Adapters E.
Variable llm : option (LLM E).

Lemma about_handed_over (config : EngagementConfig) (to_engage : list DiscoveredPost)
    (post : Post) (ev : Event) :
  post ∈ map DiscoveredPost.post to_engage ->
  about config post ev -> handed_over to_engage ev.
Proof.
  intros Hin. destruct ev; cbn; try tauto.
  - intros ->. apply list_elem_of_fmap in Hin as (d & -> & Hd).
    apply list_elem_of_fmap. exists d. split; [reflexivity | exact Hd].
  - intros ->. exact Hin.
Qed.

Lemma flatten_handed_over (config : EngagementConfig) (to_engage : list DiscoveredPost)
    (posts : list Post) (chunks : list (Post * Z * list Event)) :
  Forall (fun p => p ∈ map DiscoveredPost.post to_engage) posts ->
  map (fun c => fst (fst c)) chunks `prefix_of` posts ->
  Forall (fun c => Forall (about config (fst (fst c))) (snd c)) chunks ->
  Forall (handed_over to_engage) (flatten chunks).
Proof.
  intros Hposts [rest ->] Hchunks. apply Forall_app in Hposts as [Hposts _].
  induction Hchunks as [|[[post d] evs] chunks Hab _ IH]; [constructor|].
  cbn [map fst] in Hposts. apply Forall_cons in Hposts as [Hin Hposts].
  rewrite flatten_cons. apply Forall_app. split; [|apply IH, Hposts].
  cbn. constructor; [exact I|].
  eapply Forall_impl; [exact Hab|]. intros ev. apply about_handed_over, Hin.
Qed.

Lemma engage_platform_handed_over (config : EngagementConfig)
    (to_engage : list DiscoveredPost) (platform : Platform)
    (results : SocialEngagementEngine.Results) :
  respects (trace_grows (handed_over to_engage))
    (SocialEngagementEngine.engage_platform adapters llm config to_engage platform results).
Proof.
  unfold SocialEngagementEngine.engage_platform.
  destruct (adapters platform) as [adapter|]; [|apply respects_ret; typeclasses eauto].
  apply respects_bind; try typeclasses eauto; [|intros []].
  { apply respects_emit_trace. reflexivity. }
  apply respects_bind; try typeclasses eauto;
    [|intros rs; apply respects_ret; typeclasses eauto].
  intros w.
  match goal with
  | |- context [Engagement.engage ?l ?ps ?a ?c ?cb w] =>
      destruct (Engagement.engage l ps a c cb w) as [r w'] eqn:Hrun
  end.
  apply (engage_loop_run _ _ _ _ _ on_engagement_quiet) in Hrun.
  destruct Hrun as (chunks & Htr & Hpre & Hok & _).
  exists (flatten chunks). split; [exact Htr|].
  eapply flatten_handed_over; [| exact Hpre |].
  - apply Forall_forall. intros p Hp. apply list_elem_of_fmap in Hp as (d & -> & Hd).
    apply list_elem_of_filter in Hd as [_ Hd].
    apply list_elem_of_fmap. exists d. split; [reflexivity | exact Hd].
  - eapply Forall_impl; [exact Hok|]. intros c [_ Hab]. exact Hab.
Qed.

(** X15.  Once discovery has returned its candidates, the rest of a
    [discover_and_engage] run stays within those that pass phase 2 (all of
    them, or with [skip_already_engaged] those without a comment record when
    the run started): it searches no more, each call of the executor gets
    exactly the candidates of its platform, in discovery order, and every
    comment and every callback is on one of them.  The filter is applied once,
    before the first comment of the run. *)
Theorem engine_stays_within_candidates (audience : TargetAudience)
    (dconfig : DiscoveryConfig) (econfig : EngagementConfig) (w w1 : World E)
    (discovered : list DiscoveredPost) :
  Discovery.discover adapters dconfig w = (Ok discovered, w1) ->
  trace_grows
    (handed_over (unrecorded (EngagementConfig.skip_already_engaged econfig)
                             (World.db w) discovered))
    w1
    (snd (SocialEngagementEngine.discover_and_engage adapters llm audience dconfig
            econfig w)).
Proof.
  intros Hdiscover. unfold SocialEngagementEngine.discover_and_engage.
  unfold bind at 1. rewrite Hdiscover.
  pose proof (discover_respects same_db same_db_frame adapters
                (fun _ _ _ _ _ => respects_emit_same_db _) dconfig w) as Hdb.
  rewrite Hdiscover in Hdb. cbn [snd] in Hdb. unfold same_db in Hdb.
  unfold bind at 1.
  assert ((if EngagementConfig.skip_already_engaged econfig
           then SocialEngagementEngine.filter_engaged discovered
           else ret discovered) w1
          = (Ok (unrecorded (EngagementConfig.skip_already_engaged econfig)
                            (World.db w) discovered), w1)) as ->.
  { unfold unrecorded. destruct (EngagementConfig.skip_already_engaged econfig).
    - rewrite filter_engaged_run, Hdb. reflexivity.
    - reflexivity. }
  apply respects_for_each; [typeclasses eauto|]. intros platform results _.
  apply engage_platform_handed_over.
Qed.

End EngineHandover.

Lemma engine_stays_within_candidates_witness :
  let adapters := Sample.adapters (Sample.adapter Sample.three_posts) in
  let found := Discovery.discover (H := Sample.lib) adapters (Sample.discovery_config 20)
                 Sample.world in
  let discovered := match fst found with Ok ds => ds | Raise _ => [] end in
  trace_grows (handed_over (unrecorded true Database.empty discovered)) (snd found)
    (snd (SocialEngagementEngine.discover_and_engage (H := Sample.lib) adapters None
            Sample.audience (Sample.discovery_config 20)
            (Sample.engagement_config 20 0 0) Sample.world)).
Proof.
  intros adapters found discovered.
  assert (found = (Ok discovered, snd found)) as Hfound by (vm_compute; reflexivity).
  exact (engine_stays_within_candidates (H := Sample.lib) adapters None Sample.audience
           (Sample.discovery_config 20) (Sample.engagement_config 20 0 0)
           Sample.world (snd found) discovered Hfound).
Defined.
